(** * node-sqlite-orm: schema reconciliation, query building and the value codec

    A shallow embedding of [src/builder.ts], [src/json.ts],
    [src/model-reader.ts] and of the storage boundary and table set-up
    of the [SqliteOrm] class of [src/index.ts], followed by the
    properties established about them.

    - A function that can throw returns a [result]; loops that push onto
      an array or assign properties of an object are recursive functions
      over the entries, in the order of the source.
    - Dynamic values are the type [value]; the JSON-safe trees that
      [jsonify] produces and [dejsonify] consumes are the type [json].
    - The registry [serializableClasses], a module-level array in the
      source, is a parameter of the codec.
    - What belongs to the language and its runtime and is only rendered
      into text ([ToString], [JSON.stringify]) is the class [Host];
      Base64 is written out, since the round trip of a buffer rests on
      it.
    - The database is kept as the statements that [db.exec] has run. *)

From Stdlib Require Import String Ascii List ZArith Bool Lia DecimalString.
Import ListNotations.
Local Open Scope string_scope.
Local Open Scope list_scope.

(** ** Exceptions and fallible results *)

(** The classes of exception the sources throw.  [DBInvalidData] is the
    driver's own subclass; [TypeError] is what the language raises when a
    property of [undefined] is read or a non-function is called. *)
Inductive exn : Type :=
| Error (msg : string)
| TypeError (msg : string)
| DBInvalidData (msg : string).

Inductive result (A : Type) : Type :=
| Ok (a : A)
| Throw (e : exn).
Arguments Ok {A} a.
Arguments Throw {A} e.

Definition bind {A B} (r : result A) (k : A -> result B) : result B :=
  match r with
  | Ok a => k a
  | Throw e => Throw e
  end.

Definition fmap {A B} (f : A -> B) (r : result A) : result B :=
  bind r (fun a => Ok (f a)).

Declare Scope result_scope.
Delimit Scope result_scope with result.
Notation "x <- r ;; k" := (bind r (fun x => k))
  (at level 61, r at next level, right associativity) : result_scope.
Local Open Scope result_scope.

Definition throws {A} (r : result A) : Prop :=
  exists e, r = Throw e.

Definition returns {A} (r : result A) : Prop :=
  exists a, r = Ok a.

(** Evaluate a list of computations from left to right, stopping at the
    first exception: the shape of every [for ... push] loop below. *)
Fixpoint traverse {A B} (f : A -> result B) (l : list A) : result (list B) :=
  match l with
  | [] => Ok []
  | a :: l' => b <- f a ;; bs <- traverse f l' ;; Ok (b :: bs)
  end.

(** ** Strings *)

Definition dquote : string := String (ascii_of_nat 34) EmptyString.
Definition squote : string := String (ascii_of_nat 39) EmptyString.
Definition newline : string := String (ascii_of_nat 10) EmptyString.

(** [Array.prototype.join] on an array of strings. *)
Definition join (sep : string) (l : list string) : string :=
  String.concat sep l.

(** [s.slice(0, -1)]: all but the last character. *)
Fixpoint slice_0_m1 (s : string) : string :=
  match s with
  | EmptyString => EmptyString
  | String c EmptyString => EmptyString
  | String c s' => String c (slice_0_m1 s')
  end.

(** ** Numbers

    The sources observe a number only through [typeof],
    [Number.isFinite], [Number.isInteger], [Number.isSafeInteger],
    strict comparison with [0] and [1], and its truthiness.  A number is
    therefore kept as: not-a-number, an infinity, a finite number with an
    integral value, or a finite number [(2m+1) / 2^e] with a fractional
    part (every finite binary floating number that is not integral has
    exactly one such form).  Positive and negative zero are both [Int 0]. *)
Inductive number : Type :=
| NaN
| Infinity (negative : bool)
| Int (z : Z)
| Dyadic (m : Z) (e : positive).

Definition Number_isFinite (n : number) : bool :=
  match n with
  | NaN | Infinity _ => false
  | Int _ | Dyadic _ _ => true
  end.

Definition Number_isInteger (n : number) : bool :=
  match n with
  | Int _ => true
  | _ => false
  end.

Definition MAX_SAFE_INTEGER : Z := 2 ^ 53 - 1.

Definition Number_isSafeInteger (n : number) : bool :=
  match n with
  | Int z => (Z.abs z <=? MAX_SAFE_INTEGER)%Z
  | _ => false
  end.

Definition number_eqb (a b : number) : bool :=
  match a, b with
  | Infinity x, Infinity y => Bool.eqb x y
  | Int x, Int y => (x =? y)%Z
  | Dyadic m e, Dyadic m' e' => (m =? m')%Z && (e =? e')%positive
  | _, _ => false
  end.

(** ** Values

    The dynamic values the sources handle.  Objects keep their own
    enumerable properties in insertion order, as [Object.entries] lists
    them.  An instance of a class carries its prototype chain as the
    identities of its classes, most derived first, which is what
    [instanceof] inspects. *)
Definition byte := ascii.

Unset Elimination Schemes.

Inductive value : Type :=
| VUndefined
| VNull
| VBool (b : bool)
| VNum (n : number)
| VStr (s : string)
| VBigInt (z : Z)
| VFunction
| VSymbol
| VArray (items : list value)
| VObject (props : list (string * value))
| VMap (entries : list (value * value))
| VBuffer (bytes : list byte)
| VUint8Array (bytes : list byte)
| VInstance (chain : list nat) (props : list (string * value)).

(** The JSON-safe trees: what [jsonify] returns, what [dejsonify]
    accepts and what [JSON.parse] produces. *)
Inductive json : Type :=
| JNull
| JBool (b : bool)
| JNum (n : number)
| JStr (s : string)
| JArr (items : list json)
| JObj (props : list (string * json)).

Set Elimination Schemes.

Inductive js_type : Type :=
| TyUndefined | TyObject | TyBoolean | TyNumber | TyString
| TyBigint | TyFunction | TySymbol.

Definition typeof (v : value) : js_type :=
  match v with
  | VUndefined => TyUndefined
  | VNull => TyObject
  | VBool _ => TyBoolean
  | VNum _ => TyNumber
  | VStr _ => TyString
  | VBigInt _ => TyBigint
  | VFunction => TyFunction
  | VSymbol => TySymbol
  | VArray _ | VObject _ | VMap _ | VBuffer _ | VUint8Array _
  | VInstance _ _ => TyObject
  end.

Definition js_type_eqb (a b : js_type) : bool :=
  match a, b with
  | TyUndefined, TyUndefined | TyObject, TyObject | TyBoolean, TyBoolean
  | TyNumber, TyNumber | TyString, TyString | TyBigint, TyBigint
  | TyFunction, TyFunction | TySymbol, TySymbol => true
  | _, _ => false
  end.

Definition typeof_name (t : js_type) : string :=
  match t with
  | TyUndefined => "undefined"
  | TyObject => "object"
  | TyBoolean => "boolean"
  | TyNumber => "number"
  | TyString => "string"
  | TyBigint => "bigint"
  | TyFunction => "function"
  | TySymbol => "symbol"
  end.

(** [v == null]: true of [null] and [undefined] only. *)
Definition is_nullish (v : value) : bool :=
  match v with
  | VUndefined | VNull => true
  | _ => false
  end.

(** Truthiness of a value in a condition. *)
Definition truthy (v : value) : bool :=
  match v with
  | VUndefined | VNull => false
  | VBool b => b
  | VNum NaN => false
  | VNum (Int z) => negb (z =? 0)%Z
  | VNum _ => true
  | VStr s => negb (String.eqb s EmptyString)
  | VBigInt z => negb (z =? 0)%Z
  | _ => true
  end.

Definition is_Array (v : value) : bool :=
  match v with VArray _ => true | _ => false end.

(** [Buffer] extends [Uint8Array]. *)
Definition is_Uint8Array (v : value) : bool :=
  match v with VBuffer _ | VUint8Array _ => true | _ => false end.

(** ** The host language

    Conversions that belong to the language and its runtime and not to
    this package: [ToString] as string concatenation and template
    literals apply it; [JSON.stringify] on a JSON-safe tree;
    [Buffer.from(data, 'base64')] on an array or an object, whose bytes
    it copies after converting them to numbers, or which it refuses; and
    the message of the type error that [Buffer.from] throws on anything
    else that is not a string. *)
Class Host : Type := {
  ToString : value -> string;
  JSON_stringify : json -> string;
  Buffer_from_object : json -> result value;
  invalid_argument : option json -> string
}.

(** ** Table models ([index.ts]) *)

Inductive ColumnType : Type :=
| string_t | number_t | boolean_t | json_t | integer_t | blob_t.

Definition ColumnType_eqb (a b : ColumnType) : bool :=
  match a, b with
  | string_t, string_t | number_t, number_t | boolean_t, boolean_t
  | json_t, json_t | integer_t, integer_t | blob_t, blob_t => true
  | _, _ => false
  end.

Record TableColumn : Type := {
  type : ColumnType;
  name : string;
  mappedTo : option string;
  nullable : bool;
  defaultValue : value;
  isPrimaryKey : bool;
  autoIncrement : bool
}.

Record Model : Type := {
  tableName : string;
  columns : list TableColumn;
  database : string
}.

(** One row of [PRAGMA table_info]. *)
Record ColumnInfo : Type := {
  info_name : string;
  info_type : string;
  info_notnull : Z;
  info_dflt_value : value;
  info_pk : Z
}.

(** [a === b] where [b] may be [undefined]. *)
Definition str_eq_opt (a : string) (b : option string) : bool :=
  match b with
  | Some s => String.eqb a s
  | None => false
  end.

(** [a !== b] where both may be [undefined]. *)
Definition opt_str_eqb (a b : option string) : bool :=
  match a, b with
  | Some x, Some y => String.eqb x y
  | None, None => true
  | _, _ => false
  end.

(** [col.mappedTo ?? col.name] *)
Definition physical (c : TableColumn) : string :=
  match mappedTo c with
  | Some m => m
  | None => name c
  end.

(** ** Properties of objects *)

(** Reading an own property of a record-like list: [obj[key]], with
    [None] for [undefined]. *)
Fixpoint get {A} (key : string) (props : list (string * A)) : option A :=
  match props with
  | [] => None
  | (k, v) :: rest => if String.eqb k key then Some v else get key rest
  end.

(** [obj[key] = v]: an existing property keeps its place, a new one goes
    last.  (The engine's reordering of integer-like keys is left out.) *)
Fixpoint obj_set {A} (props : list (string * A)) (key : string) (v : A)
  : list (string * A) :=
  match props with
  | [] => [(key, v)]
  | (k, x) :: rest =>
      if String.eqb k key then (k, v) :: rest
      else (k, x) :: obj_set rest key v
  end.

(** [obj[key] = v] on an object that inherits from [Object.prototype]:
    an assignment to [__proto__] reaches the setter the prototype has
    under that name, and writes no property.  When [v] is an object the
    setter makes it the prototype of [obj].  An object is kept here as
    its own properties, so what [obj] inherits from then on (the length
    and the items of an array, for one) is not in it: what is said
    below of an object that is read again after such an assignment is
    said of trees without that key, [without_proto]. *)
Definition proto : string := "__proto__".

Definition set_property {A} (props : list (string * A)) (key : string) (v : A)
  : list (string * A) :=
  if String.eqb key proto then props else obj_set props key v.

(** The properties of a list that [set_property] writes: all but the
    ones named [__proto__]. *)
Definition settable {A} (props : list (string * A)) : list (string * A) :=
  filter (fun kv => negb (String.eqb (fst kv) proto)) props.

(** [Object.assign(target, source)] on the property lists. *)
Definition Object_assign {A} (target source : list (string * A))
  : list (string * A) :=
  fold_left (fun acc kv => set_property acc (fst kv) (snd kv)) source target.

(** Decimal rendering of an array index. *)
Fixpoint digits_of (fuel n : nat) (acc : string) : string :=
  match fuel with
  | O => acc
  | S fuel' =>
      let acc' := String (ascii_of_nat (48 + Nat.modulo n 10)) acc in
      match Nat.div n 10 with
      | O => acc'
      | q => digits_of fuel' q acc'
      end
  end.

Definition index_key (n : nat) : string := digits_of (S n) n EmptyString.

(** The entries of an array-like: index keys with the elements. *)
Fixpoint indexed_from {A} (i : nat) (l : list A) : list (string * A) :=
  match l with
  | [] => []
  | x :: rest => (index_key i, x) :: indexed_from (S i) rest
  end.

Definition indexed {A} (l : list A) : list (string * A) := indexed_from 0 l.

Definition byte_value (b : byte) : value := VNum (Int (Z.of_nat (nat_of_ascii b))).

Fixpoint chars_of (s : string) : list string :=
  match s with
  | EmptyString => []
  | String c rest => String c EmptyString :: chars_of rest
  end.

(** [Object.entries(v)]: own enumerable string-keyed properties; [null]
    and [undefined] cannot be converted to an object. *)
Definition Object_entries (v : value) : result (list (string * value)) :=
  match v with
  | VUndefined | VNull =>
      Throw (TypeError "Cannot convert undefined or null to object")
  | VObject props | VInstance _ props => Ok props
  | VArray items => Ok (indexed items)
  | VStr s => Ok (indexed (map VStr (chars_of s)))
  | VBuffer bytes | VUint8Array bytes => Ok (indexed (map byte_value bytes))
  | VBool _ | VNum _ | VBigInt _ | VFunction | VSymbol | VMap _ => Ok []
  end.

(** ** Base64, as [Buffer.prototype.toString('base64')] writes it and
    [Buffer.from(text, 'base64')] reads it *)

Module Base64.
Local Open Scope nat_scope.

(** Six bits, most significant first. *)
Inductive sextet : Type :=
| Sextet (b5 b4 b3 b2 b1 b0 : bool).

Definition bit (b : bool) (w : nat) : nat := if b then w else 0.

Definition sextet_index (s : sextet) : nat :=
  let '(Sextet b5 b4 b3 b2 b1 b0) := s in
  bit b5 32 + bit b4 16 + bit b3 8 + bit b2 4 + bit b1 2 + bit b0 1.

Definition sextet_of_index (n : nat) : sextet :=
  Sextet (Nat.testbit n 5) (Nat.testbit n 4) (Nat.testbit n 3)
         (Nat.testbit n 2) (Nat.testbit n 1) (Nat.testbit n 0).

Definition alphabet : string :=
  "ABCDEFGHIJKLMNOPQRSTUVWXYZabcdefghijklmnopqrstuvwxyz0123456789+/".

Definition pad : ascii := ascii_of_nat 61.

Definition char_of_sextet (s : sextet) : ascii :=
  match String.get (sextet_index s) alphabet with
  | Some c => c
  | None => pad
  end.

(** The reader also takes the URL-safe letters [-] and [_]. *)
Definition sextet_of_char (c : ascii) : option sextet :=
  let n := nat_of_ascii c in
  if (65 <=? n) && (n <=? 90) then Some (sextet_of_index (n - 65))
  else if (97 <=? n) && (n <=? 122) then Some (sextet_of_index (n - 71))
  else if (48 <=? n) && (n <=? 57) then Some (sextet_of_index (n + 4))
  else if (n =? 43) || (n =? 45) then Some (sextet_of_index 62)
  else if (n =? 47) || (n =? 95) then Some (sextet_of_index 63)
  else None.

Fixpoint to_sextets (bs : list byte) : list sextet :=
  match bs with
  | [] => []
  | [Ascii a0 a1 a2 a3 a4 a5 a6 a7] =>
      [Sextet a7 a6 a5 a4 a3 a2; Sextet a1 a0 false false false false]
  | [Ascii a0 a1 a2 a3 a4 a5 a6 a7; Ascii b0 b1 b2 b3 b4 b5 b6 b7] =>
      [Sextet a7 a6 a5 a4 a3 a2; Sextet a1 a0 b7 b6 b5 b4;
       Sextet b3 b2 b1 b0 false false]
  | Ascii a0 a1 a2 a3 a4 a5 a6 a7 :: Ascii b0 b1 b2 b3 b4 b5 b6 b7
      :: Ascii c0 c1 c2 c3 c4 c5 c6 c7 :: rest =>
      Sextet a7 a6 a5 a4 a3 a2 :: Sextet a1 a0 b7 b6 b5 b4
        :: Sextet b3 b2 b1 b0 c7 c6 :: Sextet c5 c4 c3 c2 c1 c0
        :: to_sextets rest
  end.

Definition padding (bs : list byte) : string :=
  match Nat.modulo (length bs) 3 with
  | 1 => String pad (String pad EmptyString)
  | 2 => String pad EmptyString
  | _ => EmptyString
  end.

Definition encode (bs : list byte) : string :=
  string_of_list_ascii (map char_of_sextet (to_sextets bs)) ++ padding bs.

(** Reading stops at the first padding character; characters outside
    the alphabets are passed over. *)
Fixpoint sextets_of (s : string) : list sextet :=
  match s with
  | EmptyString => []
  | String c rest =>
      if Ascii.eqb c pad then []
      else match sextet_of_char c with
           | Some x => x :: sextets_of rest
           | None => sextets_of rest
           end
  end.

Fixpoint from_sextets (l : list sextet) : list byte :=
  match l with
  | Sextet a7 a6 a5 a4 a3 a2 :: Sextet a1 a0 b7 b6 b5 b4
      :: Sextet b3 b2 b1 b0 c7 c6 :: Sextet c5 c4 c3 c2 c1 c0 :: rest =>
      Ascii a0 a1 a2 a3 a4 a5 a6 a7 :: Ascii b0 b1 b2 b3 b4 b5 b6 b7
        :: Ascii c0 c1 c2 c3 c4 c5 c6 c7 :: from_sextets rest
  | [Sextet a7 a6 a5 a4 a3 a2; Sextet a1 a0 b7 b6 b5 b4;
     Sextet b3 b2 b1 b0 _ _] =>
      [Ascii a0 a1 a2 a3 a4 a5 a6 a7; Ascii b0 b1 b2 b3 b4 b5 b6 b7]
  | [Sextet a7 a6 a5 a4 a3 a2; Sextet a1 a0 _ _ _ _] =>
      [Ascii a0 a1 a2 a3 a4 a5 a6 a7]
  | _ => []
  end.

Definition decode (s : string) : list byte := from_sextets (sextets_of s).

End Base64.

(** ** The value codec ([json.ts]) *)

(** A class that can be registered: its identity, its [name], the
    identities of the classes it extends, and the own properties a fresh
    [new C()] has. *)
Record jsclass : Type := {
  class_id : nat;
  class_name : string;
  class_supers : list nat;
  class_fields : list (string * value)
}.

(** One element of [serializableClasses]. *)
Record serializable : Type := {
  classRef : jsclass;
  ignoredProps : list string
}.

Definition registry : Type := list serializable.

(** [registerJsonSerializable(ignoredProps)(clas)] pushes onto the
    registry. *)
Definition registerJsonSerializable (ignored : list string) (clas : jsclass)
    (reg : registry) : registry :=
  reg ++ [{| classRef := clas; ignoredProps := ignored |}].

(** [val instanceof c] for a registered class [c]. *)
Definition instanceof (val : value) (c : jsclass) : bool :=
  match val with
  | VInstance chain _ => existsb (Nat.eqb (class_id c)) chain
  | _ => false
  end.

(** [new c()] *)
Definition construct (c : jsclass) : list nat * list (string * value) :=
  (class_id c :: class_supers c, class_fields c).

(** The tagged envelope [{ data, type }]. *)
Definition envelope (data : json) (tag : string) : json :=
  JObj [("data", data); ("type", JStr tag)].

(** [SameValueZero], by which a [Map] compares its keys.  Objects are
    compared by identity; the only caller builds a map from objects just
    created by [dejsonify], which are pairwise distinct. *)
Definition same_value_zero (a b : value) : bool :=
  match a, b with
  | VUndefined, VUndefined | VNull, VNull => true
  | VBool x, VBool y => Bool.eqb x y
  | VNum NaN, VNum NaN => true
  | VNum x, VNum y => number_eqb x y
  | VStr x, VStr y => String.eqb x y
  | VBigInt x, VBigInt y => (x =? y)%Z
  | _, _ => false
  end.

(** [map.set(k, v)] on the entries of a map, in insertion order. *)
Fixpoint Map_set (entries : list (value * value)) (k v : value)
  : list (value * value) :=
  match entries with
  | [] => [(k, v)]
  | (k', x) :: rest =>
      if same_value_zero k' k then (k', v) :: rest
      else (k', x) :: Map_set rest k v
  end.

(** [item[i]] on a value that is an object. *)
Definition element (item : value) (i : nat) : result value :=
  let or_undefined o := match o with Some v => v | None => VUndefined end in
  match item with
  | VArray items => Ok (or_undefined (nth_error items i))
  | VObject props | VInstance _ props => Ok (or_undefined (get (index_key i) props))
  | VBuffer bytes | VUint8Array bytes =>
      Ok (or_undefined (option_map byte_value (nth_error bytes i)))
  | VMap _ | VFunction => Ok VUndefined
  | _ => Throw (TypeError "Iterator value is not an entry object")
  end.

Fixpoint Map_of_items (acc : list (value * value)) (items : list value)
  : result (list (value * value)) :=
  match items with
  | [] => Ok acc
  | item :: rest =>
      k <- element item 0 ;;
      v <- element item 1 ;;
      Map_of_items (Map_set acc k v) rest
  end.

(** [new Map(iterable)] *)
Definition Map_new (iterable : value) : result value :=
  match iterable with
  | VUndefined | VNull => Ok (VMap [])
  | VArray items => fmap VMap (Map_of_items [] items)
  | VMap entries =>
      fmap VMap (Map_of_items [] (map (fun kv => VArray [fst kv; snd kv]) entries))
  | VStr s => fmap VMap (Map_of_items [] (map VStr (chars_of s)))
  | VBuffer bytes | VUint8Array bytes =>
      fmap VMap (Map_of_items [] (map byte_value bytes))
  | _ => Throw (TypeError "object is not iterable")
  end.

(** [Buffer.from(data, 'base64')].  A string, which is all that
    [writeValue] ever stores under a [Buffer] tag, is decoded; an array
    or an object is left to the runtime; [undefined], [null], a boolean
    and a number are refused with a type error. *)
Definition Buffer_from_base64 {host : Host} (data : option json) : result value :=
  match data with
  | Some (JStr s) => Ok (VBuffer (Base64.decode s))
  | Some (JArr items) => Buffer_from_object (JArr items)
  | Some (JObj props) => Buffer_from_object (JObj props)
  | Some JNull | Some (JBool _) | Some (JNum _) | None =>
      Throw (TypeError (invalid_argument data))
  end.

Module Json.
Section WithRegistry.

Context {host : Host}.
Variable serializableClasses : registry.

Definition isSerializable (obj : value) : bool :=
  match typeof obj with
  | TyBigint | TyFunction | TySymbol => false
  | _ => true
  end.

(** The array loop of [jsonify], over the function that writes one
    item. *)
Definition jsonify_array (write : value -> result json)
  : list value -> result (list json) :=
  fix loop (items : list value) : result (list json) :=
    match items with
    | [] => Ok []
    | item :: rest =>
        if negb (isSerializable item) then loop rest
        else j <- write item ;; js <- loop rest ;; Ok (j :: js)
    end.

(** The object loop of [jsonify]; [parsed] is the object being filled. *)
Definition jsonify_object (write : value -> result json)
    (ignored : list string)
  : list (string * value) -> list (string * json) -> result (list (string * json)) :=
  fix loop (entries : list (string * value)) (parsed : list (string * json))
    : result (list (string * json)) :=
    match entries with
    | [] => Ok parsed
    | (key, v) :: rest =>
        if negb (isSerializable v) then loop rest parsed
        else if existsb (String.eqb key) ignored then loop rest parsed
        else j <- write v ;; loop rest (set_property parsed key j)
    end.

(** [jsonify([...val.entries()])]: each entry is the array [[k, v]],
    itself written by the array loop. *)
Definition jsonify_entries (write : value -> result json)
  : list (value * value) -> result (list json) :=
  fix loop (entries : list (value * value)) : result (list json) :=
    match entries with
    | [] => Ok []
    | (k, v) :: rest =>
        j <- fmap JArr (jsonify_array write [k; v]) ;;
        js <- loop rest ;;
        Ok (j :: js)
    end.

(** [writeValue] on a number. *)
Definition writeNumber (val : value) : result json :=
  match val with
  | VNum n => Ok (JNum n)
  | _ => Throw (Error "Cannot write object")
  end.

Fixpoint writeValue (val : value) : result json :=
  match val with
  | VUndefined | VNull => Ok JNull
  | VBool b => Ok (JBool b)
  | VNum n => Ok (JNum n)
  | VStr s => Ok (JStr s)
  | VMap entries =>
      data <- jsonify_entries writeValue entries ;;
      Ok (envelope (JArr data) "Map")
  | VArray items => fmap JArr (jsonify_array writeValue items)
  | VBuffer bytes => Ok (envelope (JStr (Base64.encode bytes)) "Buffer")
  | VInstance _ props =>
      match find (fun c => instanceof val (classRef c)) serializableClasses with
      | Some clas =>
          data <- jsonify_object writeValue (ignoredProps clas) props [] ;;
          Ok (envelope (JObj data) ("custom-" ++ class_name (classRef clas)))
      | None =>
          data <- jsonify_object writeValue [] props [] ;;
          Ok (envelope (JObj data) "object")
      end
  | VObject props =>
      data <- jsonify_object writeValue [] props [] ;;
      Ok (envelope (JObj data) "object")
  | VUint8Array bytes =>
      (* the entries of a typed array are numbers, written as they are *)
      data <- jsonify_object writeNumber [] (indexed (map byte_value bytes)) [] ;;
      Ok (envelope (JObj data) "object")
  | VBigInt _ | VFunction | VSymbol =>
      Throw (Error ("Cannot write object of type " ++ typeof_name (typeof val)))
  end.

Definition jsonify (obj : value) (ignored : list string) : result json :=
  match obj with
  | VArray items => fmap JArr (jsonify_array writeValue items)
  | _ =>
      entries <- Object_entries obj ;;
      fmap JObj (jsonify_object writeValue ignored entries [])
  end.

Variable compatMode : bool.

(** The object loop of [dejsonify]. *)
Definition dejsonify_object (read : json -> result value)
  : list (string * json) -> list (string * value) -> result (list (string * value)) :=
  fix loop (entries : list (string * json)) (parsed : list (string * value))
    : result (list (string * value)) :=
    match entries with
    | [] => Ok parsed
    | (key, v) :: rest => x <- read v ;; loop rest (set_property parsed key x)
    end.

(** The body of [dejsonify], over the function that reads one item.
    [None] is [undefined].  A string has its characters as entries, a
    number or a boolean has none. *)
Definition dejsonify_with (read : json -> result value) (jsonObj : option json)
  : result value :=
  match jsonObj with
  | Some (JArr items) => fmap VArray (traverse read items)
  | Some (JObj props) => fmap VObject (dejsonify_object read props [])
  | Some (JStr s) => Ok (VObject (indexed (map VStr (chars_of s))))
  | Some (JNum _) | Some (JBool _) => Ok (VObject [])
  | Some JNull | None =>
      Throw (TypeError "Cannot convert undefined or null to object")
  end.

(** [dejsonify(val.data, compatMode)]: the property is looked up and
    handed over in one pass. *)
Definition dejsonify_data (read : json -> result value)
  : list (string * json) -> result value :=
  fix lookup (props : list (string * json)) : result value :=
    match props with
    | [] => dejsonify_with read None
    | (k, v) :: rest =>
        if String.eqb k "data" then dejsonify_with read (Some v)
        else lookup rest
    end.

(** [val.type.slice('custom-'.length)] *)
Definition custom_name (tag : string) : string :=
  String.substring 7 (String.length tag - 7) tag.

Fixpoint readValue (val : json) : result value :=
  match val with
  | JNull => Ok VNull
  | JBool b => Ok (VBool b)
  | JNum n => Ok (VNum n)
  | JStr s => Ok (VStr s)
  | JArr items => fmap VArray (traverse readValue items)
  | JObj props =>
      match get "type" props with
      | None | Some JNull =>
          if compatMode then fmap VObject (dejsonify_object readValue props [])
          else Throw (Error "JSON object has a null type")
      | Some (JStr tag) =>
          if String.eqb tag "Map" then
            entries <- dejsonify_data readValue props ;;
            Map_new entries
          else if String.eqb tag "Buffer" then
            Buffer_from_base64 (get "data" props)
          else if String.eqb tag "object" then
            dejsonify_data readValue props
          else if String.prefix "custom-" tag then
            match find (fun c => String.eqb (class_name (classRef c)) (custom_name tag))
                       serializableClasses with
            | Some clas =>
                let obj := construct (classRef clas) in
                data <- dejsonify_data readValue props ;;
                source <- Object_entries data ;;
                Ok (VInstance (fst obj) (Object_assign (snd obj) source))
            | None =>
                Throw (Error ("Class for type '" ++ custom_name tag
                              ++ "' was not registered"))
            end
          else if compatMode then
            fmap VObject (dejsonify_object readValue props [])
          else Throw (Error ("JSON object is of unknown type " ++ tag))
      | Some _ =>
          (* a tag that is not a string equals none of the tags, and has
             no [startsWith] to call *)
          Throw (TypeError "val.type.startsWith is not a function")
      end
  end.

Definition dejsonify (jsonObj : json) : result value :=
  dejsonify_with readValue (Some jsonObj).

(** *** What comes back from a round trip

    The entry of the registry an instance is written under, and the
    entry its tag is read back with. *)
Definition written_as (chain : list nat) : option serializable :=
  find (fun c => existsb (Nat.eqb (class_id (classRef c))) chain)
       serializableClasses.

Definition read_as (tag_name : string) : option serializable :=
  find (fun c => String.eqb (class_name (classRef c)) tag_name)
       serializableClasses.

Definition kept (ignored : list string) (props : list (string * value))
  : list (string * value) :=
  filter (fun kv => negb (existsb (String.eqb (fst kv)) ignored)) props.

(** The value [readValue] returns on what [writeValue] wrote.  It is the
    value itself except that [undefined] comes back as [null], an own
    property named [__proto__] is lost, an instance of a class that is
    not registered comes back as a plain object, and an instance of a
    registered class comes back as a fresh instance of the class its tag
    names, overlaid with the properties that were not ignored. *)
Fixpoint rebuilt (v : value) : value :=
  match v with
  | VUndefined => VNull
  | VArray items => VArray (map rebuilt items)
  | VObject props =>
      VObject (settable (map (fun kv => (fst kv, rebuilt (snd kv))) props))
  | VMap entries =>
      VMap (map (fun kv => (rebuilt (fst kv), rebuilt (snd kv))) entries)
  | VInstance chain props =>
      match written_as chain with
      | Some clas =>
          match read_as (class_name (classRef clas)) with
          | Some clas' =>
              VInstance (fst (construct (classRef clas')))
                (Object_assign (snd (construct (classRef clas')))
                   (kept (ignoredProps clas)
                      (settable (map (fun kv => (fst kv, rebuilt (snd kv))) props))))
          | None => v
          end
      | None =>
          VObject (settable (map (fun kv => (fst kv, rebuilt (snd kv))) props))
      end
  | _ => v
  end.

Fixpoint distinct_strings (l : list string) : bool :=
  match l with
  | [] => true
  | s :: rest => negb (existsb (String.eqb s) rest) && distinct_strings rest
  end.

(** Pairwise different keys, as a map tells keys apart. *)
Fixpoint distinct_keys (l : list value) : bool :=
  match l with
  | [] => true
  | k :: rest => negb (existsb (same_value_zero k) rest) && distinct_keys rest
  end.

(** The values the codec carries through: [null], [undefined],
    booleans, numbers, strings, byte buffers, and arrays, objects and
    maps made of such values.  An object has each property once, and the
    keys of a map are still different once they are read back. *)
Fixpoint storable (v : value) : bool :=
  match v with
  | VUndefined | VNull | VBool _ | VNum _ | VStr _ | VBuffer _ => true
  | VArray items => forallb storable items
  | VObject props | VInstance _ props =>
      distinct_strings (map fst props)
      && forallb (fun kv => storable (snd kv)) props
  | VMap entries =>
      distinct_keys (map (fun kv => rebuilt (fst kv)) entries)
      && forallb (fun kv => storable (fst kv) && storable (snd kv)) entries
  | VBigInt _ | VFunction | VSymbol | VUint8Array _ => false
  end.

(** Neither [undefined], nor an instance of a class, nor an own
    property named [__proto__] anywhere inside. *)
Fixpoint plain (v : value) : bool :=
  match v with
  | VUndefined | VInstance _ _ => false
  | VArray items => forallb plain items
  | VObject props =>
      forallb (fun kv => negb (String.eqb (fst kv) proto) && plain (snd kv)) props
  | VMap entries => forallb (fun kv => plain (fst kv) && plain (snd kv)) entries
  | _ => true
  end.

(** No own property named [__proto__] anywhere inside. *)
Fixpoint without_proto (v : value) : bool :=
  match v with
  | VArray items => forallb without_proto items
  | VObject props | VInstance _ props =>
      forallb (fun kv => negb (String.eqb (fst kv) proto)
                         && without_proto (snd kv)) props
  | VMap entries =>
      forallb (fun kv => without_proto (fst kv) && without_proto (snd kv)) entries
  | _ => true
  end.

Fixpoint without_proto_json (j : json) : bool :=
  match j with
  | JArr items => forallb without_proto_json items
  | JObj props =>
      forallb (fun kv => negb (String.eqb (fst kv) proto)
                         && without_proto_json (snd kv)) props
  | _ => true
  end.

End WithRegistry.

End Json.

(** ** The DDL builder and the schema differ ([builder.ts]) *)

Module Builder.
Local Open Scope string_scope.
Section WithHost.

Context {host : Host}.
Variable serializableClasses : registry.

(** The [default: throw] of the two switches on a column type is not
    met by a value of the declared type [ColumnType]. *)
Definition getSqlType (ty : ColumnType) : string :=
  match ty with
  | boolean_t | integer_t => "INTEGER"
  | json_t | string_t => "TEXT"
  | blob_t => "BLOB"
  | number_t => "REAL"
  end.

Definition getDefaultValue (ty : ColumnType) (v : value) : result value :=
  match ty with
  | boolean_t => Ok (VNum (Int (if truthy v then 1 else 0)))
  | number_t | integer_t => Ok v
  | json_t =>
      j <- Json.jsonify serializableClasses v [] ;;
      Ok (VStr (squote ++ JSON_stringify j ++ squote))
  | string_t => Ok (VStr (squote ++ ToString v ++ squote))
  | blob_t => Ok v
  end.

Definition buildColumnQuery (column : TableColumn) : result string :=
  if autoIncrement column && negb (ColumnType_eqb (type column) integer_t) then
    Throw (Error "Auto increment cannot be used on non integer column.")
  else
    dflt <- (if is_nullish (defaultValue column) && negb (autoIncrement column)
             then Ok EmptyString
             else d <- getDefaultValue (type column) (defaultValue column) ;;
                  Ok ("DEFAULT " ++ ToString d)) ;;
    Ok (dquote ++ name column ++ dquote ++ " " ++ getSqlType (type column)
        ++ " " ++ (if nullable column then EmptyString else "NOT NULL")
        ++ " " ++ dflt
        ++ " " ++ (if isPrimaryKey column then "PRIMARY KEY" else EmptyString)
        ++ " " ++ (if autoIncrement column then "AUTOINCREMENT" else EmptyString)).

(** [str[str.length - 1] = str[str.length - 1].slice(0, -1)] *)
Fixpoint trim_last (str : list string) : list string :=
  match str with
  | [] => []
  | [s] => [slice_0_m1 s]
  | s :: rest => s :: trim_last rest
  end.

Definition buildTableQuery (model : Model) : result string :=
  clauses <- traverse (fun column => q <- buildColumnQuery column ;; Ok (q ++ ","))
                      (columns model) ;;
  let str := ("CREATE TABLE " ++ database model ++ "." ++ squote
              ++ tableName model ++ squote ++ " (") :: clauses in
  Ok (join newline (trim_last str ++ [")"])%list).

(** [columns.find((c) => c.isPrimaryKey)?.name] *)
Definition primaryKeyName (m : Model) : option string :=
  option_map name (find isPrimaryKey (columns m)).

(** The filter of [buildAlterQuery]: the column has no counterpart in
    the existing model. *)
Definition isMissing (existingModel : Model) (col : TableColumn) : bool :=
  match find (fun c => String.eqb (name c) (name col)
                       || str_eq_opt (name c) (mappedTo col))
             (columns existingModel) with
  | None => true
  | Some _ => false
  end.

Definition addColumn (actualModel : Model) (col : TableColumn) : result string :=
  q <- buildColumnQuery col ;;
  Ok ("ALTER TABLE " ++ database actualModel ++ "." ++ squote
      ++ tableName actualModel ++ squote ++ " ADD COLUMN " ++ q).

Definition buildAlterQuery (existingModel actualModel : Model)
  : result (list string) :=
  if negb (String.eqb (tableName existingModel) (tableName actualModel)) then
    Throw (Error ("[internal] table names are different ("
                  ++ tableName existingModel ++ " != "
                  ++ tableName actualModel ++ ")"))
  else if negb (opt_str_eqb (primaryKeyName existingModel)
                            (primaryKeyName actualModel)) then
    Throw (Error (tableName existingModel
      ++ ": Cannot add a column automatically, a primary key column already exists."))
  else
    traverse (addColumn actualModel)
             (filter (isMissing existingModel) (columns actualModel)).

Definition buildModelFromData (ogModel : Model) (data : list ColumnInfo) : Model :=
  let cols :=
    flat_map (fun datum =>
      match find (fun t => String.eqb (name t) (info_name datum)
                           || str_eq_opt (info_name datum) (mappedTo t))
                 (columns ogModel) with
      | None => []
      | Some ogCol =>
          [{| defaultValue := info_dflt_value datum;
              name := info_name datum;
              nullable := (info_notnull datum =? 0)%Z;
              type := type ogCol;
              isPrimaryKey := (info_pk datum =? 1)%Z;
              mappedTo := mappedTo ogCol;
              autoIncrement := autoIncrement ogCol |}]
      end) data in
  {| tableName := tableName ogModel; columns := cols; database := database ogModel |}.

(** *** Query descriptors ([index.ts]) *)

Record WhereClause : Type := {
  clause : string;
  values : option (list value)
}.

Record OrderClause : Type := {
  order_by : string;
  desc : option bool
}.

Record SelectQuery : Type := {
  q_where : option WhereClause;
  q_order : option OrderClause;
  q_limit : option number;
  q_offset : option number
}.

(** The declared type makes [select] and [group] required and the rest
    optional; [buildAggregateQuery] tests [group] like the optional
    ones, so it is kept optional here. *)
Record AggregateSelectQuery : Type := {
  a_select : string;
  a_where : option WhereClause;
  a_group : option (list string);
  a_having : option WhereClause;
  a_order : option OrderClause;
  a_limit : option number;
  a_offset : option number
}.

Record BuiltQuery : Type := {
  query : string;
  params : list value
}.

(** [where.values ?? []] *)
Definition values_or_empty (w : WhereClause) : list value :=
  match values w with
  | Some vs => vs
  | None => []
  end.

Definition whereFragment (w : option WhereClause) : list string :=
  match w with
  | Some x => ["WHERE " ++ clause x]
  | None => []
  end.

Definition orderFragment (o : option OrderClause) : list string :=
  match o with
  | Some x =>
      ["ORDER BY " ++ order_by x
       ++ (match desc x with Some true => " DESC" | _ => EmptyString end)]
  | None => []
  end.

(** [if (query.limit) str.push(`LIMIT ${query.limit}`)]: the test is
    the truthiness of a number that may be absent. *)
Definition limitFragment (n : option number) : list string :=
  match n with
  | Some x => if truthy (VNum x) then ["LIMIT " ++ ToString (VNum x)] else []
  | None => []
  end.

Definition offsetFragment (n : option number) : list string :=
  match n with
  | Some x => if truthy (VNum x) then ["OFFSET " ++ ToString (VNum x)] else []
  | None => []
  end.

Definition buildBaseFilterQuery (q : SelectQuery) : BuiltQuery :=
  let str := (whereFragment (q_where q) ++ orderFragment (q_order q)
              ++ limitFragment (q_limit q) ++ offsetFragment (q_offset q))%list in
  {| query := join " " str;
     params := match q_where q with
               | Some w => values_or_empty w
               | None => []
               end |}.

(** [${model.database}.'${model.tableName}'] *)
Definition qualified (model : Model) : string :=
  database model ++ "." ++ squote ++ tableName model ++ squote.

(** The same model, declared in another database. *)
Definition in_database (db : string) (m : Model) : Model :=
  {| tableName := tableName m; columns := columns m; database := db |}.

Definition buildSelectQuery (q : SelectQuery) (model : Model) : BuiltQuery :=
  let base := buildBaseFilterQuery q in
  {| query := "SELECT * FROM " ++ qualified model ++ " " ++ query base;
     params := params base |}.

Definition buildDeleteQuery (q : SelectQuery) (model : Model) : BuiltQuery :=
  let base := buildBaseFilterQuery q in
  {| query := "DELETE FROM " ++ qualified model ++ " " ++ query base;
     params := params base |}.

(** [model.columns.find((c) => c.name === col || c.mappedTo === col)] *)
Definition findColumn (model : Model) (col : string) : option TableColumn :=
  find (fun c => String.eqb (name c) col || str_eq_opt col (mappedTo c))
       (columns model).

(** Every entry of the record is resolved to a column that is not a
    primary key. *)
Definition others_only (m : Model) (data : list (string * value)) : Prop :=
  forall kv, In kv data ->
    exists c, findColumn m (fst kv) = Some c /\ isPrimaryKey c = false.

(** The loop of [buildInsertQuery]; reading [isPrimaryKey] of a column
    that was not found is a type error. *)
Fixpoint insertLoop (model : Model) (data : list (string * value))
    (cols : list string) (params : list value)
  : result (list string * list value) :=
  match data with
  | [] => Ok (cols, params)
  | (col, v) :: rest =>
      match findColumn model col with
      | None => Throw (TypeError "Cannot read properties of undefined (reading 'isPrimaryKey')")
      | Some modelCol =>
          if isPrimaryKey modelCol && autoIncrement modelCol
          then insertLoop model rest cols params
          else insertLoop model rest (cols ++ [col])%list (params ++ [v])%list
      end
  end.

Definition buildInsertQuery (model : Model) (data : list (string * value))
  : result BuiltQuery :=
  r <- insertLoop model data [] [] ;;
  let (cols, params) := r in
  Ok {| query := "INSERT INTO " ++ squote ++ tableName model ++ squote
                 ++ " (" ++ join ", " cols ++ ") VALUES ("
                 ++ join ", " (map (fun _ => "?") cols) ++ ")";
        params := params |}.

(** The variables of [buildUpdateQuery]'s loop. *)
Record updateState : Type := {
  u_params : list value;
  u_cols : list string;
  primaryCol : option string;
  primaryVal : value
}.

Fixpoint updateLoop (model : Model) (data : list (string * value))
    (st : updateState) : result updateState :=
  match data with
  | [] => Ok st
  | (col, v) :: rest =>
      match findColumn model col with
      | None => Throw (TypeError "Cannot read properties of undefined (reading 'isPrimaryKey')")
      | Some modelCol =>
          if isPrimaryKey modelCol
          then updateLoop model rest
                 {| u_params := u_params st; u_cols := u_cols st;
                    primaryCol := Some (physical modelCol); primaryVal := v |}
          else updateLoop model rest
                 {| u_params := (u_params st ++ [v])%list;
                    u_cols := (u_cols st ++ [col])%list;
                    primaryCol := primaryCol st; primaryVal := primaryVal st |}
      end
  end.

Definition buildUpdateQuery (model : Model) (data : list (string * value))
  : result BuiltQuery :=
  st <- updateLoop model data
          {| u_params := []; u_cols := []; primaryCol := None;
             primaryVal := VUndefined |} ;;
  Ok {| query := "UPDATE " ++ squote ++ tableName model ++ squote ++ " SET "
                 ++ join ", " (map (fun c => c ++ " = ?") (u_cols st))
                 ++ " WHERE "
                 ++ (match primaryCol st with
                     | Some c => c
                     | None => "undefined"
                     end) ++ " = ?";
        params := (u_params st ++ [primaryVal st])%list |}.

Definition buildCountWhereQuery (q : WhereClause) (model : Model) : BuiltQuery :=
  {| query := "SELECT COUNT(*) FROM " ++ qualified model ++ " WHERE " ++ clause q;
     params := values_or_empty q |}.

Definition groupFragment (g : option (list string)) : list string :=
  match g with
  | Some cols => ["GROUP BY " ++ join ", " cols]
  | None => []
  end.

Definition havingFragment (h : option WhereClause) : list string :=
  match h with
  | Some x => ["HAVING " ++ clause x]
  | None => []
  end.

Definition buildAggregateQuery (q : AggregateSelectQuery) (model : Model)
  : BuiltQuery :=
  let head := "SELECT " ++ a_select q ++ " FROM " ++ qualified model in
  let str := ([head]
              ++ whereFragment (a_where q)
              ++ groupFragment (a_group q)
              ++ havingFragment (a_having q)
              ++ orderFragment (a_order q)
              ++ limitFragment (a_limit q)
              ++ offsetFragment (a_offset q))%list in
  {| query := join " " str;
     params := ((match a_where q with
                 | Some w => values_or_empty w
                 | None => []
                 end)
                ++ (match a_having q with
                    | Some h => values_or_empty h
                    | None => []
                    end))%list |}.

Definition isProvidedTypeValid (provType : value) (col : TableColumn) : bool :=
  if nullable col && is_nullish provType then true
  else if (match provType with
           | VNum n => negb (Number_isFinite n)
           | _ => false
           end) then false
  else
    match type col with
    | string_t => js_type_eqb (typeof provType) TyString
    | boolean_t =>
        js_type_eqb (typeof provType) TyBoolean
        || (match provType with
            | VNum n => number_eqb n (Int 0) || number_eqb n (Int 1)
            | _ => false
            end)
    | integer_t =>
        (match provType with
         | VNum n => Number_isSafeInteger n
         | _ => false
         end)
    | number_t => js_type_eqb (typeof provType) TyNumber
    | json_t => js_type_eqb (typeof provType) TyObject || is_Array provType
    | blob_t => is_Uint8Array provType
    end.

End WithHost.
End Builder.

(** ** The model snapshot ([model-reader.ts]) *)

Module ModelReader.
Local Open Scope string_scope.

(** What [JSON.parse(fs.readFileSync(path).toString('utf-8'))] meets:
    no file (reading throws), a text that is not JSON (parsing throws),
    or a text that parses. *)
Inductive snapshot_file : Type :=
| Absent
| Unparseable (text : string)
| Parsed (data : json).

Section WithHost.
Context {host : Host}.

(** A parsed value that is not an object, as a value. *)
Definition primitive_of (data : json) : value :=
  match data with
  | JBool b => VBool b
  | JNum n => VNum n
  | JStr s => VStr s
  | _ => VNull
  end.

(** ['version' in data]; the operator throws on a value that is not an
    object, with a message that ends with the value. *)
Definition has_version (data : json) : result bool :=
  match data with
  | JObj props => Ok (match get "version" props with Some _ => true | None => false end)
  | JArr _ => Ok false
  | _ => Throw (TypeError ("Cannot use 'in' operator to search for 'version' in "
                           ++ ToString (primitive_of data)))
  end.

Definition readVersion0 (data : json) : json :=
  JObj [("version", JNum (Int 1)); ("models", data)].

(** [data.version === 1] on a value known to be an object. *)
Definition version_is_1 (data : json) : bool :=
  match data with
  | JObj props =>
      match get "version" props with
      | Some (JNum (Int 1)) => true
      | _ => false
      end
  | _ => false
  end.

(** [data.models], [None] for [undefined]. *)
Definition models_of (data : json) : option json :=
  match data with
  | JObj props => get "models" props
  | _ => None
  end.

Definition read (fs : string -> snapshot_file) (dbPath : string)
  : result (option json) :=
  match fs (dbPath ++ ".model.json") with
  | Absent | Unparseable _ => Ok (Some (JObj []))
  | Parsed data =>
      versioned <- has_version data ;;
      let data := if versioned then data else readVersion0 data in
      versioned' <- has_version data ;;
      if versioned' && version_is_1 data then Ok (models_of data)
      else Throw (Error ("unknown version for models " ++ dbPath ++ ".model.json"))
  end.

End WithHost.
End ModelReader.

(** ** The storage boundary and the table set-up of [SqliteOrm] *)

Module SqliteOrm.
Local Open Scope string_scope.
Section WithHost.

Context {host : Host}.
Variable serializableClasses : registry.
(** [JSON.parse], [None] where it throws. *)
Variable JSON_parse : string -> option json.
(** [opts.jsonCompatMode], which may be unset. *)
Variable jsonCompatMode : option bool.

Definition is_number (v : value) : bool := js_type_eqb (typeof v) TyNumber.

(** [Number.isInteger(data)] on any value. *)
Definition isInteger (v : value) : bool :=
  match v with
  | VNum n => Number_isInteger n
  | _ => false
  end.

Definition serialize (data : value) (ty : ColumnType) : result value :=
  if is_nullish data then Ok VNull
  else
    match ty with
    | boolean_t =>
        match data with
        | VBool b => Ok (VNum (Int (if b then 1 else 0)))
        | _ => Throw (DBInvalidData "Cannot store a non boolean type on a boolean column")
        end
    | string_t =>
        if negb (js_type_eqb (typeof data) TyString)
        then Throw (DBInvalidData "Cannot store a non string type on a string column")
        else Ok data
    | number_t =>
        if negb (is_number data)
        then Throw (DBInvalidData "Cannot store a non number type on a number column")
        else Ok data
    | integer_t =>
        if negb (is_number data) || negb (isInteger data)
        then Throw (DBInvalidData "Cannot store a non integer type on an integer column")
        else Ok data
    | blob_t =>
        if negb (is_Uint8Array data)
        then Throw (DBInvalidData "Cannot store a blob/u8int[] type on a blob column")
        else Ok data
    | json_t =>
        if negb (js_type_eqb (typeof data) TyObject)
        then Throw (DBInvalidData "Cannot convert non object type into JSON")
        else j <- Json.jsonify serializableClasses data [] ;;
             Ok (VStr (JSON_stringify j))
    end.

Definition deserialize (data : value) (ty : ColumnType) : result value :=
  if is_nullish data then Ok VNull
  else
    match ty with
    | boolean_t =>
        if negb (is_number data) && negb (isInteger data)
        then Throw (DBInvalidData ("Column contains " ++ ToString data
                                   ++ " instead of a boolean"))
        else Ok (VBool (match data with
                        | VNum n => number_eqb n (Int 1)
                        | _ => false
                        end))
    | string_t =>
        if negb (js_type_eqb (typeof data) TyString)
        then Throw (DBInvalidData ("Column contains " ++ ToString data
                                   ++ " instead of a string"))
        else Ok data
    | number_t =>
        if negb (is_number data)
        then Throw (DBInvalidData ("Column contains " ++ ToString data
                                   ++ " instead of a number"))
        else Ok data
    | integer_t =>
        if negb (is_number data) && negb (isInteger data)
        then Throw (DBInvalidData ("Column contains " ++ ToString data
                                   ++ " instead of an integer"))
        else Ok data
    | blob_t =>
        if negb (is_Uint8Array data)
        then Throw (DBInvalidData ("Column contains " ++ typeof_name (typeof data)
                                   ++ " instead of a blob"))
        else Ok data
    | json_t =>
        match data with
        | VStr text =>
            (* try { parse; dejsonify } catch: either failure is rethrown
               as invalid data *)
            match JSON_parse text with
            | None => Throw (DBInvalidData "Column contains invalid JSON data")
            | Some parsed =>
                match Json.dejsonify serializableClasses
                        (match jsonCompatMode with Some b => b | None => false end)
                        parsed with
                | Ok v => Ok v
                | Throw _ => Throw (DBInvalidData "Column contains invalid JSON data")
                end
            end
        | _ => Throw (DBInvalidData ("Column contains " ++ typeof_name (typeof data)
                                     ++ " instead of a JSON string"))
        end
    end.

(** [obj[key]] of a table object, [undefined] when absent. *)
Definition property (obj : list (string * value)) (key : string) : value :=
  match get key obj with
  | Some v => v
  | None => VUndefined
  end.

(** The loop of [save] that fills [builtData], one entry per column of
    the model, under the physical name of the column. *)
Fixpoint builtDataLoop (cols : list TableColumn) (obj : list (string * value))
    (builtData : list (string * value)) : result (list (string * value)) :=
  match cols with
  | [] => Ok builtData
  | col :: rest =>
      v <- serialize (property obj (name col)) (type col) ;;
      builtDataLoop rest obj (obj_set builtData (physical col) v)
  end.

Definition builtData (model : Model) (obj : list (string * value))
  : result (list (string * value)) :=
  builtDataLoop (columns model) obj [].

(** The part of the driver's state that setting up a table changes: the
    flag [hasModelChanges], and the live database, kept as the
    statements [db.exec] has run, in order. *)
Record orm : Type := {
  hasModelChanges : bool;
  executed : list string
}.

Definition exec (sql : string) (st : orm) : orm :=
  {| hasModelChanges := hasModelChanges st;
     executed := (executed st ++ [sql])%list |}.

Definition markChanged (st : orm) : orm :=
  {| hasModelChanges := true; executed := executed st |}.

(** The table set-up inside [model(...)]: [info] is what
    [PRAGMA table_info] returned.  An empty answer creates the table,
    otherwise each missing column is added.  The statements are all
    built before the first one runs. *)
Definition setUpTable (builtModel : Model) (info : list ColumnInfo) (st : orm)
  : result unit * orm :=
  if (length info =? 0)%nat then
    let st := markChanged st in
    match Builder.buildTableQuery serializableClasses builtModel with
    | Ok q => (Ok tt, exec q st)
    | Throw e => (Throw e, st)
    end
  else
    match Builder.buildAlterQuery serializableClasses
            (Builder.buildModelFromData builtModel info) builtModel with
    | Ok qs => (Ok tt, fold_left (fun st c => exec c (markChanged st)) qs st)
    | Throw e => (Throw e, st)
    end.

End WithHost.
End SqliteOrm.

(** ** A host to run examples on

    Integral numbers are printed in decimal and a number with a
    fractional part by its exact decimal expansion; strings are quoted
    in JSON with the quote and the backslash escaped. *)

Module Example.
Local Open Scope string_scope.

Definition decimal (z : Z) : string :=
  DecimalString.NilZero.string_of_int (Z.to_int z).

Fixpoint zero_pad (width : nat) (s : string) : string :=
  match width - String.length s with
  | O => s
  | S _ => match width with
           | O => s
           | S w => "0" ++ zero_pad w s
           end
  end.

Definition show_number (n : number) : string :=
  match n with
  | NaN => "NaN"
  | Infinity false => "Infinity"
  | Infinity true => "-Infinity"
  | Int z => decimal z
  | Dyadic m e =>
      let odd := (2 * m + 1)%Z in
      let scaled := (Z.abs odd * 5 ^ Z.pos e)%Z in
      let unit := (10 ^ Z.pos e)%Z in
      (if (odd <? 0)%Z then "-" else EmptyString)
      ++ decimal (scaled / unit) ++ "."
      ++ zero_pad (Pos.to_nat e) (decimal (scaled mod unit))
  end.

Fixpoint show (v : value) : string :=
  match v with
  | VUndefined => "undefined"
  | VNull => "null"
  | VBool true => "true"
  | VBool false => "false"
  | VNum n => show_number n
  | VStr s => s
  | VBigInt z => decimal z
  | VFunction => "function () { }"
  | VSymbol => "Symbol()"
  | VArray items =>
      join "," (map (fun x => if is_nullish x then EmptyString else show x) items)
  | VObject _ | VInstance _ _ => "[object Object]"
  | VMap _ => "[object Map]"
  | VBuffer bytes => string_of_list_ascii bytes
  | VUint8Array bytes =>
      join "," (map (fun b => decimal (Z.of_nat (nat_of_ascii b))) bytes)
  end.

Fixpoint escape (s : string) : string :=
  match s with
  | EmptyString => EmptyString
  | String c rest =>
      if Ascii.eqb c (ascii_of_nat 34) || Ascii.eqb c (ascii_of_nat 92)
      then String (ascii_of_nat 92) (String c (escape rest))
      else String c (escape rest)
  end.

Definition quoted (s : string) : string := dquote ++ escape s ++ dquote.

Fixpoint stringify (j : json) : string :=
  match j with
  | JNull => "null"
  | JBool true => "true"
  | JBool false => "false"
  | JNum n => if Number_isFinite n then show_number n else "null"
  | JStr s => quoted s
  | JArr items => "[" ++ join "," (map stringify items) ++ "]"
  | JObj props =>
      "{" ++ join "," (map (fun kv => quoted (fst kv) ++ ":" ++ stringify (snd kv)) props)
      ++ "}"
  end.

(** The bytes of an array of small numbers; other arrays and objects
    are not needed in the examples. *)
Definition buffer_from (data : json) : result value :=
  match data with
  | JArr items =>
      Ok (VBuffer (map (fun j => match j with
                                 | JNum (Int z) => ascii_of_nat (Z.to_nat (z mod 256))
                                 | _ => ascii_of_nat 0
                                 end) items))
  | _ => Throw (TypeError "The first argument must be of type string or an instance of Buffer, ArrayBuffer, or Array or an Array-like Object.")
  end.

Definition received (data : option json) : string :=
  "The first argument must be of type string or an instance of Buffer, ArrayBuffer, or Array or an Array-like Object. Received "
  ++ match data with
     | None => "undefined"
     | Some JNull => "null"
     | Some (JBool b) => "type boolean (" ++ show (VBool b) ++ ")"
     | Some (JNum n) => "type number (" ++ show_number n ++ ")"
     | Some (JStr s) => "type string (" ++ s ++ ")"
     | Some _ => "an instance of Object"
     end.

#[export] Instance host : Host := {|
  ToString := show;
  JSON_stringify := stringify;
  Buffer_from_object := buffer_from;
  invalid_argument := received
|}.

End Example.

(** ** Differences between two objects ([util.ts]) *)

Module Util.
Local Open Scope string_scope.

(** One entry of the record of differences: [{ old, new }]. *)
Record change : Type := {
  old : value;
  new : value
}.

Section WithHost.
Context {host : Host}.
(** [JSON.stringify] on any value, [None] where it gives [undefined]. *)
Variable stringify : value -> option string.
(** What [Object.prototype] holds under a name, which the objects
    compared inherit: a function under [constructor] or [toString],
    [undefined] under a name it lacks. *)
Variable inherited : string -> value.

(** [Object.hasOwn(obj, k)] *)
Definition hasOwn (obj : list (string * value)) (k : string) : bool :=
  match get k obj with
  | Some _ => true
  | None => false
  end.

(** [obj[k]]: the own property, or else the inherited one. *)
Definition at_key (obj : list (string * value)) (k : string) : value :=
  match get k obj with
  | Some v => v
  | None => inherited k
  end.

(** The first loop of [getObjDifferences], over the entries of the old
    object. *)
Fixpoint removedOrChanged (entries : list (string * value))
    (oldObj newObj : list (string * value)) (diff : list (string * change))
  : list (string * change) :=
  match entries with
  | [] => diff
  | (k, v) :: rest =>
      let diff :=
        if negb (hasOwn newObj k)
        then set_property diff k {| old := v; new := VUndefined |}
        else diff in
      let diff :=
        if negb (opt_str_eqb (stringify (at_key oldObj k))
                             (stringify (at_key newObj k)))
        then set_property diff k {| old := v; new := at_key newObj k |}
        else diff in
      removedOrChanged rest oldObj newObj diff
  end.

(** The second loop, over the keys of the new object that the old one
    does not have. *)
Fixpoint added (keys : list string) (newObj : list (string * value))
    (diff : list (string * change)) : list (string * change) :=
  match keys with
  | [] => diff
  | k :: rest =>
      added rest newObj
        (set_property diff k {| old := VUndefined; new := at_key newObj k |})
  end.

Definition getObjDifferences (oldObj newObj : list (string * value))
  : list (string * change) :=
  let diff := removedOrChanged oldObj oldObj newObj [] in
  added (filter (fun k => negb (existsb (String.eqb k) (map fst oldObj)))
                (map fst newObj))
        newObj diff.

Definition is_undefined (v : value) : bool :=
  match v with
  | VUndefined => true
  | _ => false
  end.

Definition describe (entry : string * change) : string :=
  let (k, v) := entry in
  if is_undefined (old v) then "added: " ++ k
  else if is_undefined (new v) then "removed: " ++ k
  else k ++ ": " ++ ToString (old v) ++ " => " ++ ToString (new v).

Definition prettyPrintDiff (oldObj newObj : list (string * value)) : string :=
  join ", " (map describe (getObjDifferences oldObj newObj)).

End WithHost.
End Util.

(** ** The table operations of [SqliteOrm] ([index.ts], [errors.ts]) *)

Module Tables.
Import Builder.
Local Open Scope string_scope.

(** What a table operation throws: the classes of [errors.ts] that are
    particular to it, or an exception of the builders and of the storage
    boundary. *)
Inductive failure : Type :=
| DBError (msg : string)
| DBNotFound (msg : string)
| DBModelNotFound (model : string)
| DBInvalidTable (msg : string)
| Thrown (e : exn).

Inductive attempt (A : Type) : Type :=
| Done (a : A)
| Failed (f : failure).
Arguments Done {A} a.
Arguments Failed {A} f.

Definition attempted {A} (r : result A) : attempt A :=
  match r with
  | Ok a => Done a
  | Throw e => Failed (Thrown e)
  end.

Definition and_then {A B} (r : attempt A) (k : A -> attempt B) : attempt B :=
  match r with
  | Done a => k a
  | Failed f => Failed f
  end.

(** A class of table objects: its [name] and the own properties of
    [new table()], among them [_new] and [id] of [SqlTable]. *)
Record TableClass : Type := {
  table_name : string;
  blank : list (string * value)
}.

(** An object handed to [save]: the name of its constructor and its own
    properties. *)
Record TableObject : Type := {
  constructor_name : string;
  fields : list (string * value)
}.

(** [number | string | boolean] *)
Inductive PrimitiveTypes : Type :=
| PNumber (n : number)
| PString (s : string)
| PBoolean (b : bool).

Definition primitive (p : PrimitiveTypes) : value :=
  match p with
  | PNumber n => VNum n
  | PString s => VStr s
  | PBoolean b => VBool b
  end.

(** The argument of [findOne]: [typeof idOrQuery === 'object'] tells the
    query from the key. *)
Inductive IdOrQuery : Type :=
| ById (id : PrimitiveTypes)
| ByQuery (q : SelectQuery).

(** What the operations change in the driver: the statements the
    engine has run without an exception, with their parameters, in
    order, the flag [hasChangesSinceBackup] and the names in
    [attachedDatabases]. *)
Record store : Type := {
  ran : list (string * list value);
  hasChangesSinceBackup : bool;
  attachedDatabases : list string
}.

Section WithHost.
Context {host : Host}.
Variable serializableClasses : registry.
Variable JSON_parse : string -> option json.
Variable jsonCompatMode : option bool.

(** The engine: what [prepare(sql).get(...params)] and
    [prepare(sql).all(...params)] answer, [None] for no row, and the
    [lastInsertRowid] that [prepare(sql).run(...params)] reports; each
    may throw instead. *)
Variable db_get : string -> list value -> result (option (list (string * value))).
Variable db_all : string -> list value -> result (list (list (string * value))).
Variable db_run : string -> list value -> result value.

(** [this.models] *)
Variable models : list (string * Model).

(** The loop that fills a fresh object from a row: each column is read
    under its physical name and stored under its logical name. *)
Fixpoint parseColumns (cols : list TableColumn) (found parsed : list (string * value))
  : result (list (string * value)) :=
  match cols with
  | [] => Ok parsed
  | col :: rest =>
      (v <- SqliteOrm.deserialize serializableClasses JSON_parse jsonCompatMode
              (SqliteOrm.property found (physical col)) (type col) ;;
       parseColumns rest found (obj_set parsed (name col) v))%result
  end.

Definition parseRow (model : Model) (table : TableClass)
    (found : list (string * value)) : result (list (string * value)) :=
  (parsed <- parseColumns (columns model) found (blank table) ;;
   Ok (obj_set parsed "_new" (VBool false)))%result.

(** [{ ...idOrQuery, limit: 1 }] *)
Definition with_limit_1 (q : SelectQuery) : SelectQuery :=
  {| q_where := q_where q; q_order := q_order q;
     q_limit := Some (Int 1); q_offset := q_offset q |}.

Definition findOne (table : TableClass) (idOrQuery : IdOrQuery)
  : attempt (list (string * value)) :=
  match get (table_name table) models with
  | None => Failed (DBModelNotFound (table_name table))
  | Some model =>
      match find isPrimaryKey (columns model) with
      | None => Failed (DBInvalidTable (tableName model ++ " does not have primary key"))
      | Some col =>
          match idOrQuery with
          | ByQuery q =>
              let built := buildSelectQuery (with_limit_1 q) model in
              and_then (attempted (db_get (query built) (params built)))
                (fun found =>
                   match found with
                   | None => Failed (DBNotFound ("query did not match any items in "
                                                 ++ table_name table))
                   | Some found => attempted (parseRow model table found)
                   end)
          | ById id =>
              if negb (isProvidedTypeValid (primitive id) col) then
                Failed (Thrown (DBInvalidData (tableName model ++ "." ++ name col
                                               ++ " has a different type")))
              else
                and_then
                  (attempted (SqliteOrm.serialize serializableClasses
                                (primitive id) (type col)))
                  (fun key =>
                     let built :=
                       buildSelectQuery
                         {| q_where := Some {| clause := physical col ++ " = ?";
                                               values := Some [key] |};
                            q_order := None; q_limit := Some (Int 1);
                            q_offset := None |} model in
                     and_then (attempted (db_get (query built) (params built)))
                       (fun found =>
                          match found with
                          | None =>
                              Failed (DBNotFound ("row with " ++ name col ++ " = "
                                                  ++ ToString (primitive id)
                                                  ++ " was not found in table "
                                                  ++ table_name table))
                          | Some found => attempted (parseRow model table found)
                          end))
          end
      end
  end.

(** [try { return findOne(...) } catch (e) { if (e instanceof DBNotFound)
    return new table(); throw e }] *)
Definition findOneOptional (table : TableClass) (idOrQuery : IdOrQuery)
  : attempt (list (string * value)) :=
  match findOne table idOrQuery with
  | Failed (DBNotFound _) => Done (blank table)
  | other => other
  end.

Fixpoint parseAll (model : Model) (table : TableClass)
    (data : list (list (string * value))) : result (list (list (string * value))) :=
  match data with
  | [] => Ok []
  | datum :: rest =>
      (parsed <- parseRow model table datum ;;
       others <- parseAll model table rest ;;
       Ok (parsed :: others))%result
  end.

Definition findMany (table : TableClass) (q : SelectQuery)
  : attempt (list (list (string * value))) :=
  match get (table_name table) models with
  | None => Failed (DBModelNotFound (table_name table))
  | Some model =>
      let built := buildSelectQuery q model in
      and_then (attempted (db_all (query built) (params built)))
        (fun data => attempted (parseAll model table data))
  end.



Definition run (sql : string) (ps : list value) (st : store) : store :=
  {| ran := (ran st ++ [(sql, ps)])%list;
     hasChangesSinceBackup := hasChangesSinceBackup st;
     attachedDatabases := attachedDatabases st |}.

Definition changed (st : store) : store :=
  {| ran := ran st; hasChangesSinceBackup := true;
     attachedDatabases := attachedDatabases st |}.

(** [save]: the object comes back with the store.  A new object is
    inserted, takes the row id under the name of an auto-increment
    primary key, and stops being new; another one is updated. *)
Definition save (obj : TableObject) (st : store) : attempt TableObject * store :=
  match get (constructor_name obj) models with
  | None => (Failed (DBModelNotFound (constructor_name obj)), st)
  | Some model =>
      match SqliteOrm.builtData serializableClasses model (fields obj) with
      | Throw e => (Failed (Thrown e), st)
      | Ok builtData =>
          if truthy (SqliteOrm.property (fields obj) "_new") then
            match buildInsertQuery model builtData with
            | Throw e => (Failed (Thrown e), st)
            | Ok built =>
                match db_run (query built) (params built) with
                | Throw e => (Failed (Thrown e), st)
                | Ok rowid =>
                    let st := run (query built) (params built) st in
                    let fields1 :=
                      match find (fun c => isPrimaryKey c && autoIncrement c)
                                 (columns model) with
                      | Some incrementPrimaryKey =>
                          obj_set (fields obj) (name incrementPrimaryKey) rowid
                      | None => fields obj
                      end in
                    (Done {| constructor_name := constructor_name obj;
                             fields := obj_set fields1 "_new" (VBool false) |},
                     changed st)
                end
            end
          else
            match buildUpdateQuery model builtData with
            | Throw e => (Failed (Thrown e), st)
            | Ok built =>
                match db_run (query built) (params built) with
                | Throw e => (Failed (Thrown e), st)
                | Ok _ => (Done obj, changed (run (query built) (params built) st))
                end
            end
      end
  end.


(** [basename] of the path module. *)
Variable basename : string -> string.

Definition attach (databasePath : string) (name : option string) (st : store)
  : attempt unit * store :=
  let name := match name with Some n => n | None => basename databasePath end in
  if existsb (String.eqb name) (attachedDatabases st) then
    (Failed (DBError (databasePath ++ " is already attached")), st)
  else
    match db_run "ATTACH DATABASE ? AS ?" [VStr databasePath; VStr name] with
    | Throw e => (Failed (Thrown e), st)
    | Ok _ =>
        let st := run "ATTACH DATABASE ? AS ?" [VStr databasePath; VStr name] st in
        (Done tt,
         {| ran := ran st; hasChangesSinceBackup := hasChangesSinceBackup st;
            attachedDatabases := (attachedDatabases st ++ [name])%list |})
    end.

End WithHost.
End Tables.

(** ** Data written before the tagging scheme *)

Module Legacy.
Local Open Scope string_scope.

(** The value a JSON tree stands for when no tag is looked at. *)
Fixpoint plain_value (j : json) : value :=
  match j with
  | JNull => VNull
  | JBool b => VBool b
  | JNum n => VNum n
  | JStr s => VStr s
  | JArr items => VArray (map plain_value items)
  | JObj props => VObject (map (fun kv => (fst kv, plain_value (snd kv))) props)
  end.

(** No object of the tree has a [type], other than [null], or a
    property named [__proto__], and every object has each property
    once. *)
Fixpoint untagged (j : json) : bool :=
  match j with
  | JArr items => forallb untagged items
  | JObj props =>
      match get "type" props with
      | None | Some JNull => true
      | Some _ => false
      end
      && negb (existsb (String.eqb proto) (map fst props))
      && Json.distinct_strings (map fst props)
      && forallb (fun kv => untagged (snd kv)) props
  | _ => true
  end.

End Legacy.

(** ** Data for the examples *)

Module Sample.
Local Open Scope string_scope.

Definition column (ty : ColumnType) (nm : string) (mapped : option string)
    (key auto : bool) : TableColumn :=
  {| type := ty; name := nm; mappedTo := mapped; nullable := false;
     defaultValue := VNull; isPrimaryKey := key; autoIncrement := auto |}.

Definition id_column : TableColumn := column integer_t "id" None true true.
Definition name_column : TableColumn := column string_t "name" None false false.
Definition email_column : TableColumn := column string_t "email" None true false.
Definition meta_column : TableColumn :=
  {| type := json_t; name := "meta"; mappedTo := Some "meta_json";
     nullable := false; defaultValue := VObject [("a", VNum (Int 1))];
     isPrimaryKey := false; autoIncrement := false |}.

(** The table as it is declared, with a column the live table lacks. *)
Definition users : Model :=
  {| tableName := "users"; columns := [id_column; meta_column]; database := "main" |}.

(** What [PRAGMA table_info] lists for the live table. *)
Definition id_info : ColumnInfo :=
  {| info_name := "id"; info_type := "INTEGER"; info_notnull := 1;
     info_dflt_value := VNull; info_pk := 1 |}.

(** Two models of one table that disagree on the primary key. *)
Definition users_by_id : Model :=
  {| tableName := "users"; columns := [id_column]; database := "main" |}.

Definition users_by_email : Model :=
  {| tableName := "users";
     columns := [column integer_t "id" None false false; email_column];
     database := "main" |}.




(** A table whose primary key has another name in the database. *)
Definition accounts : Model :=
  {| tableName := "accounts";
     columns := [column integer_t "id" (Some "uid") true false; name_column];
     database := "main" |}.

Definition uid_info : ColumnInfo :=
  {| info_name := "uid"; info_type := "INTEGER"; info_notnull := 1;
     info_dflt_value := VNull; info_pk := 1 |}.

(** A table whose key is generated and kept in the column [uid], with a
    json column kept in [meta_json]. *)
Definition key_column : TableColumn :=
  column integer_t "id" (Some "uid") true true.

Definition members : Model :=
  {| tableName := "members"; columns := [key_column; meta_column];
     database := "main" |}.

(** The same key with a column that is kept under the key's logical
    name. *)
Definition legacy_column : TableColumn :=
  column integer_t "legacyId" (Some "id") false false.

Definition legacy_members : Model :=
  {| tableName := "members"; columns := [key_column; legacy_column];
     database := "main" |}.

(** The values of a row: 1 for the key and 5 for every other column. *)
Definition row_values (c : TableColumn) : value :=
  if isPrimaryKey c then VNum (Int 1) else VNum (Int 5).

(** The same table in an attached database. *)
Definition archived_users : Model :=
  {| tableName := "users"; columns := [id_column; meta_column]; database := "archive" |}.

(** A class registered with one ignored property, which its constructor
    sets. *)
Definition Session : jsclass :=
  {| class_id := 1; class_name := "Session"; class_supers := [];
     class_fields := [("user", VStr EmptyString); ("token", VStr "none")] |}.

Definition classes : registry := registerJsonSerializable ["token"] Session [].

Definition session : value :=
  VInstance [1] [("user", VStr "ada"); ("token", VStr "s3cr3t")].

Definition document : value :=
  VObject [("plain", VObject [("a", VNum (Int 1)); ("type", VStr "x")]);
           ("mixed", VArray [VNum (Int 1); VStr "two"; VBool true; VNull]);
           ("map", VMap [(VNum (Int 1), VStr "one"); (VBool true, VNull)]);
           ("bytes", VBuffer [ascii_of_nat 0; ascii_of_nat 255; ascii_of_nat 16]);
           ("session", session)].

(** A count per name, limited to no row at all. *)
Definition count_none : Builder.AggregateSelectQuery :=
  {| Builder.a_select := "COUNT(*)"; Builder.a_where := None;
     Builder.a_group := Some ["name"]; Builder.a_having := None;
     Builder.a_order := None; Builder.a_limit := Some (Int 0);
     Builder.a_offset := None |}.

(** The JSON text of a few values, [None] where [JSON.stringify] gives
    [undefined], and what [Object.prototype] holds under a few names. *)
Definition json_text (v : value) : option string :=
  match v with
  | VUndefined | VFunction | VSymbol => None
  | VNull => Some "null"
  | VBool b => Some (Example.show (VBool b))
  | VNum n => Some (Example.show_number n)
  | VStr s => Some (Example.quoted s)
  | _ => Some "{}"
  end.

Definition object_prototype (k : string) : value :=
  if String.eqb k "constructor" || String.eqb k "toString"
     || String.eqb k "hasOwnProperty" || String.eqb k "valueOf"
  then VFunction else VUndefined.

(** A registered class of table objects with its fresh object, a class
    that is not registered, and a driver that has run nothing. *)
Definition User : Tables.TableClass :=
  {| Tables.table_name := "User";
     Tables.blank := [("_new", VBool true); ("id", VNum (Int 0));
                      ("meta", VObject [])] |}.


Definition registered : list (string * Model) := [("User", users)].

Definition new_user : Tables.TableObject :=
  {| Tables.constructor_name := "User"; Tables.fields := Tables.blank User |}.


Definition fresh_store : Tables.store :=
  {| Tables.ran := []; Tables.hasChangesSinceBackup := false;
     Tables.attachedDatabases := [] |}.

(** An engine without rows and one that holds one row of [users];
    one that reports 8 as the last row id. *)
Definition no_row (sql : string) (ps : list value)
  : result (option (list (string * value))) := Ok None.

Definition one_row (sql : string) (ps : list value)
  : result (option (list (string * value))) :=
  Ok (Some [("id", VNum (Int 7)); ("meta_json", VNull)]).


Definition two_rows (sql : string) (ps : list value)
  : result (list (list (string * value))) :=
  Ok [[("id", VNum (Int 7)); ("meta_json", VNull)];
      [("id", VNum (Int 9)); ("meta_json", VNull)]].

Definition row_8 (sql : string) (ps : list value) : result value :=
  Ok (VNum (Int 8)).

End Sample.

(** ** Writing the model snapshot ([model-reader.ts]) *)

Module ModelWriter.
Import ModelReader.
Local Open Scope string_scope.

(** The files of the disk: the text at a path, [None] where there is no
    file. *)
Definition files : Type := string -> option string.

Definition writeFileSync (path text : string) (disk : files) : files :=
  fun p => if String.eqb p path then Some text else disk p.

Section WithHost.
(** [JSON.stringify(value, null, 2)] on a JSON-safe tree, and
    [JSON.parse], [None] where it throws. *)
Variable stringify_indented : json -> string.
Variable JSON_parse : string -> option json.

(** What [JSON.parse(fs.readFileSync(path).toString('utf-8'))] meets on
    a disk. *)
Definition opened (disk : files) (path : string) : snapshot_file :=
  match disk path with
  | None => Absent
  | Some text =>
      match JSON_parse text with
      | Some data => Parsed data
      | None => Unparseable text
      end
  end.

(** [models] is the record of models as [JSON.stringify] sees it. *)
Definition write (models : json) (dbPath : string) (disk : files) : files :=
  writeFileSync (dbPath ++ ".model.json")
    (stringify_indented (JObj [("version", JNum (Int 1)); ("models", models)]))
    disk.

End WithHost.
End ModelWriter.

(** * Properties *)

(** ** Fallible results, options and lists *)

Lemma opt_str_eqb_eq (a b : option string) : opt_str_eqb a b = true <-> a = b.
Proof.
  destruct a as [x|], b as [y|]; simpl; split; intro H;
    try discriminate; try reflexivity.
  - apply String.eqb_eq in H. now subst.
  - injection H as ->. apply String.eqb_refl.
Qed.

Lemma opt_str_eqb_neq (a b : option string) : opt_str_eqb a b = false <-> a <> b.
Proof.
  split.
  - intros H E. apply opt_str_eqb_eq in E. congruence.
  - intro H. destruct (opt_str_eqb a b) eqn:E; [|reflexivity].
    apply opt_str_eqb_eq in E. contradiction.
Qed.

Lemma str_eq_opt_true (a : string) (b : option string) :
  str_eq_opt a b = true <-> b = Some a.
Proof.
  destruct b as [s|]; simpl; split; intro H; try discriminate.
  - apply String.eqb_eq in H. now subst.
  - injection H as ->. apply String.eqb_refl.
Qed.

Lemma append_assoc (a b c : string) : ((a ++ b) ++ c = a ++ (b ++ c))%string.
Proof. induction a as [|x a IH]; simpl; [reflexivity | now rewrite IH]. Qed.

(** ** Base64 *)

Module Base64Facts.
Import Base64.

Lemma sextet_of_char_of_sextet (s : sextet) :
  sextet_of_char (char_of_sextet s) = Some s.
Proof.
  destruct s as [[] [] [] [] [] []]; vm_compute; reflexivity.
Qed.

Lemma char_of_sextet_not_pad (s : sextet) :
  Ascii.eqb (char_of_sextet s) pad = false.
Proof.
  destruct s as [[] [] [] [] [] []]; vm_compute; reflexivity.
Qed.

(** Reading back the letters of a run of sextets, whatever padding
    follows. *)
Lemma sextets_of_letters (l : list sextet) (tail : string) :
  sextets_of tail = [] ->
  sextets_of (string_of_list_ascii (map char_of_sextet l) ++ tail) = l.
Proof.
  intro Htail. induction l as [|s l IH]; simpl.
  - exact Htail.
  - rewrite char_of_sextet_not_pad, sextet_of_char_of_sextet.
    f_equal. exact IH.
Qed.

Lemma sextets_of_padding (bs : list byte) : sextets_of (padding bs) = [].
Proof.
  unfold padding.
  destruct (Nat.modulo (length bs) 3) as [|[|[|n]]]; reflexivity.
Qed.

(** Induction on a list three elements at a time. *)
Lemma list_ind3 {A} (P : list A -> Prop) :
  P [] -> (forall a, P [a]) -> (forall a b, P [a; b]) ->
  (forall a b c l, P l -> P (a :: b :: c :: l)) ->
  forall l, P l.
Proof.
  intros H0 H1 H2 H3.
  fix IH 1. intros [|a [|b [|c l]]].
  - exact H0.
  - apply H1.
  - apply H2.
  - apply H3. apply IH.
Qed.

Lemma from_sextets_to_sextets (bs : list byte) :
  from_sextets (to_sextets bs) = bs.
Proof.
  induction bs as [|a|a b|a b c l IH] using list_ind3.
  - reflexivity.
  - destruct a. reflexivity.
  - destruct a, b. reflexivity.
  - destruct a, b, c. simpl. now rewrite IH.
Qed.

(** What [toString('base64')] writes, [Buffer.from(_, 'base64')] reads
    back. *)
Lemma decode_encode (bs : list byte) : decode (encode bs) = bs.
Proof.
  unfold decode, encode.
  rewrite sextets_of_letters by apply sextets_of_padding.
  apply from_sextets_to_sextets.
Qed.

End Base64Facts.

(** ** The value codec *)

Module JsonFacts.
Import Json.
Local Open Scope string_scope.

(** Induction on values, with the hypothesis available for every value
    kept inside an array, an object, a map or an instance. *)
Lemma value_ind (P : value -> Prop) :
  P VUndefined -> P VNull ->
  (forall b, P (VBool b)) -> (forall n, P (VNum n)) ->
  (forall s, P (VStr s)) -> (forall z, P (VBigInt z)) ->
  P VFunction -> P VSymbol ->
  (forall items, Forall P items -> P (VArray items)) ->
  (forall props, Forall (fun kv => P (snd kv)) props -> P (VObject props)) ->
  (forall entries, Forall (fun kv => P (fst kv) /\ P (snd kv)) entries ->
                   P (VMap entries)) ->
  (forall bytes, P (VBuffer bytes)) ->
  (forall bytes, P (VUint8Array bytes)) ->
  (forall chain props, Forall (fun kv => P (snd kv)) props ->
                       P (VInstance chain props)) ->
  forall v, P v.
Proof.
  intros Hu Hn Hb Hnum Hs Hbig Hf Hsym Harr Hobj Hmap Hbuf Hu8 Hinst.
  fix IH 1. intros [ | | b | n | s | z | | | items | props | entries | bytes | bytes | chain props].
  - exact Hu.
  - exact Hn.
  - apply Hb.
  - apply Hnum.
  - apply Hs.
  - apply Hbig.
  - exact Hf.
  - exact Hsym.
  - apply Harr. induction items as [|x l IHl]; constructor; [apply IH | exact IHl].
  - apply Hobj. induction props as [|[k x] l IHl]; constructor; [apply IH | exact IHl].
  - apply Hmap. induction entries as [|[k x] l IHl]; constructor;
      [split; apply IH | exact IHl].
  - apply Hbuf.
  - apply Hu8.
  - apply Hinst. induction props as [|[k x] l IHl]; constructor; [apply IH | exact IHl].
Qed.

(** *** Object properties *)

Lemma obj_set_fresh {A} (props : list (string * A)) (key : string) (v : A) :
  ~ In key (map fst props) -> obj_set props key v = (props ++ [(key, v)])%list.
Proof.
  induction props as [|[k x] rest IH]; simpl; intro Hfresh.
  - reflexivity.
  - destruct (String.eqb k key) eqn:E.
    + apply String.eqb_eq in E. exfalso. apply Hfresh. now left.
    + f_equal. apply IH. intro Hin. apply Hfresh. now right.
Qed.

Lemma get_obj_set_other {A} (props : list (string * A)) (key k : string) (v : A) :
  k <> key -> get key (obj_set props k v) = get key props.
Proof.
  intro Hne. induction props as [|[k' x] rest IH]; simpl.
  - destruct (String.eqb k key) eqn:E; [|reflexivity].
    apply String.eqb_eq in E. contradiction.
  - destruct (String.eqb k' k) eqn:E; simpl.
    + apply String.eqb_eq in E. subst k'.
      destruct (String.eqb k key) eqn:E'; [|reflexivity].
      apply String.eqb_eq in E'. contradiction.
    + destruct (String.eqb k' key); [reflexivity | exact IH].
Qed.

(** Assignment to a property, where [__proto__] is not one. *)
Lemma set_property_proto {A} (props : list (string * A)) (v : A) :
  set_property props proto v = props.
Proof. reflexivity. Qed.

Lemma set_property_other {A} (props : list (string * A)) (key : string) (v : A) :
  key <> proto -> set_property props key v = obj_set props key v.
Proof.
  intro Hne. unfold set_property.
  destruct (String.eqb key proto) eqn:E; [|reflexivity].
  apply String.eqb_eq in E. contradiction.
Qed.

Lemma set_property_fresh {A} (props : list (string * A)) (key : string) (v : A) :
  key <> proto -> ~ In key (map fst props) ->
  set_property props key v = (props ++ [(key, v)])%list.
Proof.
  intros Hne Hfresh. rewrite set_property_other by exact Hne.
  now apply obj_set_fresh.
Qed.

Lemma get_set_property_other {A} (props : list (string * A)) (key k : string)
    (v : A) :
  k <> key -> get key (set_property props k v) = get key props.
Proof.
  intro Hne. unfold set_property.
  destruct (String.eqb k proto); [reflexivity | now apply get_obj_set_other].
Qed.

Lemma settable_keys {A} (props : list (string * A)) (k : string) :
  In k (map fst (settable props)) <-> In k (map fst props) /\ k <> proto.
Proof.
  unfold settable. rewrite !in_map_iff. split.
  - intros [kv [<- Hin]]. apply filter_In in Hin. destruct Hin as [Hin Hne].
    split; [now exists kv|]. intro E. rewrite E, String.eqb_refl in Hne.
    discriminate Hne.
  - intros [[kv [<- Hin]] Hne]. exists kv. split; [reflexivity|].
    apply filter_In. split; [exact Hin|].
    destruct (String.eqb (fst kv) proto) eqn:E; [|reflexivity].
    apply String.eqb_eq in E. contradiction.
Qed.

Lemma settable_all {A} (props : list (string * A)) :
  ~ In proto (map fst props) -> settable props = props.
Proof.
  unfold settable. induction props as [|[k v] rest IH]; intro H; [reflexivity|].
  simpl. destruct (String.eqb k proto) eqn:E.
  - apply String.eqb_eq in E. exfalso. apply H. now left.
  - simpl. f_equal. apply IH. intro Hin. apply H. now right.
Qed.

Lemma settable_cons {A} (k : string) (v : A) (rest : list (string * A)) :
  settable ((k, v) :: rest)
  = if String.eqb k proto then settable rest else (k, v) :: settable rest.
Proof.
  unfold settable. cbn [filter fst]. destruct (String.eqb k proto); reflexivity.
Qed.

Lemma settable_map {A B} (f : A -> B) (props : list (string * A)) :
  settable (map (fun kv => (fst kv, f (snd kv))) props)
  = map (fun kv => (fst kv, f (snd kv))) (settable props).
Proof.
  induction props as [|[k x] rest IH]; [reflexivity|].
  cbn [map fst snd]. rewrite !settable_cons, IH.
  destruct (String.eqb k proto); reflexivity.
Qed.

Lemma get_Object_assign_other {A} (source target : list (string * A)) (key : string) :
  ~ In key (map fst source) ->
  get key (Object_assign target source) = get key target.
Proof.
  unfold Object_assign. revert target.
  induction source as [|[k x] rest IH]; simpl; intros target Hfresh.
  - reflexivity.
  - rewrite IH by (intro; apply Hfresh; now right).
    apply get_set_property_other. intro E. apply Hfresh. now left.
Qed.

Lemma get_not_in {A} (props : list (string * A)) (key : string) :
  ~ In key (map fst props) -> get key props = None.
Proof.
  induction props as [|[k x] rest IH]; simpl; intro Hfresh.
  - reflexivity.
  - destruct (String.eqb k key) eqn:E.
    + apply String.eqb_eq in E. exfalso. apply Hfresh. now left.
    + apply IH. intro. apply Hfresh. now right.
Qed.

Lemma existsb_eqb_In (s : string) (l : list string) :
  existsb (String.eqb s) l = true <-> In s l.
Proof.
  rewrite existsb_exists. split.
  - intros [x [Hin E]]. apply String.eqb_eq in E. now subst.
  - intro Hin. exists s. split; [exact Hin | apply String.eqb_refl].
Qed.

Lemma distinct_strings_NoDup (l : list string) :
  distinct_strings l = true <-> NoDup l.
Proof.
  induction l as [|s rest IH]; simpl.
  - split; [constructor | reflexivity].
  - rewrite andb_true_iff, negb_true_iff, IH. split.
    + intros [Hn Hd]. constructor; [|exact Hd].
      intro Hin. apply existsb_eqb_In in Hin. congruence.
    + intro H. inversion H as [|x l' Hn Hd]; subst. split; [|exact Hd].
      destruct (existsb (String.eqb s) rest) eqn:E; [|reflexivity].
      apply existsb_eqb_In in E. contradiction.
Qed.

(** *** The ignored properties *)

Lemma kept_nil (props : list (string * value)) : kept [] props = props.
Proof.
  unfold kept. induction props as [|kv rest IH]; simpl in *; [reflexivity|].
  f_equal. exact IH.
Qed.

Lemma kept_map (ignored : list string) (f : value -> value)
    (props : list (string * value)) :
  kept ignored (map (fun kv => (fst kv, f (snd kv))) props)
  = map (fun kv => (fst kv, f (snd kv))) (kept ignored props).
Proof.
  unfold kept. induction props as [|[k x] rest IH]; simpl; [reflexivity|].
  destruct (existsb (String.eqb k) ignored); simpl; now rewrite IH.
Qed.

Lemma kept_drops_ignored (ignored : list string) (props : list (string * value))
    (k : string) :
  In k ignored -> ~ In k (map fst (kept ignored props)).
Proof.
  unfold kept. intros Hign Hin. apply in_map_iff in Hin.
  destruct Hin as [kv [E Hin]]. apply filter_In in Hin.
  destruct Hin as [_ Hneg]. apply negb_true_iff in Hneg. subst k.
  assert (Hex : existsb (String.eqb (fst kv)) ignored = true)
    by (apply existsb_eqb_In; exact Hign).
  congruence.
Qed.

(** *** Writing never fails below [jsonify] *)

Lemma jsonify_entries_cons (write : value -> result json) (k v : value)
    (rest : list (value * value)) :
  jsonify_entries write ((k, v) :: rest)
  = (j <- fmap JArr (jsonify_array write [k; v]) ;;
     js <- jsonify_entries write rest ;;
     Ok (j :: js))%result.
Proof. reflexivity. Qed.

Section Writing.
Variable reg : registry.

Lemma jsonify_array_returns (items : list value) :
  Forall (fun v => isSerializable v = true -> returns (writeValue reg v)) items ->
  returns (jsonify_array (writeValue reg) items).
Proof.
  induction 1 as [|v rest Hv _ IH]; simpl.
  - eexists; reflexivity.
  - destruct (isSerializable v) eqn:E; simpl; [|exact IH].
    destruct (Hv eq_refl) as [j ->]. destruct IH as [js ->].
    eexists; reflexivity.
Qed.

Lemma jsonify_object_returns (ignored : list string)
    (props : list (string * value)) (parsed : list (string * json)) :
  Forall (fun kv => isSerializable (snd kv) = true ->
                    returns (writeValue reg (snd kv))) props ->
  returns (jsonify_object (writeValue reg) ignored props parsed).
Proof.
  intro H. revert parsed.
  induction H as [|[k v] rest Hv _ IH]; simpl; intro parsed.
  - eexists; reflexivity.
  - simpl in Hv. destruct (isSerializable v) eqn:E; simpl; [|apply IH].
    destruct (existsb (String.eqb k) ignored); [apply IH|].
    destruct (Hv eq_refl) as [j ->]. simpl. apply IH.
Qed.

Lemma jsonify_object_numbers_returns (entries : list (string * value))
    (parsed : list (string * json)) :
  Forall (fun kv => exists n, snd kv = VNum n) entries ->
  returns (jsonify_object writeNumber [] entries parsed).
Proof.
  intro H. revert parsed.
  induction H as [|[k v] rest [n Hn] _ IH]; simpl; intro parsed.
  - eexists; reflexivity.
  - simpl in Hn. subst v. simpl. apply IH.
Qed.

Lemma indexed_from_numbers (bytes : list byte) (i : nat) :
  Forall (fun kv : string * value => exists n, snd kv = VNum n)
         (indexed_from i (map byte_value bytes)).
Proof.
  revert i. induction bytes as [|b rest IH]; simpl; intro i; constructor.
  - simpl. eexists. reflexivity.
  - apply IH.
Qed.

(** [writeValue] returns on every value that [isSerializable] lets
    through, so that the loops of [jsonify] never meet its [throw]. *)
Lemma writeValue_returns (v : value) :
  isSerializable v = true -> returns (writeValue reg v).
Proof.
  induction v using value_ind; intro Hser; try discriminate Hser;
    try (eexists; reflexivity).
  - (* array *)
    simpl. destruct (jsonify_array_returns _ H) as [js E].
    rewrite E. eexists; reflexivity.
  - (* object *)
    simpl. destruct (jsonify_object_returns [] _ [] H) as [js E].
    rewrite E. eexists; reflexivity.
  - (* map *)
    simpl.
    assert (Hent : returns (jsonify_entries (writeValue reg) entries)).
    { clear Hser. induction H as [|[k x] rest [Hk Hx] _ IH].
      - eexists; reflexivity.
      - simpl in Hk, Hx. rewrite jsonify_entries_cons.
        assert (Hkx : returns (jsonify_array (writeValue reg) [k; x])).
        { apply jsonify_array_returns. repeat constructor; assumption. }
        destruct Hkx as [j ->]. destruct IH as [js ->].
        eexists; reflexivity. }
    destruct Hent as [js ->]. eexists; reflexivity.
  - (* typed array *)
    simpl.
    destruct (jsonify_object_numbers_returns _ []
                (indexed_from_numbers bytes 0)) as [js E].
    unfold indexed. rewrite E. eexists; reflexivity.
  - (* instance *)
    simpl.
    destruct (find _ reg) as [clas|].
    + destruct (jsonify_object_returns (ignoredProps clas) _ [] H) as [js E].
      rewrite E. eexists; reflexivity.
    + destruct (jsonify_object_returns [] _ [] H) as [js E].
      rewrite E. eexists; reflexivity.
Qed.

(** [jsonify] returns on everything but [null] and [undefined]. *)
Lemma jsonify_returns (obj : value) (ignored : list string) :
  is_nullish obj = false -> returns (jsonify reg obj ignored).
Proof.
  intro Hobj.
  assert (Hall : forall l : list (string * value),
             Forall (fun kv => isSerializable (snd kv) = true ->
                               returns (writeValue reg (snd kv))) l).
  { intro l. apply Forall_forall. intros kv _. apply writeValue_returns. }
  assert (Hobjs : forall l, returns (fmap JObj (jsonify_object (writeValue reg) ignored l []))).
  { intro l. destruct (jsonify_object_returns ignored _ [] (Hall l)) as [js E].
    rewrite E. eexists; reflexivity. }
  destruct obj; try discriminate Hobj; unfold jsonify, Object_entries;
    try apply Hobjs.
  assert (Hitems : Forall (fun v => isSerializable v = true ->
                                    returns (writeValue reg v)) items).
  { apply Forall_forall. intros v _. apply writeValue_returns. }
  destruct (jsonify_array_returns _ Hitems) as [js E]. rewrite E.
  eexists; reflexivity.
Qed.

End Writing.

(** *** The loops, one step at a time *)

Lemma jsonify_array_cons (write : value -> result json) (item : value)
    (rest : list value) :
  jsonify_array write (item :: rest)
  = if negb (isSerializable item) then jsonify_array write rest
    else (j <- write item ;; js <- jsonify_array write rest ;; Ok (j :: js))%result.
Proof. reflexivity. Qed.

Lemma jsonify_object_cons (write : value -> result json) (ignored : list string)
    (key : string) (v : value) (rest : list (string * value))
    (parsed : list (string * json)) :
  jsonify_object write ignored ((key, v) :: rest) parsed
  = if negb (isSerializable v) then jsonify_object write ignored rest parsed
    else if existsb (String.eqb key) ignored
         then jsonify_object write ignored rest parsed
         else (j <- write v ;;
               jsonify_object write ignored rest (set_property parsed key j))%result.
Proof. reflexivity. Qed.

Lemma dejsonify_object_cons (read : json -> result value) (key : string)
    (v : json) (rest : list (string * json)) (parsed : list (string * value)) :
  dejsonify_object read ((key, v) :: rest) parsed
  = (x <- read v ;; dejsonify_object read rest (set_property parsed key x))%result.
Proof. reflexivity. Qed.

(** *** The object loop of [dejsonify] *)

Lemma traverse_returns {A B} (f : A -> result B) (l : list A) :
  Forall (fun a => returns (f a)) l -> returns (traverse f l).
Proof.
  induction 1 as [|a rest [b Hb] _ [bs Hbs]]; simpl.
  - eexists; reflexivity.
  - rewrite Hb. simpl. rewrite Hbs. eexists; reflexivity.
Qed.

Lemma dejsonify_object_returns (read : json -> result value)
    (js : list (string * json)) (parsed : list (string * value)) :
  Forall (fun kj => returns (read (snd kj))) js ->
  returns (dejsonify_object read js parsed).
Proof.
  intro H. revert parsed. induction H as [|[k j] rest [v Hv] _ IH]; intro parsed.
  - eexists; reflexivity.
  - rewrite dejsonify_object_cons. simpl in Hv. rewrite Hv. apply IH.
Qed.

Lemma dejsonify_object_throws (read : json -> result value)
    (props : list (string * json)) (parsed : list (string * value))
    (k : string) (j : json) :
  In (k, j) props -> throws (read j) ->
  throws (dejsonify_object read props parsed).
Proof.
  revert parsed. induction props as [|[k' j'] rest IH]; intros parsed Hin Hj.
  - destruct Hin.
  - rewrite dejsonify_object_cons.
    destruct (read j') as [v|e] eqn:E.
    + simpl. destruct Hin as [Heq|Hin].
      * injection Heq as -> ->. destruct Hj as [e He]. congruence.
      * now apply IH.
    + exists e. reflexivity.
Qed.

Lemma get_set_property_same {A} (props : list (string * A)) (key : string)
    (v : A) :
  key <> proto -> get key (set_property props key v) = Some v.
Proof.
  intro Hne. rewrite set_property_other by exact Hne.
  induction props as [|[k x] rest IH]; cbn [obj_set get].
  - now rewrite String.eqb_refl.
  - destruct (String.eqb k key) eqn:E; cbn [get]; rewrite E;
      [reflexivity | exact IH].
Qed.

(** What the loop leaves in the object it fills, when the properties it
    reads have pairwise different names: every property but
    [__proto__] holds what was read for it, and nothing else is
    touched. *)
Lemma dejsonify_object_entries (read : json -> result value)
    (props : list (string * json)) (parsed obj : list (string * value)) :
  NoDup (map fst props) ->
  dejsonify_object read props parsed = Ok obj ->
  (forall k j, In (k, j) props -> k <> proto ->
     exists x, read j = Ok x /\ get k obj = Some x)
  /\ (forall k, ~ In k (map fst (settable props)) -> get k obj = get k parsed).
Proof.
  revert parsed. induction props as [|[k0 j0] rest IH]; intros parsed Hnd H.
  - injection H as <-. split; [intros k j []|reflexivity].
  - inversion Hnd as [|? ? Hk0 Hrest]; subst.
    rewrite dejsonify_object_cons in H.
    destruct (read j0) as [x0|] eqn:E; [|discriminate H].
    cbn [bind] in H. destruct (IH _ Hrest H) as [Hin Hout]. split.
    + intros k j [Heq|Hkj] Hne.
      * injection Heq as -> ->. exists x0. split; [exact E|].
        rewrite Hout.
        -- now apply get_set_property_same.
        -- intro Hk. apply settable_keys in Hk. now apply Hk0.
      * now apply Hin.
    + intros k Hk. rewrite settable_cons in Hk.
      destruct (String.eqb k0 proto) eqn:Eproto.
      * rewrite (Hout k Hk). apply String.eqb_eq in Eproto. subst k0.
        now rewrite set_property_proto.
      * rewrite Hout by (intro; apply Hk; now right).
        apply get_set_property_other. intro Heq. apply Hk. now left.
Qed.

(** [dejsonify(val.data, compatMode)] is [dejsonify] at the property
    [data]. *)
Lemma dejsonify_data_get (read : json -> result value)
    (props : list (string * json)) :
  dejsonify_data read props = dejsonify_with read (get "data" props).
Proof.
  induction props as [|[k v] rest IH]; simpl; [reflexivity|].
  destruct (String.eqb k "data"); [reflexivity | exact IH].
Qed.

(** [readValue] on an object, in the words of the source. *)
Lemma readValue_object {host : Host} (reg : registry) (compatMode : bool)
    (props : list (string * json)) :
  readValue reg compatMode (JObj props)
  = match get "type" props with
    | None | Some JNull =>
        if compatMode then dejsonify reg compatMode (JObj props)
        else Throw (Error "JSON object has a null type")
    | Some (JStr tag) =>
        if String.eqb tag "Map" then
          (entries <- dejsonify_with (readValue reg compatMode) (get "data" props) ;;
           Map_new entries)%result
        else if String.eqb tag "Buffer" then Buffer_from_base64 (get "data" props)
        else if String.eqb tag "object" then
          dejsonify_with (readValue reg compatMode) (get "data" props)
        else if String.prefix "custom-" tag then
          match read_as reg (custom_name tag) with
          | Some clas =>
              (data <- dejsonify_with (readValue reg compatMode) (get "data" props) ;;
               source <- Object_entries data ;;
               Ok (VInstance (fst (construct (classRef clas)))
                     (Object_assign (snd (construct (classRef clas))) source)))%result
          | None =>
              Throw (Error ("Class for type '" ++ custom_name tag
                            ++ "' was not registered"))
          end
        else if compatMode then dejsonify reg compatMode (JObj props)
        else Throw (Error ("JSON object is of unknown type " ++ tag))
    | Some _ => Throw (TypeError "val.type.startsWith is not a function")
    end.
Proof.
  simpl. rewrite !dejsonify_data_get. reflexivity.
Qed.

(** [writeValue] on an object, in the words of the source. *)
Lemma writeValue_object (reg : registry) (val : value) :
  js_type_eqb (typeof val) TyObject = true -> is_nullish val = false ->
  writeValue reg val
  = match val with
    | VMap entries =>
        (data <- jsonify reg (VArray (map (fun kv => VArray [fst kv; snd kv]) entries)) [] ;;
         Ok (envelope data "Map"))%result
    | VArray _ => jsonify reg val []
    | VBuffer bytes => Ok (envelope (JStr (Base64.encode bytes)) "Buffer")
    | _ =>
        match find (fun c => instanceof val (classRef c)) reg with
        | Some clas =>
            (data <- jsonify reg val (ignoredProps clas) ;;
             Ok (envelope data ("custom-" ++ class_name (classRef clas))))%result
        | None =>
            (data <- jsonify reg val [] ;; Ok (envelope data "object"))%result
        end
    end.
Proof.
  intros Hobj Hnull.
  assert (Hnone : forall v, match v with VInstance _ _ => False | _ => True end ->
            find (fun c => instanceof v (classRef c)) reg = None).
  { intros v Hv. induction reg as [|c l IH]; [reflexivity|]. simpl.
    destruct v; simpl in *; try contradiction; exact IH. }
  destruct val; try discriminate Hobj; try discriminate Hnull.
  - (* array *) reflexivity.
  - (* object *)
    rewrite Hnone by exact I. simpl.
    destruct (jsonify_object (writeValue reg) [] props []); reflexivity.
  - (* map *)
    simpl. f_equal.
    assert (E : jsonify_array (writeValue reg)
                  (map (fun kv => VArray [fst kv; snd kv]) entries)
                = jsonify_entries (writeValue reg) entries).
    { clear Hobj Hnull.
      induction entries as [|[k v] rest IH]; [reflexivity|].
      rewrite jsonify_entries_cons. simpl map. rewrite jsonify_array_cons.
      change (negb (isSerializable (VArray [k; v]))) with false.
      cbv iota. rewrite IH. reflexivity. }
    rewrite E. destruct (jsonify_entries (writeValue reg) entries); reflexivity.
  - (* buffer *) reflexivity.
  - (* typed array *)
    rewrite Hnone by exact I. simpl.
    assert (E : forall l parsed,
               Forall (fun kv : string * value => exists n, snd kv = VNum n) l ->
               jsonify_object (writeValue reg) [] l parsed
               = jsonify_object writeNumber [] l parsed).
    { induction l as [|[k v] rest IH]; intros parsed Hl; [reflexivity|].
      inversion Hl as [|? ? [n Hn] Hrest]; subst. simpl in Hn. subst v.
      rewrite !jsonify_object_cons. simpl. apply IH. exact Hrest. }
    unfold indexed. rewrite E by apply indexed_from_numbers.
    destruct (jsonify_object writeNumber [] _ []); reflexivity.
  - (* instance *)
    simpl. destruct (find _ reg) as [clas|];
      destruct (jsonify_object (writeValue reg) _ props []); reflexivity.
Qed.

(** *** Maps *)

Lemma Map_set_fresh (entries : list (value * value)) (k v : value) :
  existsb (fun kx => same_value_zero (fst kx) k) entries = false ->
  Map_set entries k v = (entries ++ [(k, v)])%list.
Proof.
  induction entries as [|[k' x] rest IH]; simpl; intro H.
  - reflexivity.
  - apply orb_false_iff in H as [Hk Hrest]. rewrite Hk.
    f_equal. apply IH. exact Hrest.
Qed.

Lemma distinct_keys_app_cons (acc : list value) (k : value) (rest : list value) :
  distinct_keys (acc ++ k :: rest) = true ->
  existsb (fun k' => same_value_zero k' k) acc = false
  /\ distinct_keys ((acc ++ [k]) ++ rest) = true.
Proof.
  intro H. split.
  - induction acc as [|a acc IH]; simpl in *; [reflexivity|].
    apply andb_true_iff in H as [Ha Hacc]. apply negb_true_iff in Ha.
    rewrite existsb_app in Ha. apply orb_false_iff in Ha as [_ Ha].
    simpl in Ha. apply orb_false_iff in Ha as [Ha _].
    rewrite Ha. simpl. apply IH. exact Hacc.
  - rewrite <- app_assoc. exact H.
Qed.

(** Building a map from entries whose keys are all different keeps
    them as they are. *)
Lemma Map_of_items_distinct (entries acc : list (value * value)) :
  distinct_keys (map fst (acc ++ entries)) = true ->
  Map_of_items acc (map (fun kv => VArray [fst kv; snd kv]) entries)
  = Ok (acc ++ entries)%list.
Proof.
  revert acc. induction entries as [|[k v] rest IH]; intros acc H.
  - simpl. now rewrite app_nil_r.
  - simpl. rewrite map_app in H. simpl in H.
    apply distinct_keys_app_cons in H as [Hfresh Hrest].
    rewrite Map_set_fresh.
    + replace (acc ++ (k, v) :: rest)%list with ((acc ++ [(k, v)]) ++ rest)%list
        by (rewrite <- app_assoc; reflexivity).
      apply IH. rewrite !map_app. simpl. exact Hrest.
    + rewrite <- Hfresh. clear. induction acc as [|[a x] acc IH]; simpl;
        [reflexivity | now rewrite IH].
Qed.

(** *** The round trip *)

Section RoundTrip.
Context {host : Host}.
Variable reg : registry.
Variable compatMode : bool.

Local Notation "'round_trips' v" :=
  (storable reg v = true ->
   exists j, writeValue reg v = Ok j
             /\ readValue reg compatMode j = Ok (rebuilt reg v))
  (at level 10, v at level 9).

Lemma storable_isSerializable (v : value) :
  storable reg v = true -> isSerializable v = true.
Proof. destruct v; simpl; intro H; try discriminate H; reflexivity. Qed.

Lemma array_round_trip (items : list value) :
  Forall (fun v => round_trips v) items ->
  forallb (storable reg) items = true ->
  exists js, jsonify_array (writeValue reg) items = Ok js
             /\ traverse (readValue reg compatMode) js
                = Ok (map (rebuilt reg) items).
Proof.
  induction 1 as [|v rest Hv _ IH]; intro Hst.
  - exists []. split; reflexivity.
  - simpl in Hst. apply andb_true_iff in Hst as [Hv' Hrest].
    rewrite jsonify_array_cons, (storable_isSerializable _ Hv'). simpl negb.
    cbv iota.
    destruct (Hv Hv') as [j [Ew Er]]. destruct (IH Hrest) as [js [Ews Ers]].
    rewrite Ew, Ews. exists (j :: js). split; [reflexivity|].
    simpl. rewrite Er, Ers. reflexivity.
Qed.

Lemma object_round_trip (ignored : list string) (props : list (string * value)) :
  Forall (fun kv => round_trips (snd kv)) props ->
  forallb (fun kv => storable reg (snd kv)) props = true ->
  NoDup (map fst props) ->
  exists js,
    map fst js = map fst (kept ignored (settable props))
    /\ (forall parsed,
          (forall k, In k (map fst props) -> ~ In k (map fst parsed)) ->
          jsonify_object (writeValue reg) ignored props parsed
          = Ok (parsed ++ js)%list)
    /\ (forall parsed,
          (forall k, In k (map fst props) -> ~ In k (map fst parsed)) ->
          dejsonify_object (readValue reg compatMode) js parsed
          = Ok (parsed ++ map (fun kv => (fst kv, rebuilt reg (snd kv)))
                              (kept ignored (settable props)))%list).
Proof.
  induction 1 as [|[k v] rest Hv _ IH]; intros Hst Hnd.
  - exists []. repeat split; intros; simpl; now rewrite app_nil_r.
  - cbn [forallb map fst snd] in Hst, Hv, Hnd.
    apply andb_true_iff in Hst as [Hv' Hrest].
    inversion Hnd as [|? ? Hk Hnd']; subst.
    destruct (IH Hrest Hnd') as [js [Hkeys [Hw Hr]]].
    assert (Hstep : forall A (parsed : list (string * A)) (x : A),
              (forall k', In k' (map fst ((k, v) :: rest)) ->
                          ~ In k' (map fst parsed)) ->
              forall k', In k' (map fst rest) ->
                         ~ In k' (map fst (parsed ++ [(k, x)]))).
    { intros A parsed x Hfresh k' Hin Hin'.
      rewrite map_app, in_app_iff in Hin'. destruct Hin' as [Hin'|Hin'].
      - apply (Hfresh k'); [now right | exact Hin'].
      - simpl in Hin'. destruct Hin' as [<-|[]]. contradiction. }
    assert (Hrest' : forall A (parsed : list (string * A)),
              (forall k', In k' (map fst ((k, v) :: rest)) ->
                          ~ In k' (map fst parsed)) ->
              forall k', In k' (map fst rest) -> ~ In k' (map fst parsed)).
    { intros A parsed Hfresh k' Hin. apply Hfresh. now right. }
    rewrite settable_cons.
    destruct (String.eqb k proto) eqn:Eproto.
    + (* the setter of the prototype: nothing is written *)
      apply String.eqb_eq in Eproto. subst k.
      exists js. split; [exact Hkeys|]. split; intros parsed Hfresh.
      * rewrite jsonify_object_cons.
        destruct (negb (isSerializable v)); [now apply Hw, Hrest'|].
        destruct (existsb (String.eqb proto) ignored); [now apply Hw, Hrest'|].
        destruct (Hv Hv') as [j [Ew Er]]. rewrite Ew. cbn [bind].
        rewrite set_property_proto. now apply Hw, Hrest'.
      * now apply Hr, Hrest'.
    + assert (Hne : k <> proto)
        by (intros ->; now rewrite String.eqb_refl in Eproto).
      unfold kept in *. cbn [filter fst].
      destruct (existsb (String.eqb k) ignored) eqn:Eign; cbn [negb].
      * exists js. split; [exact Hkeys|]. split; intros parsed Hfresh.
        -- rewrite jsonify_object_cons, Eign.
           destruct (negb (isSerializable v)); now apply Hw, Hrest'.
        -- now apply Hr, Hrest'.
      * destruct (Hv Hv') as [j [Ew Er]].
        exists ((k, j) :: js). split; [cbn [map fst]; now rewrite Hkeys|].
        split; intros parsed Hfresh.
        -- rewrite jsonify_object_cons, Eign, (storable_isSerializable _ Hv').
           cbn [negb]. rewrite Ew. cbn [bind].
           rewrite set_property_fresh
             by (first [exact Hne | apply Hfresh; now left]).
           rewrite Hw by (apply Hstep; exact Hfresh).
           now rewrite <- app_assoc.
        -- rewrite dejsonify_object_cons, Er. cbn [bind].
           rewrite set_property_fresh
             by (first [exact Hne | apply Hfresh; now left]).
           rewrite Hr by (apply Hstep; exact Hfresh).
           cbn [map fst snd]. now rewrite <- app_assoc.
Qed.

Lemma entries_round_trip (entries : list (value * value)) :
  Forall (fun kv => (round_trips (fst kv)) /\ (round_trips (snd kv))) entries ->
  forallb (fun kv => storable reg (fst kv) && storable reg (snd kv)) entries = true ->
  exists js, jsonify_entries (writeValue reg) entries = Ok js
             /\ traverse (readValue reg compatMode) js
                = Ok (map (fun kv => VArray [rebuilt reg (fst kv); rebuilt reg (snd kv)])
                          entries).
Proof.
  induction 1 as [|[k v] rest [Hk Hv] _ IH]; intro Hst.
  - exists []. split; reflexivity.
  - simpl in Hst, Hk, Hv.
    apply andb_true_iff in Hst as [Hkv Hrest].
    apply andb_true_iff in Hkv as [Hk' Hv'].
    destruct (Hk Hk') as [jk [Ewk Erk]]. destruct (Hv Hv') as [jv [Ewv Erv]].
    destruct (IH Hrest) as [js [Ews Ers]].
    rewrite jsonify_entries_cons, !jsonify_array_cons.
    rewrite (storable_isSerializable _ Hk'), (storable_isSerializable _ Hv').
    simpl negb. cbv iota. rewrite Ewk, Ewv, Ews.
    exists (JArr [jk; jv] :: js). split; [reflexivity|].
    simpl. rewrite Erk, Erv. simpl. rewrite Ers. reflexivity.
Qed.

End RoundTrip.

(** *** Tags of registered classes *)

Lemma substring_all (s : string) : String.substring 0 (String.length s) s = s.
Proof. induction s as [|c s IH]; simpl; [reflexivity | now rewrite IH]. Qed.

Lemma custom_name_of_tag (nm : string) : custom_name ("custom-" ++ nm) = nm.
Proof.
  unfold custom_name. simpl. rewrite Nat.sub_0_r. apply substring_all.
Qed.

Lemma custom_tag_is_custom (nm : string) :
  String.eqb ("custom-" ++ nm) "Map" = false
  /\ String.eqb ("custom-" ++ nm) "Buffer" = false
  /\ String.eqb ("custom-" ++ nm) "object" = false
  /\ String.prefix "custom-" ("custom-" ++ nm) = true.
Proof.
  repeat split; try reflexivity.
  simpl. destruct nm; reflexivity.
Qed.

(** A class that an instance is written under can be found again by its
    name: the reader takes the first registered class of that name. *)
Lemma read_as_written (reg : registry) (chain : list nat) (clas : serializable) :
  written_as reg chain = Some clas ->
  exists clas', read_as reg (class_name (classRef clas)) = Some clas'.
Proof.
  unfold written_as, read_as. intro H. apply find_some in H as [Hin _].
  destruct (find (fun c => String.eqb (class_name (classRef c))
                                      (class_name (classRef clas))) reg) eqn:E.
  - eauto.
  - exfalso. apply (find_none _ _ E) in Hin. simpl in Hin.
    rewrite String.eqb_refl in Hin. discriminate.
Qed.

Section RoundTripOfValues.
Context {host : Host}.
Variable reg : registry.
Variable compatMode : bool.

(** What [writeValue] writes for a storable value, [readValue] reads
    back as the rebuilt value, in either mode. *)
Lemma writeValue_readValue (v : value) :
  storable reg v = true ->
  exists j, writeValue reg v = Ok j
            /\ readValue reg compatMode j = Ok (rebuilt reg v).
Proof.
  induction v using value_ind; intro Hst; try discriminate Hst;
    try (eexists; split; reflexivity).
  - (* array *)
    simpl in Hst.
    destruct (array_round_trip reg compatMode _ H Hst) as [js [Ew Er]].
    exists (JArr js). split.
    + simpl. now rewrite Ew.
    + simpl. now rewrite Er.
  - (* object *)
    simpl in Hst. apply andb_true_iff in Hst as [Hnd Hst].
    apply distinct_strings_NoDup in Hnd.
    destruct (object_round_trip reg compatMode [] _ H Hst Hnd) as [js [_ [Hw Hr]]].
    rewrite kept_nil in Hr.
    exists (envelope (JObj js) "object"). split.
    + simpl. rewrite Hw by (intros k _ []). reflexivity.
    + unfold envelope. rewrite readValue_object. simpl.
      rewrite Hr by (intros k _ []). rewrite settable_map. reflexivity.
  - (* map *)
    simpl in Hst. apply andb_true_iff in Hst as [Hdk Hst].
    destruct (entries_round_trip reg compatMode _ H Hst) as [js [Ew Er]].
    exists (envelope (JArr js) "Map"). split.
    + simpl. now rewrite Ew.
    + unfold envelope. rewrite readValue_object. simpl. rewrite Er. simpl.
      assert (E : map (fun kv : value * value =>
                         VArray [rebuilt reg (fst kv); rebuilt reg (snd kv)]) entries
                  = map (fun kv => VArray [fst kv; snd kv])
                        (map (fun kv => (rebuilt reg (fst kv), rebuilt reg (snd kv)))
                             entries)).
      { rewrite map_map. reflexivity. }
      rewrite E, Map_of_items_distinct; [reflexivity|].
      simpl. rewrite map_map. simpl. exact Hdk.
  - (* buffer *)
    exists (envelope (JStr (Base64.encode bytes)) "Buffer"). split; [reflexivity|].
    unfold envelope. rewrite readValue_object. simpl.
    now rewrite Base64Facts.decode_encode.
  - (* instance *)
    simpl in Hst. apply andb_true_iff in Hst as [Hnd Hst].
    apply distinct_strings_NoDup in Hnd.
    simpl rebuilt. simpl writeValue.
    change (find (fun c => existsb (Nat.eqb (class_id (classRef c))) chain) reg)
      with (written_as reg chain).
    destruct (written_as reg chain) as [clas|] eqn:Ewr.
    + destruct (read_as_written _ _ _ Ewr) as [clas' Erd]. rewrite Erd.
      destruct (object_round_trip reg compatMode (ignoredProps clas) _ H Hst Hnd)
        as [js [_ [Hw Hr]]].
      exists (envelope (JObj js) ("custom-" ++ class_name (classRef clas))). split.
      * rewrite Hw by (intros k _ []). reflexivity.
      * unfold envelope. rewrite readValue_object.
        change (get "type" [("data", JObj js);
                            ("type", JStr ("custom-" ++ class_name (classRef clas)))])
          with (Some (JStr ("custom-" ++ class_name (classRef clas)))).
        change (get "data" [("data", JObj js);
                            ("type", JStr ("custom-" ++ class_name (classRef clas)))])
          with (Some (JObj js)).
        destruct (custom_tag_is_custom (class_name (classRef clas)))
          as [E1 [E2 [E3 E4]]].
        cbv iota. rewrite E1, E2, E3, E4, custom_name_of_tag, Erd.
        unfold dejsonify_with. rewrite Hr by (intros k _ []).
        simpl. rewrite settable_map, kept_map. reflexivity.
    + destruct (object_round_trip reg compatMode [] _ H Hst Hnd) as [js [_ [Hw Hr]]].
      rewrite kept_nil in Hr.
      exists (envelope (JObj js) "object"). split.
      * rewrite Hw by (intros k _ []). reflexivity.
      * unfold envelope. rewrite readValue_object. simpl.
        rewrite Hr by (intros k _ []). rewrite settable_map. reflexivity.
Qed.

(** A value without [undefined], without instances and without
    properties named [__proto__] is rebuilt as itself. *)
Lemma rebuilt_plain (v : value) : plain v = true -> rebuilt reg v = v.
Proof.
  induction v using value_ind; intro Hp; try discriminate Hp; try reflexivity;
    cbn [plain rebuilt] in *; f_equal.
  - induction H as [|x l Hx _ IH]; cbn [forallb map] in *; [reflexivity|].
    apply andb_true_iff in Hp as [Hx' Hl]. now rewrite Hx, IH.
  - induction H as [|[k x] l Hx _ IH]; cbn [forallb map fst snd] in *;
      [reflexivity|].
    apply andb_true_iff in Hp as [Hx' Hl].
    apply andb_true_iff in Hx' as [Hk Hx'].
    rewrite settable_cons. apply negb_true_iff in Hk. rewrite Hk.
    now rewrite Hx, IH.
  - induction H as [|[k x] l [Hk Hx] _ IH]; cbn [forallb map fst snd] in *;
      [reflexivity|].
    apply andb_true_iff in Hp as [Hkx Hl]. apply andb_true_iff in Hkx as [Hk' Hx'].
    now rewrite Hk, Hx, IH.
Qed.

Lemma plain_without_proto (v : value) :
  plain v = true -> without_proto v = true.
Proof.
  induction v using value_ind; intro Hp; try discriminate Hp; try reflexivity;
    cbn [plain without_proto] in *.
  - induction H as [|x l Hx _ IH]; cbn [forallb] in *; [reflexivity|].
    apply andb_true_iff in Hp as [Hx' Hl]. now rewrite Hx, IH.
  - induction H as [|[k x] l Hx _ IH]; cbn [forallb fst snd] in *;
      [reflexivity|].
    apply andb_true_iff in Hp as [Hx' Hl].
    apply andb_true_iff in Hx' as [Hk Hx'].
    now rewrite Hk, Hx, IH.
  - induction H as [|[k x] l [Hk Hx] _ IH]; cbn [forallb fst snd] in *;
      [reflexivity|].
    apply andb_true_iff in Hp as [Hkx Hl]. apply andb_true_iff in Hkx as [Hk' Hx'].
    now rewrite Hk, Hx, IH.
Qed.

End RoundTripOfValues.

Lemma prefix_split (p s : string) :
  String.prefix p s = true ->
  s = p ++ String.substring (String.length p) (String.length s - String.length p) s.
Proof.
  revert s. induction p as [|a p IH]; intros s H.
  - simpl. rewrite Nat.sub_0_r. symmetry. apply substring_all.
  - destruct s as [|b s]; [discriminate H|].
    simpl in H. destruct (ascii_dec a b) as [->|]; [|discriminate H].
    simpl. f_equal. apply IH. exact H.
Qed.

Lemma custom_tag_split (tag : string) :
  String.prefix "custom-" tag = true -> tag = "custom-" ++ custom_name tag.
Proof. intro H. apply (prefix_split _ _ H). Qed.

(** C3, as stated, at a map handed to [jsonify] itself.  [jsonify]
    walks the own properties of what it is given, and a map has none:
    the empty object comes out and the entries are lost. *)
Lemma round_trip_of_top_level_map_fails :
  ~ (forall (reg : registry) (entries : list (value * value)),
       storable reg (VMap entries) = true ->
       forallb (fun kv => negb (js_type_eqb (typeof (fst kv)) TyString)) entries = true ->
       (j <- jsonify reg (VMap entries) [] ;;
        dejsonify (host := Example.host) reg false j)%result
       = Ok (VMap entries)).
Proof.
  intro H.
  specialize (H [] [(VNum (Int 1), VStr "one")] eq_refl eq_refl).
  vm_compute in H. discriminate H.
Qed.

(** C3, amended.  For a storable value [v] and either mode.  When no
    property inside [v] is named [__proto__]: what [writeValue] writes
    for [v], that is [v] as an item of an array or a property of an
    object given to [jsonify], [readValue] reads back as [rebuilt v];
    and when [v] is itself an array or a plain object,
    [dejsonify (jsonify v)] is [rebuilt v].  When neither [undefined],
    nor an instance of a class, nor a property named [__proto__] occurs
    in [v], [rebuilt v] is [v].  Of a plain object, [jsonify] writes the
    properties that are not named [__proto__], and no other.  And when
    [v] is an instance written under a registered class, no ignored
    property is in the data written, and in the instance read back an
    ignored property is what the constructor of the class made it,
    absent if the constructor does not set it. *)
Theorem codec_round_trip {host : Host} (reg : registry) (compatMode : bool)
    (v : value) :
  storable reg v = true ->
  (without_proto v = true ->
   (exists j, writeValue reg v = Ok j
              /\ readValue reg compatMode j = Ok (rebuilt reg v))
   /\ (is_Array v = true \/ (exists props, v = VObject props) ->
       exists j, jsonify reg v [] = Ok j
                 /\ dejsonify reg compatMode j = Ok (rebuilt reg v)))
  /\ (plain v = true -> without_proto v = true /\ rebuilt reg v = v)
  /\ (forall props, v = VObject props ->
        exists data,
          jsonify reg v [] = Ok (JObj data)
          /\ forall k, In k (map fst data) <-> In k (map fst props) /\ k <> proto)
  /\ (forall chain props clas,
        v = VInstance chain props -> written_as reg chain = Some clas ->
        exists clas' data fields,
          read_as reg (class_name (classRef clas)) = Some clas'
          /\ writeValue reg v
             = Ok (envelope (JObj data) ("custom-" ++ class_name (classRef clas)))
          /\ rebuilt reg v = VInstance (fst (construct (classRef clas'))) fields
          /\ forall k, In k (ignoredProps clas) ->
                       get k data = None
                       /\ get k fields = get k (class_fields (classRef clas'))).
Proof.
  intro Hst.
  assert (Hall : forall props : list (string * value),
            Forall (fun kv => storable reg (snd kv) = true ->
                      exists j, writeValue reg (snd kv) = Ok j
                                /\ readValue reg compatMode j
                                   = Ok (rebuilt reg (snd kv))) props).
  { intro props. apply Forall_forall. intros kv _. apply writeValue_readValue. }
  split; [|split; [|split]].
  - intros _. split; [apply writeValue_readValue; exact Hst|].
    intros [Harr|[props ->]].
    + destruct v; try discriminate Harr.
      destruct (writeValue_readValue reg compatMode _ Hst) as [j [Ew Er]].
      exists j. split; [exact Ew|].
      simpl in Ew. destruct (jsonify_array _ items); [|discriminate Ew].
      injection Ew as <-. exact Er.
    + simpl in Hst. apply andb_true_iff in Hst as [Hnd Hst].
      apply distinct_strings_NoDup in Hnd.
      destruct (object_round_trip reg compatMode [] _ (Hall props) Hst Hnd)
        as [js [_ [Hw Hr]]].
      rewrite kept_nil in Hr. exists (JObj js). split.
      * simpl. rewrite Hw by (intros k _ []). reflexivity.
      * unfold dejsonify, dejsonify_with. rewrite Hr by (intros k _ []).
        cbn [rebuilt]. rewrite settable_map. reflexivity.
  - intro Hplain. split; [now apply plain_without_proto | now apply rebuilt_plain].
  - intros props ->.
    simpl in Hst. apply andb_true_iff in Hst as [Hnd Hst].
    apply distinct_strings_NoDup in Hnd.
    destruct (object_round_trip reg compatMode [] _ (Hall props) Hst Hnd)
      as [js [Hkeys [Hw _]]].
    rewrite kept_nil in Hkeys. exists js. split.
    + simpl. rewrite Hw by (intros k _ []). reflexivity.
    + intro k. rewrite Hkeys. apply settable_keys.
  - intros chain props clas -> Ewr.
    simpl in Hst. apply andb_true_iff in Hst as [Hnd Hst].
    apply distinct_strings_NoDup in Hnd.
    destruct (read_as_written _ _ _ Ewr) as [clas' Erd].
    destruct (object_round_trip reg compatMode (ignoredProps clas) _
                (Hall props) Hst Hnd) as [js [Hkeys [Hw _]]].
    exists clas', js. eexists. split; [exact Erd|]. split; [|split].
    + simpl writeValue.
      change (find (fun c => existsb (Nat.eqb (class_id (classRef c))) chain) reg)
        with (written_as reg chain).
      rewrite Ewr, Hw by (intros k _ []). reflexivity.
    + simpl rebuilt. rewrite Ewr, Erd. reflexivity.
    + intros k Hk. split.
      * apply get_not_in. rewrite Hkeys. now apply kept_drops_ignored.
      * apply get_Object_assign_other. now apply kept_drops_ignored.
Qed.

(** C4, as stated, at the tag [Set] in compatibility mode: the object
    is read as a plain nested object. *)
Lemma unknown_tag_is_read_in_compatibility_mode :
  ~ (forall (reg : registry) (compatMode : bool)
            (props : list (string * json)) (tag : string),
       get "type" props = Some (JStr tag) ->
       tag <> "Map" -> tag <> "Buffer" -> tag <> "object" ->
       read_as reg tag = None -> read_as reg (custom_name tag) = None ->
       throws (readValue (host := Example.host) reg compatMode (JObj props))).
Proof.
  intro H.
  assert (Hthrows : throws (readValue (host := Example.host) [] true
                              (JObj [("type", JStr "Set")]))).
  { apply (H [] true [("type", JStr "Set")] "Set"); try reflexivity; discriminate. }
  destruct Hthrows as [e He]. vm_compute in He. discriminate He.
Qed.

(** C4, amended.  Reading an object fails when its tag is not [null],
    is none of [Map], [Buffer] and [object], names no registered class
    when it is [custom-<Name>], and moreover either compatibility mode
    is off, or the tag is [custom-<Name>], or the tag is not a string.
    So a [custom-] tag of an unregistered class fails in both modes,
    while any other unknown string tag fails only outside compatibility
    mode.  In compatibility mode an object with such a tag is handed to
    [dejsonify] as it is, like an untagged one, and is read property by
    property: when no property inside is named [__proto__], it fails
    when reading one of its properties fails; otherwise it gives a
    plain object, which, when the properties have pairwise different
    names, holds under each name what was read for it, [type] included,
    and nothing else. *)
Theorem unknown_tag_is_refused {host : Host} (reg : registry) (compatMode : bool)
    (props : list (string * json)) (tag : json) :
  get "type" props = Some tag ->
  tag <> JNull ->
  tag <> JStr "Map" -> tag <> JStr "Buffer" -> tag <> JStr "object" ->
  (forall nm, tag = JStr ("custom-" ++ nm) -> read_as reg nm = None) ->
  (compatMode = false
   \/ (exists nm, tag = JStr ("custom-" ++ nm))
   \/ (forall s, tag <> JStr s) ->
   throws (readValue reg compatMode (JObj props)))
  /\ (compatMode = true ->
      (exists s, tag = JStr s /\ String.prefix "custom-" s = false) ->
      readValue reg true (JObj props) = dejsonify reg true (JObj props)
      /\ (without_proto_json (JObj props) = true ->
          (forall k j, In (k, j) props -> throws (readValue reg true j) ->
                       throws (readValue reg true (JObj props)))
          /\ ((forall k j, In (k, j) props -> returns (readValue reg true j)) ->
              exists obj,
                readValue reg true (JObj props) = Ok (VObject obj)
                /\ (NoDup (map fst props) ->
                    (forall k j, In (k, j) props ->
                       exists x, readValue reg true j = Ok x
                                 /\ get k obj = Some x)
                    /\ (forall k, ~ In k (map fst props) ->
                                  get k obj = None))))).
Proof.
  intros Htag Hnull Hmap Hbuf Hobj Hreg. split.
  - intro Hmode.
    rewrite readValue_object, Htag.
    destruct tag as [ | b | n | s | items | ps ];
      try (eexists; reflexivity); [contradiction|].
    assert (E1 : String.eqb s "Map" = false)
      by (apply String.eqb_neq; congruence).
    assert (E2 : String.eqb s "Buffer" = false)
      by (apply String.eqb_neq; congruence).
    assert (E3 : String.eqb s "object" = false)
      by (apply String.eqb_neq; congruence).
    rewrite E1, E2, E3.
    destruct (String.prefix "custom-" s) eqn:Epre.
    + rewrite (Hreg (custom_name s)).
      * eexists; reflexivity.
      * f_equal. now apply custom_tag_split.
    + destruct Hmode as [-> | [[nm Hnm] | Hstr]].
      * eexists; reflexivity.
      * injection Hnm as Hs. rewrite Hs in Epre.
        destruct (custom_tag_is_custom nm) as [_ [_ [_ E4]]].
        simpl in E4, Epre. rewrite E4 in Epre. discriminate Epre.
      * exfalso. now apply (Hstr s).
  - intros -> [s [-> Epre]].
    assert (E1 : String.eqb s "Map" = false)
      by (apply String.eqb_neq; congruence).
    assert (E2 : String.eqb s "Buffer" = false)
      by (apply String.eqb_neq; congruence).
    assert (E3 : String.eqb s "object" = false)
      by (apply String.eqb_neq; congruence).
    assert (Eread : readValue reg true (JObj props)
                    = fmap VObject (dejsonify_object (readValue reg true) props [])).
    { rewrite readValue_object, Htag, E1, E2, E3, Epre. reflexivity. }
    rewrite Eread. split; [reflexivity|].
    intro Hproto.
    assert (Hkeys : forall k j, In (k, j) props -> k <> proto).
    { intros k j Hin Hk. cbn [without_proto_json] in Hproto.
      rewrite forallb_forall in Hproto. specialize (Hproto _ Hin).
      cbn [fst] in Hproto. apply andb_true_iff in Hproto as [Hne _].
      apply negb_true_iff, String.eqb_neq in Hne. contradiction. }
    split.
    + intros k j Hin Hj.
      destruct (dejsonify_object_throws _ _ [] k j Hin Hj) as [e ->].
      exists e. reflexivity.
    + intro Hall.
      assert (Hret : returns (dejsonify_object (readValue reg true) props [])).
      { apply dejsonify_object_returns, Forall_forall. intros [k j] Hin.
        exact (Hall k j Hin). }
      destruct Hret as [obj Hobj']. rewrite Hobj'. exists obj.
      split; [reflexivity|]. intro Hnd.
      destruct (dejsonify_object_entries _ _ _ _ Hnd Hobj') as [Hin Hout].
      split.
      * intros k j Hkj. exact (Hin k j Hkj (Hkeys k j Hkj)).
      * intros k Hk. rewrite Hout; [reflexivity|].
        intro Hk'. apply settable_keys in Hk'. destruct Hk' as [Hk1 _].
        contradiction.
Qed.

Lemma codec_round_trip_witness :
  storable Sample.classes Sample.document = true
  /\ exists j, writeValue Sample.classes Sample.document = Ok j
               /\ readValue (host := Example.host) Sample.classes false j
                  = Ok (rebuilt Sample.classes Sample.document).
Proof.
  split; [reflexivity|].
  apply (proj1 (codec_round_trip (host := Example.host) Sample.classes false
                  Sample.document eq_refl) eq_refl).
Defined.

Lemma unknown_tag_is_refused_witness :
  throws (readValue (host := Example.host) [] true
            (JObj [("data", JObj []); ("type", JStr "custom-Session")]))
  /\ throws (readValue (host := Example.host) [] true
               (JObj [("type", JStr "Set");
                      ("x", JObj [("type", JStr "custom-Nope"); ("data", JObj [])])])).
Proof.
  split.
  - refine (proj1 (unknown_tag_is_refused (host := Example.host) [] true
                     [("data", JObj []); ("type", JStr "custom-Session")]
                     (JStr "custom-Session") _ _ _ _ _ _) _).
    + reflexivity.
    + discriminate.
    + discriminate.
    + discriminate.
    + discriminate.
    + intros nm _. reflexivity.
    + right. left. exists "Session". reflexivity.
  - refine (proj1 (proj2 (proj2 (unknown_tag_is_refused (host := Example.host)
                                   [] true
                                   [("type", JStr "Set");
                                    ("x", JObj [("type", JStr "custom-Nope");
                                                ("data", JObj [])])]
                                   (JStr "Set") _ _ _ _ _ _) _ _) _)
                  "x" (JObj [("type", JStr "custom-Nope"); ("data", JObj [])]) _ _).
    + reflexivity.
    + discriminate.
    + discriminate.
    + discriminate.
    + discriminate.
    + intros nm Hnm. discriminate Hnm.
    + reflexivity.
    + exists "Set". split; reflexivity.
    + reflexivity.
    + right. now left.
    + eexists. reflexivity.
Defined.

(** An ignored property that the constructor sets is not absent after
    the round trip: it is back to what the constructor made it. *)
Example ignored_property_is_reset :
  (j <- writeValue Sample.classes Sample.session ;;
   readValue (host := Example.host) Sample.classes false j)%result
  = Ok (VInstance [1] [("user", VStr "ada"); ("token", VStr "none")]).
Proof. reflexivity. Qed.

(** An own property named [__proto__] is not written: the assignment
    reaches the setter of the prototype. *)
Example own_proto_property_is_not_written :
  jsonify [] (VObject [(proto, VNum (Int 1)); ("a", VNum (Int 2))]) []
  = Ok (JObj [("a", JNum (Int 2))]).
Proof. reflexivity. Qed.

End JsonFacts.

(** ** Schema reconciliation *)

Module SchemaFacts.
Import Builder SqliteOrm.
Local Open Scope string_scope.

Section WithHost.
Context {host : Host}.
Variable reg : registry.

(** A column clause can be built as soon as auto-increment is only asked
    of an integer column: rendering a default never fails. *)
Lemma buildColumnQuery_returns (column : TableColumn) :
  (autoIncrement column = true -> type column = integer_t) ->
  returns (buildColumnQuery reg column).
Proof.
  intro Hai. unfold buildColumnQuery.
  destruct (autoIncrement column) eqn:Eai.
  - rewrite (Hai eq_refl). simpl. rewrite andb_false_r. simpl.
    eexists; reflexivity.
  - simpl. rewrite andb_true_r.
    destruct (is_nullish (defaultValue column)) eqn:Enull; simpl.
    + eexists; reflexivity.
    + unfold getDefaultValue. destruct (type column); simpl;
        try (eexists; reflexivity).
      destruct (JsonFacts.jsonify_returns reg (defaultValue column) [] Enull)
        as [j ->].
      eexists; reflexivity.
Qed.

(** C1.  When the primary-key column of the existing model and that of
    the declared model do not have the same name (one of them may have
    no primary key at all), [buildAlterQuery] throws, so no ALTER
    statement comes out of it; and the table set-up of the driver, which
    builds the statements before running any, then stops with that
    exception and leaves the flag and the executed statements as they
    were. *)
Theorem primary_key_conflict_is_refused (existingModel actualModel : Model) :
  primaryKeyName existingModel <> primaryKeyName actualModel ->
  throws (buildAlterQuery reg existingModel actualModel)
  /\ (forall info st,
        info <> [] ->
        buildModelFromData actualModel info = existingModel ->
        exists e, setUpTable reg actualModel info st = (Throw e, st)).
Proof.
  intro Hpk.
  assert (Hthrow : throws (buildAlterQuery reg existingModel actualModel)).
  { unfold buildAlterQuery.
    destruct (negb (tableName existingModel =? tableName actualModel)).
    - eexists; reflexivity.
    - apply opt_str_eqb_neq in Hpk. rewrite Hpk. simpl. eexists; reflexivity. }
  split; [exact Hthrow|].
  intros info st Hinfo Hex.
  unfold setUpTable.
  destruct info as [|d info']; [contradiction|]. simpl length. simpl Nat.eqb.
  cbv iota. rewrite Hex. destruct Hthrow as [e ->]. exists e. reflexivity.
Qed.





End WithHost.

(** The names compared are the one the live table reports and the
    logical one of the declared model: a primary key that is mapped to
    another physical name is refused although it is the same column. *)
Example mapped_primary_key_is_refused (st : orm) :
  exists e,
    setUpTable (host := Example.host) [] Sample.accounts [Sample.uid_info] st
    = (Throw e, st).
Proof. eexists. reflexivity. Qed.

Lemma primary_key_conflict_is_refused_witness :
  throws (buildAlterQuery (host := Example.host) []
            Sample.users_by_id Sample.users_by_email).
Proof.
  apply (primary_key_conflict_is_refused (host := Example.host) []
           Sample.users_by_id Sample.users_by_email).
  vm_compute. discriminate.
Defined.



End SchemaFacts.

(** ** Statements *)

Module QueryFacts.
Import Builder.
Local Open Scope string_scope.

Lemma join_cons (sep head : string) (rest : list string) :
  join sep (head :: rest)
  = head ++ match rest with
            | [] => EmptyString
            | _ :: _ => sep ++ join sep rest
            end.
Proof.
  unfold join. destruct rest; simpl; [|reflexivity].
  induction head as [|c h IH]; simpl; [reflexivity | now rewrite <- IH].
Qed.

Lemma placeholders_repeat {A} (l : list A) :
  map (fun _ => "?") l = repeat "?" (length l).
Proof. induction l as [|x l IH]; simpl; [reflexivity | now rewrite IH]. Qed.

(** *** The loops of insert and update *)

Lemma insertLoop_others (m : Model) (data : list (string * value))
    (cols : list string) (params : list value) :
  others_only m data ->
  insertLoop m data cols params
  = Ok ((cols ++ map fst data)%list, (params ++ map snd data)%list).
Proof.
  revert cols params. induction data as [|[k v] rest IH]; intros cols params H.
  - simpl. now rewrite !app_nil_r.
  - destruct (H (k, v) (or_introl eq_refl)) as [c [Hc Hpk]].
    simpl in Hc. simpl. rewrite Hc, Hpk. simpl.
    rewrite IH by (intros kv Hin; apply H; now right).
    now rewrite <- !app_assoc.
Qed.

Lemma insertLoop_generated (m : Model) (before after : list (string * value))
    (k : string) (v : value) (pk : TableColumn) :
  findColumn m k = Some pk -> isPrimaryKey pk = true -> autoIncrement pk = true ->
  others_only m (before ++ after) ->
  insertLoop m (before ++ (k, v) :: after) [] []
  = Ok (map fst (before ++ after), map snd (before ++ after)).
Proof.
  intros Hk Hpk Hai Hothers.
  assert (Hsplit : forall cols params,
            insertLoop m (before ++ (k, v) :: after) cols params
            = insertLoop m after (cols ++ map fst before)%list
                                 (params ++ map snd before)%list).
  { assert (Hb : others_only m before)
      by (intros kv Hin; apply Hothers; apply in_or_app; now left).
    clear Hothers. induction before as [|[k' v'] rest IH]; intros cols params.
    - simpl. rewrite Hk, Hpk, Hai, !app_nil_r. reflexivity.
    - destruct (Hb (k', v') (or_introl eq_refl)) as [c [Hc Hc']].
      simpl in Hc. simpl. rewrite Hc, Hc'. simpl.
      rewrite IH by (intros kv Hin; apply Hb; now right).
      now rewrite <- !app_assoc. }
  rewrite Hsplit, insertLoop_others
    by (intros kv Hin; apply Hothers; apply in_or_app; now right).
  simpl. now rewrite !map_app.
Qed.

Lemma updateLoop_others (m : Model) (data : list (string * value))
    (st : updateState) :
  others_only m data ->
  updateLoop m data st
  = Ok {| u_params := (u_params st ++ map snd data)%list;
          u_cols := (u_cols st ++ map fst data)%list;
          primaryCol := primaryCol st; primaryVal := primaryVal st |}.
Proof.
  revert st. induction data as [|[k v] rest IH]; intros st H.
  - simpl. rewrite !app_nil_r. destruct st; reflexivity.
  - destruct (H (k, v) (or_introl eq_refl)) as [c [Hc Hpk]].
    simpl in Hc. simpl. rewrite Hc, Hpk.
    rewrite IH by (intros kv Hin; apply H; now right).
    simpl. now rewrite <- !app_assoc.
Qed.

Lemma updateLoop_key (m : Model) (before after : list (string * value))
    (k : string) (v : value) (pk : TableColumn) :
  findColumn m k = Some pk -> isPrimaryKey pk = true ->
  others_only m (before ++ after) ->
  updateLoop m (before ++ (k, v) :: after)
    {| u_params := []; u_cols := []; primaryCol := None; primaryVal := VUndefined |}
  = Ok {| u_params := map snd (before ++ after);
          u_cols := map fst (before ++ after);
          primaryCol := Some (physical pk); primaryVal := v |}.
Proof.
  intros Hk Hpk Hothers.
  assert (Hsplit : forall st,
            updateLoop m (before ++ (k, v) :: after) st
            = updateLoop m after
                {| u_params := (u_params st ++ map snd before)%list;
                   u_cols := (u_cols st ++ map fst before)%list;
                   primaryCol := Some (physical pk); primaryVal := v |}).
  { assert (Hb : others_only m before)
      by (intros kv Hin; apply Hothers; apply in_or_app; now left).
    clear Hothers. induction before as [|[k' v'] rest IH]; intro st.
    - simpl. rewrite Hk, Hpk, !app_nil_r. reflexivity.
    - destruct (Hb (k', v') (or_introl eq_refl)) as [c [Hc Hc']].
      simpl in Hc. simpl. rewrite Hc, Hc'.
      rewrite IH by (intros kv Hin; apply Hb; now right).
      simpl. now rewrite <- !app_assoc. }
  rewrite Hsplit, updateLoop_others
    by (intros kv Hin; apply Hothers; apply in_or_app; now right).
  simpl. now rewrite !map_app.
Qed.

(** The record that [save] hands to the builders has one entry per
    column, under its physical name.  When every column is found under
    its physical name and [pk] is the only primary key, that record has
    the shape the next theorem asks for. *)
Lemma record_of_all_columns (m : Model) (cs1 cs2 : list TableColumn)
    (pk : TableColumn) (f : TableColumn -> value) :
  columns m = (cs1 ++ pk :: cs2)%list ->
  (forall c, In c (columns m) -> findColumn m (physical c) = Some c) ->
  (forall c, In c (cs1 ++ cs2) -> isPrimaryKey c = false) ->
  map (fun c => (physical c, f c)) (columns m)
  = (map (fun c => (physical c, f c)) cs1
     ++ (physical pk, f pk) :: map (fun c => (physical c, f c)) cs2)%list
  /\ findColumn m (physical pk) = Some pk
  /\ others_only m (map (fun c => (physical c, f c)) cs1
                    ++ map (fun c => (physical c, f c)) cs2).
Proof.
  intros Hcols Hfind Hothers. split; [|split].
  - rewrite Hcols, map_app. reflexivity.
  - apply Hfind. rewrite Hcols. apply in_or_app. right. now left.
  - intros kv Hin. rewrite <- map_app in Hin. apply in_map_iff in Hin.
    destruct Hin as [c [<- Hc]]. exists c. split; [|now apply Hothers].
    apply Hfind. rewrite Hcols. apply in_app_or in Hc.
    apply in_or_app. destruct Hc as [Hc|Hc]; [now left | right; now right].
Qed.

(** C6, as stated, on the record that [save] builds, one entry
    per column under the name of the column it is kept in: the model
    has the key [id], kept in [uid], and the column [legacyId], kept in
    [id].  The entry [id] of the record is resolved to the key, by its
    logical name; so nothing is set, and the value of [legacyId] is
    given as the key of the row to update. *)
Lemma update_of_colliding_names :
  ~ (forall (m : Model) (cs1 cs2 : list TableColumn) (pk : TableColumn)
            (f : TableColumn -> value),
       columns m = (cs1 ++ pk :: cs2)%list ->
       isPrimaryKey pk = true ->
       (forall c, In c (cs1 ++ cs2) -> isPrimaryKey c = false) ->
       buildUpdateQuery m (map (fun c => (physical c, f c)) (columns m))
       = Ok {| query := "UPDATE " ++ squote ++ tableName m ++ squote ++ " SET "
                        ++ join ", " (map (fun c => physical c ++ " = ?")
                                          (cs1 ++ cs2))
                        ++ " WHERE " ++ physical pk ++ " = ?";
               params := (map f (cs1 ++ cs2) ++ [f pk])%list |}).
Proof.
  intro H.
  specialize (H Sample.legacy_members [] [Sample.legacy_column]
                Sample.key_column Sample.row_values eq_refl eq_refl).
  assert (Hothers : forall c, In c ([] ++ [Sample.legacy_column]) ->
                              isPrimaryKey c = false)
    by (intros c [<- | []]; reflexivity).
  specialize (H Hothers). vm_compute in H. discriminate H.
Qed.

(** What the builder answers there. *)
Example colliding_names_statement :
  buildUpdateQuery Sample.legacy_members
    [("uid", VNum (Int 1)); ("id", VNum (Int 5))]
  = Ok {| query := "UPDATE 'members' SET  WHERE uid = ?";
          params := [VNum (Int 5)] |}.
Proof. reflexivity. Qed.

(** C6, amended.  [pk] is a primary-key column, and [stored c] is the
    name of the column of the table that holds [c]: its [mappedTo], or
    its name when it has none.

    First, a record holds one entry, [(k, v)], whose name the builder
    resolves to [pk], and around it entries resolved to columns that
    are not a primary key.  Then, when [pk] is auto-increment, the
    insert statement lists the names of the other entries only, with
    one placeholder and one parameter for each; and the update
    statement sets each of the other entries, has [stored pk = ?] as its
    only condition, and takes the other values followed by [v] as
    parameters.

    Second, the record that [save] builds has one entry per column,
    under its stored name.  When each column is the first one that its
    stored name is resolved to and [pk] is the only primary key, the
    statements are those of the other columns, in order, with [stored pk]
    in the condition and the value of [pk] as the last parameter. *)
Theorem insert_and_update_statements (m : Model) (pk : TableColumn) :
  isPrimaryKey pk = true ->
  let stored (c : TableColumn) :=
    match mappedTo c with
    | Some column => column
    | None => name c
    end in
  (forall (before after : list (string * value)) (k : string) (v : value),
     findColumn m k = Some pk ->
     others_only m (before ++ after) ->
     (autoIncrement pk = true ->
      buildInsertQuery m (before ++ (k, v) :: after)
      = Ok {| query := "INSERT INTO " ++ squote ++ tableName m ++ squote ++ " ("
                       ++ join ", " (map fst (before ++ after)) ++ ") VALUES ("
                       ++ join ", " (repeat "?" (length (before ++ after)))
                       ++ ")";
              params := map snd (before ++ after) |})
     /\ buildUpdateQuery m (before ++ (k, v) :: after)
        = Ok {| query := "UPDATE " ++ squote ++ tableName m ++ squote ++ " SET "
                         ++ join ", " (map (fun c => c ++ " = ?")
                                           (map fst (before ++ after)))
                         ++ " WHERE " ++ stored pk ++ " = ?";
                params := (map snd (before ++ after) ++ [v])%list |})
  /\ (forall (cs1 cs2 : list TableColumn) (f : TableColumn -> value),
        columns m = (cs1 ++ pk :: cs2)%list ->
        (forall c, In c (columns m) -> findColumn m (stored c) = Some c) ->
        (forall c, In c (cs1 ++ cs2) -> isPrimaryKey c = false) ->
        let record := map (fun c => (stored c, f c)) (columns m) in
        (autoIncrement pk = true ->
         buildInsertQuery m record
         = Ok {| query := "INSERT INTO " ++ squote ++ tableName m ++ squote
                          ++ " (" ++ join ", " (map stored (cs1 ++ cs2))
                          ++ ") VALUES ("
                          ++ join ", " (repeat "?" (length (cs1 ++ cs2)))
                          ++ ")";
                 params := map f (cs1 ++ cs2) |})
        /\ buildUpdateQuery m record
           = Ok {| query := "UPDATE " ++ squote ++ tableName m ++ squote
                            ++ " SET "
                            ++ join ", " (map (fun c => stored c ++ " = ?")
                                              (cs1 ++ cs2))
                            ++ " WHERE " ++ stored pk ++ " = ?";
                   params := (map f (cs1 ++ cs2) ++ [f pk])%list |}).
Proof.
  intros Hpk stored.
  assert (Hgeneral : forall before after k v,
            findColumn m k = Some pk ->
            others_only m (before ++ after) ->
            (autoIncrement pk = true ->
             buildInsertQuery m (before ++ (k, v) :: after)
             = Ok {| query := "INSERT INTO " ++ squote ++ tableName m ++ squote
                              ++ " (" ++ join ", " (map fst (before ++ after))
                              ++ ") VALUES ("
                              ++ join ", " (repeat "?" (length (before ++ after)))
                              ++ ")";
                     params := map snd (before ++ after) |})
            /\ buildUpdateQuery m (before ++ (k, v) :: after)
               = Ok {| query := "UPDATE " ++ squote ++ tableName m ++ squote
                                ++ " SET "
                                ++ join ", " (map (fun c => c ++ " = ?")
                                                  (map fst (before ++ after)))
                                ++ " WHERE " ++ stored pk ++ " = ?";
                       params := (map snd (before ++ after) ++ [v])%list |}).
  { intros before after k v Hk Hothers. split.
    - intro Hai. unfold buildInsertQuery.
      rewrite (insertLoop_generated m before after k v pk Hk Hpk Hai Hothers).
      simpl. rewrite placeholders_repeat, length_map. reflexivity.
    - unfold buildUpdateQuery.
      rewrite (updateLoop_key m before after k v pk Hk Hpk Hothers).
      reflexivity. }
  split; [exact Hgeneral|].
  intros cs1 cs2 f Hcols Hfind Hothers record.
  destruct (record_of_all_columns m cs1 cs2 pk f Hcols Hfind Hothers)
    as [Hrecord [Hkey Hrest]].
  change (map (fun c => (physical c, f c)) (columns m)) with record in Hrecord.
  destruct (Hgeneral _ _ _ (f pk) Hkey Hrest) as [Hins Hupd].
  rewrite <- Hrecord in Hins, Hupd.
  rewrite <- !map_app, !map_map, length_map in Hins.
  rewrite <- !map_app, !map_map in Hupd.
  split; [exact Hins | exact Hupd].
Qed.

Lemma insert_and_update_statements_witness :
  buildInsertQuery Sample.members
    [("uid", VNum (Int 1)); ("meta_json", VNum (Int 5))]
  = Ok {| query := "INSERT INTO 'members' (meta_json) VALUES (?)";
          params := [VNum (Int 5)] |}
  /\ buildUpdateQuery Sample.members
       [("uid", VNum (Int 1)); ("meta_json", VNum (Int 5))]
     = Ok {| query := "UPDATE 'members' SET meta_json = ? WHERE uid = ?";
             params := [VNum (Int 5); VNum (Int 1)] |}.
Proof.
  destruct (proj2 (insert_and_update_statements Sample.members
                     Sample.key_column eq_refl)
              [] [Sample.meta_column] Sample.row_values)
    as [Hins Hupd].
  - reflexivity.
  - intros c [<- | [<- | []]]; reflexivity.
  - intros c [<- | []]. reflexivity.
  - split; [apply Hins; reflexivity | exact Hupd].
Defined.


Ltac normalize_append :=
  repeat rewrite append_assoc; reflexivity.

(** *** The pre-flight type guard *)

(** C5, as stated, at [null] given to a json column that must
    not be null: the guard lets it through, because [typeof null] is
    [object]. *)
Lemma isProvidedTypeValid_accepts_null_on_required_json :
  ~ (forall (provType : value) (col : TableColumn),
       provType = VNull ->
       isProvidedTypeValid provType col = true -> nullable col = true).
Proof.
  intro H.
  specialize (H VNull Sample.meta_column eq_refl eq_refl).
  discriminate H.
Qed.

(** C5, amended.  On a column that may be null, [null] and [undefined]
    are accepted.  On a column that must not be null, [undefined] is
    refused whatever the type of the column, and [null] is refused on
    every type but json, where it is accepted.  What is given with a
    type other than [object], as [findOne] does, is therefore accepted
    when it is [undefined] only by a column that may be null.  For the
    rest: a number that is not finite is refused on every column; a
    string column takes strings; a boolean column takes booleans and
    the numbers 0 and 1; an integer column takes safe integers; a
    number column takes finite numbers; a json column takes whatever
    has the type [object]; a blob column takes byte arrays. *)
Theorem isProvidedTypeValid_guard (provType : value) (col : TableColumn) :
  (nullable col = true -> is_nullish provType = true ->
   isProvidedTypeValid provType col = true)
  /\ (forall n, provType = VNum n -> Number_isFinite n = false ->
      isProvidedTypeValid provType col = false)
  /\ (forall n, provType = VNum n -> type col = integer_t ->
      isProvidedTypeValid provType col = Number_isSafeInteger n)
  /\ (forall b, provType = VBool b -> type col = boolean_t ->
      isProvidedTypeValid provType col = true)
  /\ (forall n, provType = VNum n -> type col = boolean_t ->
      isProvidedTypeValid provType col
      = number_eqb n (Int 0) || number_eqb n (Int 1))
  /\ (type col = json_t -> is_nullish provType = false ->
      isProvidedTypeValid provType col = js_type_eqb (typeof provType) TyObject)
  /\ (type col = blob_t -> is_nullish provType = false ->
      isProvidedTypeValid provType col = is_Uint8Array provType)
  /\ (is_nullish provType = true -> nullable col = false ->
      type col <> json_t \/ provType = VUndefined ->
      isProvidedTypeValid provType col = false)
  /\ (nullable col = false ->
      isProvidedTypeValid VNull col = ColumnType_eqb (type col) json_t)
  /\ (is_nullish provType = true ->
      js_type_eqb (typeof provType) TyObject = false ->
      isProvidedTypeValid provType col = nullable col)
  /\ (is_nullish provType = false ->
      isProvidedTypeValid provType col
      = match type col, provType with
        | string_t, VStr _ => true
        | boolean_t, VBool _ => true
        | boolean_t, VNum n => number_eqb n (Int 0) || number_eqb n (Int 1)
        | integer_t, VNum n => Number_isSafeInteger n
        | number_t, VNum n => Number_isFinite n
        | json_t, _ => js_type_eqb (typeof provType) TyObject
        | blob_t, _ => is_Uint8Array provType
        | _, _ => false
        end).
Proof.
  unfold isProvidedTypeValid.
  split; [|split; [|split; [|split; [|split; [|split; [|split; [|split;
    [|split; [|split]]]]]]]]].
  - intros -> ->. reflexivity.
  - intros n -> Hfin. rewrite Hfin. simpl. rewrite andb_false_r. reflexivity.
  - intros n -> ->. simpl. rewrite andb_false_r.
    destruct n; reflexivity.
  - intros b -> ->. simpl. rewrite andb_false_r. reflexivity.
  - intros n -> ->. simpl. rewrite andb_false_r.
    destruct n as [ | neg | z | m e]; try reflexivity.
  - intros -> Hnull. rewrite Hnull, andb_false_r.
    destruct provType; try discriminate Hnull; try reflexivity.
    destruct (Number_isFinite n); reflexivity.
  - intros -> Hnull. rewrite Hnull, andb_false_r.
    destruct provType; try discriminate Hnull; try reflexivity.
    destruct (Number_isFinite n); reflexivity.
  - intros Hnull -> Hjson.
    destruct provType; try discriminate Hnull; simpl;
      destruct (type col); try reflexivity;
      destruct Hjson as [Hjson | Hjson]; congruence.
  - intros ->. simpl. destruct (type col); reflexivity.
  - intros Hnull Hty.
    destruct provType; try discriminate Hnull; try discriminate Hty.
    simpl. rewrite andb_true_r.
    destruct (nullable col); [reflexivity|].
    destruct (type col); reflexivity.
  - intros Hnull. rewrite Hnull, andb_false_r.
    destruct provType; try discriminate Hnull;
      destruct (type col); try reflexivity;
      try (destruct (Number_isFinite n) eqn:Efin; try reflexivity).
    all: destruct n; try reflexivity; try discriminate Efin.
Qed.

Lemma isProvidedTypeValid_guard_witness :
  isProvidedTypeValid VUndefined Sample.meta_column = false
  /\ isProvidedTypeValid VNull Sample.meta_column = true
  /\ isProvidedTypeValid VUndefined Sample.id_column = false.
Proof.
  destruct (isProvidedTypeValid_guard VUndefined Sample.meta_column)
    as [_ [_ [_ [_ [_ [_ [_ [Hundefined [Hnull _]]]]]]]]].
  split; [|split].
  - apply Hundefined; [reflexivity | reflexivity | right; reflexivity].
  - rewrite (Hnull eq_refl). reflexivity.
  - apply (proj1 (proj2 (proj2 (proj2 (proj2 (proj2 (proj2 (proj2 (proj2
             (proj2 (isProvidedTypeValid_guard VUndefined
                       Sample.id_column)))))))))));
      reflexivity.
Defined.

(** *** Aggregates *)

(** The clauses of an aggregate statement come in the order select,
    where, group by, having, order by, limit, offset, and the parameters
    are those of [where] followed by those of [having]. *)
Lemma buildAggregateQuery_clauses {host : Host} (q : AggregateSelectQuery)
    (m : Model) :
  let head := "SELECT " ++ a_select q ++ " FROM " ++ qualified m in
  query (buildAggregateQuery q m)
  = join " " ((head :: whereFragment (a_where q)) ++ groupFragment (a_group q)
              ++ havingFragment (a_having q) ++ orderFragment (a_order q)
              ++ limitFragment (a_limit q) ++ offsetFragment (a_offset q))%list
  /\ params (buildAggregateQuery q m)
     = ((match a_where q with Some w => values_or_empty w | None => [] end)
        ++ (match a_having q with Some h => values_or_empty h | None => [] end))%list.
Proof. split; reflexivity. Qed.

Lemma buildAggregateQuery_head {host : Host} (q : AggregateSelectQuery)
    (m : Model) :
  exists rest,
    query (buildAggregateQuery q m)
    = ("SELECT " ++ a_select q ++ " FROM " ++ qualified m) ++ rest.
Proof.
  unfold buildAggregateQuery. cbv zeta. cbn [query].
  rewrite <- app_comm_cons, app_nil_l, join_cons.
  eexists. reflexivity.
Qed.

(** A limit or an offset is written exactly when it is given and is
    neither zero nor not-a-number. *)
Lemma limitFragment_written {host : Host} (n : option number) :
  limitFragment n <> [] <->
  exists x, n = Some x /\ x <> Int 0 /\ x <> NaN.
Proof.
  unfold limitFragment. split.
  - destruct n as [x|]; [|congruence]. intro H. exists x.
    split; [reflexivity|]. split; intros ->; simpl in H; congruence.
  - intros [x [-> [H0 Hnan]]].
    destruct x as [ | neg | z | m e]; simpl; try discriminate; try congruence.
    destruct (Z.eqb_spec z 0) as [->|]; simpl; [congruence | discriminate].
Qed.

(** C7, at an aggregate limited to zero rows: the limit is given and
    the statement has no [LIMIT] clause. *)
Theorem buildAggregateQuery_drops_limit_zero {host : Host} :
  a_limit Sample.count_none = Some (Int 0)
  /\ query (buildAggregateQuery Sample.count_none Sample.users)
     = "SELECT COUNT(*) FROM main.'users' GROUP BY name".
Proof. split; reflexivity. Qed.

(** *** The database a statement names *)

(** C10.  Select, delete, count and aggregate statements name the table
    as [<database>.'<tableName>']; insert and update statements name
    ['<tableName>'] alone and are the same whatever the database of the
    model.  So for the model of a table in an attached database, the
    select statement names that database while the insert and update
    statements are those of the same table in [main]. *)
Theorem statements_and_their_database {host : Host} (m : Model)
    (q : SelectQuery) (w : WhereClause) (a : AggregateSelectQuery)
    (data : list (string * value)) :
  query (buildSelectQuery q m)
  = "SELECT * FROM " ++ database m ++ "." ++ squote ++ tableName m ++ squote
    ++ " " ++ query (buildBaseFilterQuery q)
  /\ query (buildDeleteQuery q m)
     = "DELETE FROM " ++ database m ++ "." ++ squote ++ tableName m ++ squote
       ++ " " ++ query (buildBaseFilterQuery q)
  /\ query (buildCountWhereQuery w m)
     = "SELECT COUNT(*) FROM " ++ database m ++ "." ++ squote ++ tableName m
       ++ squote ++ " WHERE " ++ clause w
  /\ (exists rest,
        query (buildAggregateQuery a m)
        = "SELECT " ++ a_select a ++ " FROM " ++ database m ++ "." ++ squote
          ++ tableName m ++ squote ++ rest)
  /\ (forall built, buildInsertQuery m data = Ok built ->
        exists rest,
          query built = "INSERT INTO " ++ squote ++ tableName m ++ squote ++ rest)
  /\ (forall built, buildUpdateQuery m data = Ok built ->
        exists rest,
          query built = "UPDATE " ++ squote ++ tableName m ++ squote ++ rest)
  /\ (forall db, buildInsertQuery (in_database db m) data = buildInsertQuery m data)
  /\ (forall db, buildUpdateQuery (in_database db m) data = buildUpdateQuery m data)
  /\ (database Sample.archived_users <> "main"
      /\ query (buildSelectQuery q Sample.archived_users)
         <> query (buildSelectQuery q (in_database "main" Sample.archived_users))
      /\ buildInsertQuery Sample.archived_users data
         = buildInsertQuery (in_database "main" Sample.archived_users) data
      /\ buildUpdateQuery Sample.archived_users data
         = buildUpdateQuery (in_database "main" Sample.archived_users) data).
Proof.
  assert (Hins : forall m' db,
            buildInsertQuery (in_database db m') data = buildInsertQuery m' data).
  { intros m' db. unfold buildInsertQuery.
    assert (E : forall l cols ps,
               insertLoop (in_database db m') l cols ps = insertLoop m' l cols ps).
    { induction l as [|[k v] rest IH]; intros cols ps; simpl; [reflexivity|].
      unfold findColumn. simpl.
      destruct (find _ (columns m')) as [c|]; [|reflexivity].
      destruct (isPrimaryKey c && autoIncrement c); apply IH. }
    rewrite E. reflexivity. }
  assert (Hupd : forall m' db,
            buildUpdateQuery (in_database db m') data = buildUpdateQuery m' data).
  { intros m' db. unfold buildUpdateQuery.
    assert (E : forall l st,
               updateLoop (in_database db m') l st = updateLoop m' l st).
    { induction l as [|[k v] rest IH]; intro st; simpl; [reflexivity|].
      unfold findColumn. simpl.
      destruct (find _ (columns m')) as [c|]; [|reflexivity].
      destruct (isPrimaryKey c); apply IH. }
    rewrite E. reflexivity. }
  split; [|split; [|split; [|split; [|split; [|split; [|split; [|split]]]]]]].
  - unfold buildSelectQuery, qualified. cbn [query]. normalize_append.
  - unfold buildDeleteQuery, qualified. cbn [query]. normalize_append.
  - unfold buildCountWhereQuery, qualified. cbn [query]. normalize_append.
  - destruct (buildAggregateQuery_head a m) as [rest E]. exists rest.
    rewrite E. unfold qualified. normalize_append.
  - intros built H. unfold buildInsertQuery in H.
    destruct (insertLoop m data [] []) as [[cols ps]|]; [|discriminate H].
    unfold bind in H. injection H as <-. cbn [query]. eexists. normalize_append.
  - intros built H. unfold buildUpdateQuery in H.
    destruct (updateLoop m data _) as [st|]; [|discriminate H].
    unfold bind in H. injection H as <-. cbn [query]. eexists. normalize_append.
  - apply Hins.
  - apply Hupd.
  - split; [discriminate|].
    split; [|split; [symmetry; apply Hins | symmetry; apply Hupd]].
    simpl. discriminate.
Qed.

Lemma statements_and_their_database_witness :
  query (buildSelectQuery (host := Example.host)
           {| q_where := None; q_order := None; q_limit := Some (Int 1);
              q_offset := None |} Sample.archived_users)
  = "SELECT * FROM archive.'users' LIMIT 1"
  /\ exists rest,
       query {| query := "INSERT INTO 'users' (meta_json) VALUES (?)";
                params := [VStr "{}"] |}
       = "INSERT INTO " ++ squote ++ "users" ++ squote ++ rest.
Proof.
  destruct (statements_and_their_database (host := Example.host)
              Sample.archived_users
              {| q_where := None; q_order := None; q_limit := Some (Int 1);
                 q_offset := None |}
              {| clause := "1 = 1"; values := None |}
              Sample.count_none
              [("id", VNum (Int 7)); ("meta_json", VStr "{}")])
    as [Hsel [_ [_ [_ [Hins _]]]]].
  split.
  - rewrite Hsel. reflexivity.
  - apply (Hins {| query := "INSERT INTO 'users' (meta_json) VALUES (?)";
                   params := [VStr "{}"] |}).
    reflexivity.
Defined.

End QueryFacts.

(** ** The model snapshot *)

Module ModelReaderFacts.
Import ModelReader.
Local Open Scope string_scope.

(** C8, as stated, at a legacy file with a model whose class is named
    [version]: the file is a bare mapping from model names to models,
    and it is refused with the unknown-version error, because the test
    for a versioned file is the presence of the key [version]. *)
Lemma legacy_model_named_version_is_refused :
  ~ (forall (fs : string -> snapshot_file) (dbPath : string)
            (props : list (string * json)),
       fs (dbPath ++ ".model.json") = Parsed (JObj props) ->
       forallb (fun kv => match snd kv with
                          | JObj model =>
                              match get "tableName" model, get "columns" model with
                              | Some (JStr _), Some (JArr _) => true
                              | _, _ => false
                              end
                          | _ => false
                          end) props = true ->
       read (host := Example.host) fs dbPath = Ok (Some (JObj props))).
Proof.
  intro H.
  specialize (H (fun _ => Parsed (JObj [("version",
                                         JObj [("tableName", JStr "version");
                                               ("columns", JArr []);
                                               ("database", JStr "main")])]))
                "app.db"
                [("version", JObj [("tableName", JStr "version");
                                   ("columns", JArr []);
                                   ("database", JStr "main")])]
                eq_refl eq_refl).
  vm_compute in H. discriminate H.
Qed.

(** C8, amended.  Reading the snapshot kept beside the database at
    [dbPath]: an object with [version] 1 gives its [models]; an object
    without a key [version], which a legacy mapping from model names to
    models is when no model is named [version], gives the object itself;
    an object with any other [version] throws the unknown-version
    error; a file that is missing or is not JSON gives the empty object
    without an exception; and writing puts the text of the object with
    [version] 1 and the models at the path that reading reads. *)
Theorem read_snapshot {host : Host} (fs : string -> snapshot_file)
    (dbPath : string) :
  (forall props M,
     fs (dbPath ++ ".model.json") = Parsed (JObj props) ->
     get "version" props = Some (JNum (Int 1)) ->
     get "models" props = Some M ->
     read fs dbPath = Ok (Some M))
  /\ (forall props,
        fs (dbPath ++ ".model.json") = Parsed (JObj props) ->
        get "version" props = None ->
        read fs dbPath = Ok (Some (JObj props)))
  /\ (forall props v,
        fs (dbPath ++ ".model.json") = Parsed (JObj props) ->
        get "version" props = Some v -> v <> JNum (Int 1) ->
        read fs dbPath
        = Throw (Error ("unknown version for models " ++ dbPath ++ ".model.json")))
  /\ (fs (dbPath ++ ".model.json") = Absent
      \/ (exists text, fs (dbPath ++ ".model.json") = Unparseable text) ->
      read fs dbPath = Ok (Some (JObj [])))
  /\ (forall (stringify_indented : json -> string) (models : json)
             (disk : ModelWriter.files),
        ModelWriter.write stringify_indented models dbPath disk
          (dbPath ++ ".model.json")
        = Some (stringify_indented
                  (JObj [("version", JNum (Int 1)); ("models", models)]))).
Proof.
  unfold read. repeat split.
  - intros props M -> Hv HM. simpl. rewrite Hv. simpl. rewrite Hv. simpl.
    exact (f_equal Ok HM).
  - intros props -> Hv. simpl. rewrite Hv. reflexivity.
  - intros props v -> Hv Hne. simpl. rewrite Hv. simpl. rewrite Hv. simpl.
    destruct v as [ | b | n | s | items | ps]; try reflexivity.
    destruct n as [ | neg | z | m e]; try reflexivity.
    destruct z as [ | p | p]; try reflexivity.
    destruct p; try reflexivity. congruence.
  - intros [-> | [text ->]]; reflexivity.
  - intros stringify_indented models disk.
    unfold ModelWriter.write, ModelWriter.writeFileSync.
    now rewrite String.eqb_refl.
Qed.

Lemma read_snapshot_witness :
  read (host := Example.host)
    (fun _ => Parsed (JObj [("version", JNum (Int 1));
                            ("models", JObj [("User", JObj [])])])) "app.db"
  = Ok (Some (JObj [("User", JObj [])]))
  /\ read (host := Example.host)
       (fun _ => Parsed (JObj [("User", JObj [])])) "app.db"
     = Ok (Some (JObj [("User", JObj [])]))
  /\ throws (read (host := Example.host)
               (fun _ => Parsed (JObj [("version", JNum (Int 2));
                                       ("models", JObj [])])) "app.db")
  /\ read (host := Example.host) (fun _ => Absent) "app.db" = Ok (Some (JObj [])).
Proof.
  split; [|split; [|split]].
  - apply (proj1 (read_snapshot (host := Example.host) _ "app.db")
             [("version", JNum (Int 1)); ("models", JObj [("User", JObj [])])]);
      reflexivity.
  - apply (proj1 (proj2 (read_snapshot (host := Example.host) _ "app.db")));
      reflexivity.
  - eexists.
    apply (proj1 (proj2 (proj2 (read_snapshot (host := Example.host) _ "app.db")))
             [("version", JNum (Int 2)); ("models", JObj [])] (JNum (Int 2)));
      [reflexivity | reflexivity | discriminate].
  - apply (proj1 (proj2 (proj2 (proj2 (read_snapshot (host := Example.host)
                                         _ "app.db"))))).
    left. reflexivity.
Defined.

End ModelReaderFacts.

(** ** The storage boundary *)

Module SqliteOrmFacts.
Import SqliteOrm.
Local Open Scope string_scope.

Lemma get_obj_set_same {A} (props : list (string * A)) (key : string) (v : A) :
  get key (obj_set props key v) = Some v.
Proof.
  induction props as [|[k x] rest IH]; simpl.
  - now rewrite String.eqb_refl.
  - destruct (String.eqb k key) eqn:E; simpl; rewrite E; [reflexivity | exact IH].
Qed.

Section WithHost.
Context {host : Host}.
Variable reg : registry.


(** The loop of [save] on columns with pairwise different physical
    names, each of whose values is accepted: the row has one entry per
    column, in the order of the columns. *)
Lemma builtDataLoop_entries (cols : list TableColumn) (obj : list (string * value))
    (f : TableColumn -> value) (acc : list (string * value)) :
  NoDup (map physical cols) ->
  (forall k, In k (map physical cols) -> ~ In k (map fst acc)) ->
  (forall col, In col cols ->
               serialize reg (property obj (name col)) (type col) = Ok (f col)) ->
  builtDataLoop reg cols obj acc
  = Ok (acc ++ map (fun col => (physical col, f col)) cols)%list.
Proof.
  revert acc. induction cols as [|col rest IH]; intros acc Hnd Hfresh Hser.
  - simpl. now rewrite app_nil_r.
  - simpl. rewrite (Hser col (or_introl eq_refl)). simpl bind.
    inversion Hnd as [|? ? Hcol Hrest]; subst.
    rewrite JsonFacts.obj_set_fresh by (apply Hfresh; now left).
    rewrite IH.
    + now rewrite <- app_assoc.
    + exact Hrest.
    + intros k Hk Hin. rewrite map_app, in_app_iff in Hin.
      destruct Hin as [Hin | [<- | []]].
      * apply (Hfresh k); [now right | exact Hin].
      * contradiction.
    + intros c Hc. apply Hser. now right.
Qed.


End WithHost.


End SqliteOrmFacts.

(** ** More on the value codec *)

Module JsonMore.
Import Json JsonFacts.
Local Open Scope string_scope.

Lemma json_ind' (P : json -> Prop) :
  P JNull -> (forall b, P (JBool b)) -> (forall n, P (JNum n)) ->
  (forall s, P (JStr s)) ->
  (forall items, Forall P items -> P (JArr items)) ->
  (forall props, Forall (fun kv => P (snd kv)) props -> P (JObj props)) ->
  forall j, P j.
Proof.
  intros Hn Hb Hnum Hs Harr Hobj.
  fix IH 1. intros [ | b | n | s | items | props].
  - exact Hn.
  - apply Hb.
  - apply Hnum.
  - apply Hs.
  - apply Harr. induction items as [|x l IHl]; constructor; [apply IH | exact IHl].
  - apply Hobj. induction props as [|[k x] l IHl]; constructor; [apply IH | exact IHl].
Qed.

Lemma obj_set_keys {A} (props : list (string * A)) (key : string) (v : A) (k : string) :
  In k (map fst (obj_set props key v)) <-> In k (map fst props) \/ k = key.
Proof.
  induction props as [|[k' x] rest IH]; simpl.
  - split; [intros [<-|[]]; now right | intros [[] | ->]; now left].
  - destruct (String.eqb k' key) eqn:E; simpl.
    + apply String.eqb_eq in E. subst k'. split; [tauto|].
      intros [[H|H]|H]; [now left | now right | left; now symmetry].
    + rewrite IH. tauto.
Qed.

Lemma obj_set_values {A} (P : A -> Prop) (props : list (string * A))
    (key : string) (v : A) :
  Forall (fun kv => P (snd kv)) props -> P v ->
  Forall (fun kv => P (snd kv)) (obj_set props key v).
Proof.
  intros Hprops Hv. induction Hprops as [|[k x] rest Hx Hrest IH]; simpl.
  - repeat constructor. exact Hv.
  - destruct (String.eqb k key); constructor; simpl in *; assumption.
Qed.

Section Writing.
Variable reg : registry.

Lemma jsonify_array_length (write : value -> result json) (items : list value)
    (js : list json) :
  jsonify_array write items = Ok js ->
  length js = length (filter isSerializable items).
Proof.
  revert js. induction items as [|v rest IH]; intros js H.
  - injection H as <-. reflexivity.
  - rewrite jsonify_array_cons in H. simpl.
    destruct (isSerializable v); simpl in H.
    + destruct (write v) as [j|]; [|discriminate H]. simpl in H.
      destruct (jsonify_array write rest) as [js'|]; [|discriminate H].
      injection H as <-. simpl. f_equal. now apply IH.
    + now apply IH.
Qed.

Lemma jsonify_object_keys (write : value -> result json) (ignored : list string)
    (props : list (string * value)) (parsed out : list (string * json)) :
  jsonify_object write ignored props parsed = Ok out ->
  forall k, In k (map fst out) <->
            In k (map fst parsed)
            \/ exists v, In (k, v) props /\ isSerializable v = true
                         /\ ~ In k ignored /\ k <> proto.
Proof.
  revert parsed. induction props as [|[key v] rest IH]; intros parsed H k.
  - injection H as <-. split; [tauto | intros [H|[v [[] _]]]; exact H].
  - rewrite jsonify_object_cons in H.
    assert (Hskip : jsonify_object write ignored rest parsed = Ok out ->
                    (isSerializable v = false \/ In key ignored \/ key = proto) ->
                    In k (map fst out) <->
                    In k (map fst parsed)
                    \/ exists v0, In (k, v0) ((key, v) :: rest)
                                  /\ isSerializable v0 = true /\ ~ In k ignored
                                  /\ k <> proto).
    { intros Hrest Hwhy. rewrite (IH _ Hrest k). split.
      - intros [Hp|[v0 [Hin Hv0]]]; [now left|].
        right. exists v0. split; [now right | exact Hv0].
      - intros [Hp|[v0 [[Heq|Hin] [Hser [Hign Hne]]]]]; [now left| |].
        + injection Heq as -> ->.
          destruct Hwhy as [Hw|[Hw|Hw]]; [congruence | contradiction | contradiction].
        + right. exists v0. tauto. }
    destruct (isSerializable v) eqn:Eser; cbn [negb] in H; [|apply Hskip; tauto].
    destruct (existsb (String.eqb key) ignored) eqn:Eign.
    { apply Hskip; [exact H|]. right. left. now apply existsb_eqb_In. }
    destruct (write v) as [j|]; [|discriminate H]. cbn [bind] in H.
    destruct (String.eqb key proto) eqn:Eproto.
    { apply String.eqb_eq in Eproto. subst key. rewrite set_property_proto in H.
      apply Hskip; [exact H|]. right. now right. }
    assert (Hne : key <> proto)
      by (intros ->; now rewrite String.eqb_refl in Eproto).
    rewrite set_property_other in H by exact Hne.
    rewrite (IH _ H k), obj_set_keys. split.
    + intros [[Hp| ->]|[v0 [Hin Hv0]]].
      * now left.
      * right. exists v. split; [now left|]. split; [exact Eser|].
        split; [|exact Hne].
        intro Hin. apply existsb_eqb_In in Hin. congruence.
      * right. exists v0. split; [now right | exact Hv0].
    + intros [Hp|[v0 [[Heq|Hin] Hv0]]].
      * left. now left.
      * injection Heq as -> ->. left. now right.
      * right. exists v0. tauto.
Qed.

(** X1.  [jsonify] throws on [null] and [undefined] and on nothing
    else; on an array it writes one item for each item that is not a
    bigint, a function or a symbol; on a plain object the properties it
    writes are those whose value is not one of these and whose name is
    neither ignored nor [__proto__]. *)
Theorem jsonify_writes_what_it_can (obj : value) (ignored : list string) :
  (is_nullish obj = true ->
   jsonify reg obj ignored
   = Throw (TypeError "Cannot convert undefined or null to object"))
  /\ (is_nullish obj = false -> returns (jsonify reg obj ignored))
  /\ (forall items, obj = VArray items ->
        exists js, jsonify reg obj ignored = Ok (JArr js)
                   /\ length js = length (filter isSerializable items))
  /\ (forall props, obj = VObject props ->
        exists out, jsonify reg obj ignored = Ok (JObj out)
                    /\ forall k, In k (map fst out) <->
                                 exists v, In (k, v) props
                                           /\ isSerializable v = true
                                           /\ ~ In k ignored
                                           /\ k <> proto).
Proof.
  split; [|split; [|split]].
  - destruct obj; intro H; try discriminate H; reflexivity.
  - apply jsonify_returns.
  - intros items ->.
    destruct (jsonify_returns reg (VArray items) ignored eq_refl) as [j Hj].
    simpl in Hj. destruct (jsonify_array (writeValue reg) items) as [js|] eqn:E;
      [|discriminate Hj].
    exists js. split; [simpl; now rewrite E|].
    now apply jsonify_array_length in E.
  - intros props ->.
    destruct (jsonify_returns reg (VObject props) ignored eq_refl) as [j Hj].
    simpl in Hj.
    destruct (jsonify_object (writeValue reg) ignored props []) as [out|] eqn:E;
      [|discriminate Hj].
    exists out. split; [simpl; now rewrite E|].
    intro k. rewrite (jsonify_object_keys _ _ _ _ _ E k). simpl. tauto.
Qed.

End Writing.

Lemma jsonify_writes_what_it_can_witness :
  returns (jsonify [] (VObject [("f", VFunction); ("a", VNum (Int 1))]) []).
Proof.
  apply (jsonify_writes_what_it_can []
           (VObject [("f", VFunction); ("a", VNum (Int 1))]) []).
  reflexivity.
Defined.

Section Reading.
Context {host : Host}.
Variable reg : registry.
Variable compatMode : bool.

Local Notation "'readable' j" := (returns (readValue reg compatMode j))
  (at level 10, j at level 9).

Lemma jsonify_array_readable (items : list value) (js : list json) :
  Forall (fun v => forall j, writeValue reg v = Ok j -> readable j) items ->
  jsonify_array (writeValue reg) items = Ok js ->
  Forall (fun j => readable j) js.
Proof.
  intro H. revert js. induction H as [|v rest Hv _ IH]; intros js Hjs.
  - injection Hjs as <-. constructor.
  - rewrite jsonify_array_cons in Hjs.
    destruct (isSerializable v); simpl in Hjs; [|now apply IH].
    destruct (writeValue reg v) as [j|] eqn:Ej; [|discriminate Hjs]. simpl in Hjs.
    destruct (jsonify_array (writeValue reg) rest) as [js'|]; [|discriminate Hjs].
    injection Hjs as <-. constructor; [apply Hv; reflexivity | now apply IH].
Qed.

Lemma jsonify_object_readable (write : value -> result json)
    (ignored : list string) (props : list (string * value))
    (parsed out : list (string * json)) :
  Forall (fun kv => forall j, write (snd kv) = Ok j -> readable j) props ->
  Forall (fun kj => readable (snd kj)) parsed ->
  jsonify_object write ignored props parsed = Ok out ->
  Forall (fun kj => readable (snd kj)) out.
Proof.
  intro H. revert parsed. induction H as [|[k v] rest Hv _ IH]; intros parsed Hp Hout.
  - injection Hout as <-. exact Hp.
  - rewrite jsonify_object_cons in Hout. simpl in Hv.
    destruct (isSerializable v); simpl in Hout; [|now apply (IH parsed)].
    destruct (existsb (String.eqb k) ignored); [now apply (IH parsed)|].
    destruct (write v) as [j|] eqn:Ej; [|discriminate Hout]. simpl in Hout.
    apply (IH (set_property parsed k j)); [|exact Hout].
    unfold set_property. destruct (String.eqb k proto); [exact Hp|].
    apply (obj_set_values (fun x => returns (readValue reg compatMode x)));
      [exact Hp | apply Hv; reflexivity].
Qed.

Lemma jsonify_entries_readable (entries : list (value * value)) (js : list json) :
  Forall (fun kv => (forall j, writeValue reg (fst kv) = Ok j -> readable j)
                    /\ (forall j, writeValue reg (snd kv) = Ok j -> readable j))
         entries ->
  jsonify_entries (writeValue reg) entries = Ok js ->
  Forall (fun j => exists sub, j = JArr sub /\ Forall (fun x => readable x) sub) js.
Proof.
  intro H. revert js. induction H as [|[k v] rest [Hk Hv] _ IH]; intros js Hjs.
  - injection Hjs as <-. constructor.
  - rewrite jsonify_entries_cons in Hjs. simpl in Hk, Hv.
    destruct (jsonify_array (writeValue reg) [k; v]) as [sub|] eqn:Esub;
      [|discriminate Hjs].
    simpl in Hjs.
    destruct (jsonify_entries (writeValue reg) rest) as [js'|]; [|discriminate Hjs].
    injection Hjs as <-. constructor; [|now apply IH].
    exists sub. split; [reflexivity|].
    apply (jsonify_array_readable [k; v]); [|exact Esub].
    repeat constructor; assumption.
Qed.

Lemma traverse_arrays (js : list json) :
  Forall (fun j => exists sub, j = JArr sub /\ Forall (fun x => readable x) sub) js ->
  exists items, traverse (readValue reg compatMode) js = Ok items
                /\ Forall (fun x => exists l, x = VArray l) items.
Proof.
  induction 1 as [|j rest [sub [-> Hsub]] _ [items [Hitems Harr]]].
  - exists []. split; [reflexivity | constructor].
  - destruct (traverse_returns _ _ Hsub) as [l Hl].
    exists (VArray l :: items). split.
    + simpl. rewrite Hl. simpl. rewrite Hitems. reflexivity.
    + constructor; [now exists l | exact Harr].
Qed.

Lemma Map_of_items_arrays (items : list value) (acc : list (value * value)) :
  Forall (fun x => exists l, x = VArray l) items ->
  returns (Map_of_items acc items).
Proof.
  intro H. revert acc. induction H as [|x rest [l ->] _ IH]; intro acc.
  - eexists; reflexivity.
  - simpl. apply IH.
Qed.

Lemma indexed_from_written (bytes : list byte) (i : nat) :
  Forall (fun kv : string * value =>
            forall j, writeNumber (snd kv) = Ok j -> readable j)
         (indexed_from i (map byte_value bytes)).
Proof.
  revert i. induction bytes as [|b rest IH]; intro i; simpl; constructor.
  - simpl. intros j Hj. injection Hj as <-. eexists; reflexivity.
  - apply IH.
Qed.

Lemma custom_tag_folded (nm : string) :
  String "c"%char (String "u"%char (String "s"%char (String "t"%char
    (String "o"%char (String "m"%char (String "-"%char nm))))))
  = "custom-" ++ nm.
Proof. reflexivity. Qed.

(** Every object [writeValue] writes carries a tag that [readValue]
    knows, with data that it can read. *)
Lemma writeValue_readable (v : value) (j : json) :
  writeValue reg v = Ok j -> readable j.
Proof.
  revert j. induction v using value_ind; intros j Hj;
    try (simpl in Hj; injection Hj as <-; eexists; reflexivity);
    try discriminate Hj.
  - (* array *)
    simpl in Hj. destruct (jsonify_array (writeValue reg) items) as [js|] eqn:E;
      [|discriminate Hj].
    injection Hj as <-. simpl.
    destruct (traverse_returns _ _ (jsonify_array_readable _ _ H E)) as [l ->].
    eexists; reflexivity.
  - (* object *)
    simpl in Hj.
    destruct (jsonify_object (writeValue reg) [] props []) as [out|] eqn:E;
      [|discriminate Hj].
    injection Hj as <-. unfold envelope. rewrite readValue_object. simpl.
    destruct (dejsonify_object_returns (readValue reg compatMode) out []
                (jsonify_object_readable _ _ _ _ _ H (Forall_nil _) E)) as [l ->].
    eexists; reflexivity.
  - (* map *)
    simpl in Hj.
    destruct (jsonify_entries (writeValue reg) entries) as [js|] eqn:E;
      [|discriminate Hj].
    injection Hj as <-. unfold envelope. rewrite readValue_object. simpl.
    destruct (traverse_arrays _ (jsonify_entries_readable _ _ H E))
      as [items [-> Harr]].
    simpl. destruct (Map_of_items_arrays items [] Harr) as [es ->].
    eexists; reflexivity.
  - (* typed array *)
    simpl in Hj.
    destruct (jsonify_object writeNumber [] (indexed (map byte_value bytes)) [])
      as [out|] eqn:E; [|discriminate Hj].
    injection Hj as <-. unfold envelope. rewrite readValue_object. simpl.
    destruct (dejsonify_object_returns (readValue reg compatMode) out []
                (jsonify_object_readable _ _ _ _ _
                   (indexed_from_written bytes 0) (Forall_nil _) E)) as [l ->].
    eexists; reflexivity.
  - (* instance *)
    cbn [writeValue] in Hj.
    change (find (fun c => instanceof (VInstance chain props) (classRef c)) reg)
      with (written_as reg chain) in Hj.
    destruct (written_as reg chain) as [clas|] eqn:Ewr.
    + destruct (jsonify_object (writeValue reg) (ignoredProps clas) props [])
        as [out|] eqn:E; [|discriminate Hj].
      injection Hj as <-. unfold envelope. rewrite readValue_object.
      rewrite (custom_tag_folded (class_name (classRef clas))).
      change (get "type" [("data", JObj out);
                          ("type", JStr ("custom-" ++ class_name (classRef clas)))])
        with (Some (JStr ("custom-" ++ class_name (classRef clas)))).
      change (get "data" [("data", JObj out);
                          ("type", JStr ("custom-" ++ class_name (classRef clas)))])
        with (Some (JObj out)).
      destruct (custom_tag_is_custom (class_name (classRef clas)))
        as [E1 [E2 [E3 E4]]].
      destruct (read_as_written _ _ _ Ewr) as [clas' Erd].
      cbv iota. rewrite E1, E2, E3, E4, custom_name_of_tag, Erd.
      unfold dejsonify_with.
      destruct (dejsonify_object_returns (readValue reg compatMode) out []
                  (jsonify_object_readable _ _ _ _ _ H (Forall_nil _) E)) as [l ->].
      eexists; reflexivity.
    + destruct (jsonify_object (writeValue reg) [] props []) as [out|] eqn:E;
        [|discriminate Hj].
      injection Hj as <-. unfold envelope. rewrite readValue_object. simpl.
      destruct (dejsonify_object_returns (readValue reg compatMode) out []
                  (jsonify_object_readable _ _ _ _ _ H (Forall_nil _) E)) as [l ->].
      eexists; reflexivity.
Qed.

(** What [jsonify] returned, [dejsonify] reads. *)
Lemma jsonify_readable (obj : value) (ignored : list string) (j : json) :
  jsonify reg obj ignored = Ok j -> returns (dejsonify reg compatMode j).
Proof.
  intro Hj.
  assert (Hall : forall l : list (string * value),
            Forall (fun kv => forall j, writeValue reg (snd kv) = Ok j -> readable j) l).
  { intro l. apply Forall_forall. intros kv _. apply writeValue_readable. }
  assert (Hobjs : forall l out,
            jsonify_object (writeValue reg) ignored l [] = Ok out ->
            returns (dejsonify reg compatMode (JObj out))).
  { intros l out E. unfold dejsonify, dejsonify_with.
    destruct (dejsonify_object_returns (readValue reg compatMode) out []
                (jsonify_object_readable _ _ _ _ _ (Hall l) (Forall_nil _) E))
      as [res ->].
    eexists; reflexivity. }
  assert (Hents : forall ents,
            fmap JObj (jsonify_object (writeValue reg) ignored ents []) = Ok j ->
            returns (dejsonify reg compatMode j)).
  { intros ents H.
    destruct (jsonify_object (writeValue reg) ignored ents []) as [out|] eqn:E;
      [|discriminate H].
    injection H as <-. exact (Hobjs _ _ E). }
  unfold jsonify in Hj.
  destruct obj as [| |b|n|s|z| | |items|props|entries|bytes|bytes|chain props];
    try (match type of Hj with
         | bind ?r _ = _ =>
             destruct r as [ents|e] eqn:Eo;
             [exact (Hents _ Hj) | discriminate Hj]
         end).
  destruct (jsonify_array (writeValue reg) items) as [js|] eqn:E;
    [|discriminate Hj].
  injection Hj as <-.
  change (returns (readValue reg compatMode (JArr js))).
  apply (writeValue_readable (VArray items)). simpl. now rewrite E.
Qed.

(** X2.  Whatever [jsonify] is given that is not [null] or [undefined],
    it returns, and [dejsonify] reads what it returned without an
    exception, with compatibility mode on or off. *)
Theorem dejsonify_reads_what_jsonify_wrote (obj : value) (ignored : list string) :
  is_nullish obj = false ->
  exists j v, jsonify reg obj ignored = Ok j
              /\ dejsonify reg compatMode j = Ok v.
Proof.
  intro Hobj.
  destruct (jsonify_returns reg obj ignored Hobj) as [j Hj].
  destruct (jsonify_readable obj ignored j Hj) as [v Hv].
  exists j, v. split; [exact Hj | exact Hv].
Qed.

End Reading.

Lemma dejsonify_reads_what_jsonify_wrote_witness :
  exists j v,
    jsonify Sample.classes (VObject [("s", Sample.session); ("u", VUint8Array [ascii_of_nat 7])]) [] = Ok j
    /\ dejsonify (host := Example.host) Sample.classes false j = Ok v.
Proof.
  apply (dejsonify_reads_what_jsonify_wrote (host := Example.host)
           Sample.classes false
           (VObject [("s", Sample.session); ("u", VUint8Array [ascii_of_nat 7])]) []).
  reflexivity.
Defined.

Section LegacyData.
Context {host : Host}.
Variable reg : registry.

Lemma dejsonify_object_plain (read : json -> result value)
    (props : list (string * json)) (parsed : list (string * value)) :
  Forall (fun kj => read (snd kj) = Ok (Legacy.plain_value (snd kj))) props ->
  NoDup (map fst props) ->
  ~ In proto (map fst props) ->
  (forall k, In k (map fst props) -> ~ In k (map fst parsed)) ->
  dejsonify_object read props parsed
  = Ok (parsed ++ map (fun kv => (fst kv, Legacy.plain_value (snd kv))) props)%list.
Proof.
  intro H. revert parsed.
  induction H as [|[k j] rest Hj _ IH]; intros parsed Hnd Hproto Hfresh.
  - simpl. now rewrite app_nil_r.
  - rewrite dejsonify_object_cons. simpl in Hj. rewrite Hj. simpl bind.
    inversion Hnd as [|? ? Hk Hnd']; subst.
    rewrite set_property_fresh
      by (first [intros ->; apply Hproto; now left | apply Hfresh; now left]).
    rewrite IH.
    + simpl. now rewrite <- app_assoc.
    + exact Hnd'.
    + intro Hin. apply Hproto. now right.
    + intros k' Hin Hin'. rewrite map_app, in_app_iff in Hin'.
      destruct Hin' as [Hin' | [<- | []]].
      * apply (Hfresh k'); [now right | exact Hin'].
      * contradiction.
Qed.

Lemma untagged_object (props : list (string * json)) :
  Legacy.untagged (JObj props) = true ->
  (get "type" props = None \/ get "type" props = Some JNull)
  /\ ~ In proto (map fst props)
  /\ NoDup (map fst props)
  /\ forallb (fun kv => Legacy.untagged (snd kv)) props = true.
Proof.
  cbn [Legacy.untagged]. intro H.
  apply andb_true_iff in H as [H Hall]. apply andb_true_iff in H as [H Hnd].
  apply andb_true_iff in H as [Htag Hproto].
  apply distinct_strings_NoDup in Hnd. apply negb_true_iff in Hproto.
  repeat split; try assumption.
  - destruct (get "type" props) as [[ | | | | | ]|]; try discriminate Htag;
      [now right | now left].
  - intro Hin. apply existsb_eqb_In in Hin. congruence.
Qed.

Lemma readValue_untagged (j : json) :
  Legacy.untagged j = true -> readValue reg true j = Ok (Legacy.plain_value j).
Proof.
  induction j using json_ind'; intro Hu; try reflexivity.
  - (* array *)
    simpl in Hu. simpl.
    assert (E : traverse (readValue reg true) items
                = Ok (map Legacy.plain_value items)).
    { induction H as [|x rest Hx _ IH]; [reflexivity|].
      simpl in Hu. apply andb_true_iff in Hu as [Hx' Hrest].
      simpl. rewrite (Hx Hx'), (IH Hrest). reflexivity. }
    now rewrite E.
  - (* object *)
    destruct (untagged_object _ Hu) as [Htag [Hproto [Hnd Hall]]].
    assert (Hprops : Forall (fun kj => readValue reg true (snd kj)
                                       = Ok (Legacy.plain_value (snd kj))) props).
    { clear Htag Hnd Hproto Hu. induction H as [|[k x] rest Hx _ IH]; constructor.
      - simpl in Hall. apply andb_true_iff in Hall as [Hx' _]. now apply Hx.
      - simpl in Hall. apply andb_true_iff in Hall as [_ Hrest]. now apply IH. }
    assert (Hself : dejsonify reg true (JObj props)
                    = Ok (Legacy.plain_value (JObj props))).
    { unfold dejsonify, dejsonify_with.
      rewrite (dejsonify_object_plain _ _ [] Hprops Hnd Hproto)
        by (intros k _ []).
      reflexivity. }
    rewrite readValue_object. destruct Htag as [-> | ->]; exact Hself.
Qed.

(** X3.  A JSON tree written before the tagging scheme, in which no
    object has a [type] other than [null] or a property named
    [__proto__], is read in compatibility mode as the plain nested
    structure it stands for.  Outside
    compatibility mode reading such an object throws, so that
    [dejsonify] throws on an object or an array that has such an object
    among its properties or items. *)
Theorem untagged_data_needs_compatibility_mode (j : json) :
  Legacy.untagged j = true ->
  readValue reg true j = Ok (Legacy.plain_value j)
  /\ (forall props, j = JObj props ->
        dejsonify reg true j = Ok (Legacy.plain_value j)
        /\ readValue reg false j = Throw (Error "JSON object has a null type")
        /\ (forall k inner, In (k, JObj inner) props ->
                            throws (dejsonify reg false j)))
  /\ (forall items, j = JArr items ->
        dejsonify reg true j = Ok (Legacy.plain_value j)
        /\ (forall inner, In (JObj inner) items -> throws (dejsonify reg false j))).
Proof.
  intro Hu.
  assert (Hstrict : forall props, Legacy.untagged (JObj props) = true ->
            readValue reg false (JObj props)
            = Throw (Error "JSON object has a null type")).
  { intros props H. destruct (untagged_object _ H) as [Htag _].
    rewrite readValue_object. destruct Htag as [-> | ->]; reflexivity. }
  split; [now apply readValue_untagged|]. split.
  - intros props ->. split; [|split].
    + pose proof (readValue_untagged _ Hu) as Hr.
      rewrite readValue_object in Hr.
      destruct (untagged_object _ Hu) as [Htag _].
      destruct Htag as [E | E]; rewrite E in Hr; exact Hr.
    + now apply Hstrict.
    + intros k inner Hin. unfold dejsonify, dejsonify_with.
      assert (Hthrow : throws (dejsonify_object (readValue reg false) props [])).
      { apply (dejsonify_object_throws _ _ _ k (JObj inner) Hin).
        exists (Error "JSON object has a null type"). apply Hstrict.
        destruct (untagged_object _ Hu) as [_ [_ [_ Hall]]].
        rewrite forallb_forall in Hall. exact (Hall _ Hin). }
      destruct Hthrow as [e ->]. exists e. reflexivity.
  - intros items ->. split.
    + exact (readValue_untagged _ Hu).
    + intros inner Hin. unfold dejsonify, dejsonify_with.
      assert (Hthrow : throws (traverse (readValue reg false) items)).
      { simpl in Hu. rewrite forallb_forall in Hu.
        pose proof (Hstrict inner (Hu _ Hin)) as Hinner.
        clear Hu. induction items as [|x rest IH]; [destruct Hin|].
        simpl. destruct (readValue reg false x) as [v|e] eqn:E.
        - destruct Hin as [->|Hin]; [congruence|].
          destruct (IH Hin) as [e ->]. exists e. reflexivity.
        - exists e. reflexivity. }
      destruct Hthrow as [e ->]. exists e. reflexivity.
Qed.

Variable compatMode : bool.

(** X4.  An object tagged [Map], [Buffer], [object] or [custom-...]
    whose [data] is missing or [null] is refused in both modes. *)
Theorem envelope_without_data_is_refused (props : list (string * json))
    (tag : string) :
  get "type" props = Some (JStr tag) ->
  tag = "Map" \/ tag = "Buffer" \/ tag = "object"
  \/ String.prefix "custom-" tag = true ->
  get "data" props = None \/ get "data" props = Some JNull ->
  throws (readValue reg compatMode (JObj props)).
Proof.
  intros Htag Hkind Hdata.
  assert (Hno : dejsonify_with (readValue reg compatMode) (get "data" props)
                = Throw (TypeError "Cannot convert undefined or null to object"))
    by (destruct Hdata as [-> | ->]; reflexivity).
  assert (Hbuf : throws (Buffer_from_base64 (get "data" props)))
    by (destruct Hdata as [-> | ->]; eexists; reflexivity).
  rewrite readValue_object, Htag, Hno.
  destruct (String.eqb tag "Map") eqn:E1; [eexists; reflexivity|].
  destruct (String.eqb tag "Buffer") eqn:E2; [exact Hbuf|].
  destruct (String.eqb tag "object") eqn:E3; [eexists; reflexivity|].
  destruct Hkind as [-> | [-> | [-> | Hpre]]]; try discriminate.
  rewrite Hpre. destruct (read_as reg (custom_name tag)); eexists; reflexivity.
Qed.

End LegacyData.

Lemma untagged_data_needs_compatibility_mode_witness :
  readValue (host := Example.host) [] true (JObj [("a", JObj [("b", JNum (Int 1))])])
  = Ok (VObject [("a", VObject [("b", VNum (Int 1))])]).
Proof.
  apply (untagged_data_needs_compatibility_mode (host := Example.host) []
           (JObj [("a", JObj [("b", JNum (Int 1))])])).
  reflexivity.
Defined.

Lemma envelope_without_data_is_refused_witness :
  throws (readValue (host := Example.host) [] true (JObj [("type", JStr "Map")])).
Proof.
  apply (envelope_without_data_is_refused (host := Example.host) [] true
           [("type", JStr "Map")] "Map").
  - reflexivity.
  - left. reflexivity.
  - left. reflexivity.
Defined.

End JsonMore.

(** ** More on the DDL builder and the schema differ *)

Module BuilderMore.
Import Builder SqliteOrm.
Local Open Scope string_scope.

Lemma slice_0_m1_app (s : string) (c : ascii) :
  slice_0_m1 (s ++ String c EmptyString) = s.
Proof.
  induction s as [|a s IH]; [reflexivity|].
  simpl. rewrite IH. destruct s; reflexivity.
Qed.

Lemma trim_last_app (l : list string) (x : string) :
  trim_last (l ++ [x]) = (l ++ [slice_0_m1 x])%list.
Proof.
  induction l as [|a l IH]; [reflexivity|].
  simpl. rewrite IH. destruct l; reflexivity.
Qed.

Lemma trim_last_single (s : string) : trim_last [s] = [slice_0_m1 s].
Proof. reflexivity. Qed.

Lemma traverse_app {A B} (f : A -> result B) (l1 l2 : list A)
    (r1 r2 : list B) :
  traverse f l1 = Ok r1 -> traverse f l2 = Ok r2 ->
  traverse f (l1 ++ l2) = Ok (r1 ++ r2)%list.
Proof.
  revert r1. induction l1 as [|a l1 IH]; intros r1 H1 H2.
  - injection H1 as <-. exact H2.
  - simpl in *. destruct (f a) as [b|]; [|discriminate H1]. simpl in *.
    destruct (traverse f l1) as [bs|]; [|discriminate H1].
    injection H1 as <-. now rewrite (IH bs eq_refl H2).
Qed.

Lemma traverse_throws {A B} (f : A -> result B) (l : list A) (a : A) :
  In a l -> throws (f a) -> throws (traverse f l).
Proof.
  induction l as [|x l IH]; intros Hin Ha; [destruct Hin|].
  simpl. destruct (f x) as [b|e] eqn:E.
  - destruct Hin as [->|Hin]; [destruct Ha as [e He]; congruence|].
    destruct (IH Hin Ha) as [e ->]. exists e. reflexivity.
  - exists e. reflexivity.
Qed.

Lemma traverse_with_comma {A} (f : A -> result string) (l : list A)
    (qs : list string) :
  traverse f l = Ok qs ->
  traverse (fun a => q <- f a ;; Ok (q ++ ","))%result l
  = Ok (map (fun q => q ++ ",") qs).
Proof.
  revert qs. induction l as [|a l IH]; intros qs H.
  - injection H as <-. reflexivity.
  - simpl in *. destruct (f a) as [q|]; [|discriminate H]. simpl in *.
    destruct (traverse f l) as [qs'|]; [|discriminate H].
    injection H as <-. now rewrite (IH qs' eq_refl).
Qed.

Section WithHost.
Context {host : Host}.
Variable reg : registry.

(** X5.  A column clause is refused exactly when auto-increment is
    asked of a column that is not an integer column, with the error
    that says so; every other column has a clause, whatever its
    default. *)
Theorem buildColumnQuery_refuses_only_auto_increment (column : TableColumn) :
  (autoIncrement column = true -> type column <> integer_t ->
   buildColumnQuery reg column
   = Throw (Error "Auto increment cannot be used on non integer column."))
  /\ ((autoIncrement column = true -> type column = integer_t) ->
      returns (buildColumnQuery reg column))
  /\ (returns (buildColumnQuery reg column) ->
      autoIncrement column = true -> type column = integer_t).
Proof.
  assert (Hthrow : autoIncrement column = true -> type column <> integer_t ->
            buildColumnQuery reg column
            = Throw (Error "Auto increment cannot be used on non integer column.")).
  { intros Hai Hty. unfold buildColumnQuery. rewrite Hai.
    destruct (type column); try contradiction; reflexivity. }
  split; [exact Hthrow|]. split.
  - apply SchemaFacts.buildColumnQuery_returns.
  - intros [q Hq] Hai.
    destruct (type column) eqn:Ety; try reflexivity;
      rewrite Hthrow in Hq by (assumption || congruence); discriminate Hq.
Qed.

(** X6.  The CREATE TABLE statement of a model with columns has the
    clauses of its columns one per line between the opening line and a
    closing parenthesis, each but the last followed by a comma.  For a
    model without columns it is the opening line without its
    parenthesis, followed by the closing one.  It is refused as soon as
    one column is. *)
Theorem buildTableQuery_lines (m : Model) :
  (columns m = [] ->
   buildTableQuery reg m
   = Ok (join newline [("CREATE TABLE " ++ database m ++ "." ++ squote
                        ++ tableName m ++ squote ++ " ")%string; ")"]))
  /\ (forall cs c qs q,
        columns m = (cs ++ [c])%list ->
        traverse (buildColumnQuery reg) cs = Ok qs ->
        buildColumnQuery reg c = Ok q ->
        buildTableQuery reg m
        = Ok (join newline
                ((("CREATE TABLE " ++ database m ++ "." ++ squote
                   ++ tableName m ++ squote ++ " (")%string
                  :: map (fun x => (x ++ ",")%string) qs) ++ [q; ")"])%list))
  /\ (forall c, In c (columns m) -> throws (buildColumnQuery reg c) ->
                throws (buildTableQuery reg m)).
Proof.
  split; [|split].
  - intro Hcols. unfold buildTableQuery. rewrite Hcols.
    change (traverse _ []) with (@Ok (list string) []).
    unfold bind. cbv zeta. rewrite trim_last_single.
    replace ("CREATE TABLE " ++ database m ++ "." ++ squote ++ tableName m
             ++ squote ++ " (")
      with (("CREATE TABLE " ++ database m ++ "." ++ squote ++ tableName m
             ++ squote ++ " ") ++ String "("%char EmptyString)
      by (repeat rewrite append_assoc; reflexivity).
    rewrite slice_0_m1_app. reflexivity.
  - intros cs c qs q Hcols Hqs Hq. unfold buildTableQuery. rewrite Hcols.
    assert (Hlast : traverse (fun column => x <- buildColumnQuery reg column ;;
                                            Ok (x ++ ","))%result [c]
                    = Ok [q ++ ","])
      by (simpl; rewrite Hq; reflexivity).
    rewrite (traverse_app _ _ _ _ _ (traverse_with_comma _ _ _ Hqs) Hlast).
    unfold bind. cbv zeta.
    rewrite app_comm_cons, trim_last_app.
    change (q ++ ",") with (q ++ String ","%char EmptyString).
    rewrite slice_0_m1_app, <- app_assoc. reflexivity.
  - intros c Hin Hc. unfold buildTableQuery.
    assert (Hthrow : throws (traverse (fun column =>
                                x <- buildColumnQuery reg column ;;
                                Ok (x ++ ","))%result (columns m))).
    { apply (traverse_throws _ _ c Hin). destruct Hc as [e ->].
      exists e. reflexivity. }
    destruct Hthrow as [e ->]. exists e. reflexivity.
Qed.

(** A declared column is never missing from the model rebuilt from an
    introspection that lists it under its physical name. *)
Lemma listed_column_is_not_missing (m : Model) (info : list ColumnInfo)
    (col : TableColumn) (d : ColumnInfo) :
  In col (columns m) -> In d info -> info_name d = physical col ->
  isMissing (buildModelFromData m info) col = false.
Proof.
  intros Hcol Hd Hname. unfold isMissing.
  set (matches := fun c : TableColumn =>
         (String.eqb (name c) (name col) || str_eq_opt (name c) (mappedTo col))%bool).
  destruct (find matches (columns (buildModelFromData m info))) as [c|] eqn:E;
    [reflexivity | exfalso].
  set (declared := fun t : TableColumn =>
         (String.eqb (name t) (info_name d)
          || str_eq_opt (info_name d) (mappedTo t))%bool).
  destruct (find declared (columns m)) as [og|] eqn:Eog.
  - assert (Hin : In {| defaultValue := info_dflt_value d;
                        name := info_name d;
                        nullable := (info_notnull d =? 0)%Z;
                        type := type og;
                        isPrimaryKey := (info_pk d =? 1)%Z;
                        mappedTo := mappedTo og;
                        autoIncrement := autoIncrement og |}
                     (columns (buildModelFromData m info))).
    { unfold buildModelFromData. simpl. apply in_flat_map. exists d.
      split; [exact Hd|]. fold declared. rewrite Eog. now left. }
    apply (find_none _ _ E) in Hin. unfold matches in Hin. simpl in Hin.
    rewrite Hname in Hin. unfold physical in Hin.
    destruct (mappedTo col) as [p|]; simpl in Hin.
    + rewrite String.eqb_refl, orb_true_r in Hin. discriminate Hin.
    + rewrite String.eqb_refl in Hin. discriminate Hin.
  - apply (find_none _ _ Eog) in Hcol. unfold declared in Hcol.
    rewrite Hname in Hcol. unfold physical in Hcol.
    destruct (mappedTo col) as [p|]; simpl in Hcol.
    + rewrite String.eqb_refl, orb_true_r in Hcol. discriminate Hcol.
    + rewrite String.eqb_refl in Hcol. discriminate Hcol.
Qed.

(** X7.  When the live table lists every declared column under its
    physical name and the primary-key names agree, reconciliation builds
    no statement, and the table set-up runs nothing and leaves the flag
    as it was: setting up a table that is up to date changes nothing. *)
Theorem up_to_date_table_is_left_alone (m : Model) (info : list ColumnInfo)
    (st : orm) :
  info <> [] ->
  (forall col, In col (columns m) ->
               exists d, In d info /\ info_name d = physical col) ->
  primaryKeyName (buildModelFromData m info) = primaryKeyName m ->
  buildAlterQuery reg (buildModelFromData m info) m = Ok []
  /\ setUpTable reg m info st = (Ok tt, st).
Proof.
  intros Hinfo Hlisted Hpk.
  assert (Hnone : filter (isMissing (buildModelFromData m info)) (columns m) = []).
  { assert (H : forall l, (forall col, In col l -> In col (columns m)) ->
                          filter (isMissing (buildModelFromData m info)) l = []).
    { induction l as [|col l IH]; intro Hsub; [reflexivity|].
      simpl. destruct (Hlisted col (Hsub col (or_introl eq_refl))) as [d [Hd Hn]].
      rewrite (listed_column_is_not_missing m info col d
                 (Hsub col (or_introl eq_refl)) Hd Hn).
      apply IH. intros c Hc. apply Hsub. now right. }
    apply H. auto. }
  assert (Halter : buildAlterQuery reg (buildModelFromData m info) m = Ok []).
  { unfold buildAlterQuery.
    change (tableName (buildModelFromData m info)) with (tableName m).
    rewrite String.eqb_refl, Hpk. simpl negb. cbv iota.
    assert (Erefl : opt_str_eqb (primaryKeyName m) (primaryKeyName m) = true)
      by (now apply opt_str_eqb_eq).
    rewrite Erefl, Hnone. reflexivity. }
  split; [exact Halter|].
  unfold setUpTable. destruct info as [|d info']; [contradiction|].
  simpl length. simpl Nat.eqb. cbv iota. rewrite Halter. reflexivity.
Qed.

End WithHost.

(** X8.  The model rebuilt from an introspection keeps the table name
    and the database of the declared model, has at most one column per
    introspected row, and each of its columns carries the name the live
    table reports, the nullability and primary-key flag read from the
    row, and the type, mapping and auto-increment flag of a declared
    column whose logical or physical name is that name: a row that
    matches no declared column is left out. *)
Theorem live_model_keeps_declared_types (m : Model) (data : list ColumnInfo) :
  tableName (buildModelFromData m data) = tableName m
  /\ database (buildModelFromData m data) = database m
  /\ length (columns (buildModelFromData m data)) <= length data
  /\ Forall (fun c =>
       exists datum og,
         In datum data /\ In og (columns m)
         /\ (name og = info_name datum \/ mappedTo og = Some (info_name datum))
         /\ name c = info_name datum
         /\ nullable c = (info_notnull datum =? 0)%Z
         /\ isPrimaryKey c = (info_pk datum =? 1)%Z
         /\ defaultValue c = info_dflt_value datum
         /\ type c = type og /\ mappedTo c = mappedTo og
         /\ autoIncrement c = autoIncrement og)
       (columns (buildModelFromData m data)).
Proof.
  split; [reflexivity|]. split; [reflexivity|]. split.
  - unfold buildModelFromData. simpl.
    induction data as [|d rest IH]; [apply le_n|].
    simpl. rewrite length_app.
    destruct (find _ (columns m)); simpl; lia.
  - apply Forall_forall. intros c Hc. unfold buildModelFromData in Hc.
    simpl in Hc. apply in_flat_map in Hc. destruct Hc as [datum [Hd Hc]].
    destruct (find _ (columns m)) as [og|] eqn:E; [|destruct Hc].
    destruct Hc as [<-|[]]. apply find_some in E as [Hog Hmatch].
    exists datum, og. repeat split; try assumption.
    apply orb_true_iff in Hmatch. destruct Hmatch as [Hn|Hn].
    + left. now apply String.eqb_eq.
    + right. now apply str_eq_opt_true.
Qed.

Lemma buildColumnQuery_refuses_only_auto_increment_witness :
  buildColumnQuery (host := Example.host) []
    (Sample.column string_t "code" None false true)
  = Throw (Error "Auto increment cannot be used on non integer column.").
Proof.
  apply (buildColumnQuery_refuses_only_auto_increment (host := Example.host) []
           (Sample.column string_t "code" None false true)).
  - reflexivity.
  - discriminate.
Defined.

Lemma buildTableQuery_lines_witness :
  exists text, buildTableQuery (host := Example.host) [] Sample.users = Ok text.
Proof.
  eexists.
  apply (proj1 (proj2 (buildTableQuery_lines (host := Example.host) [] Sample.users))
           [Sample.id_column] Sample.meta_column).
  - reflexivity.
  - reflexivity.
  - reflexivity.
Defined.

Lemma up_to_date_table_is_left_alone_witness :
  setUpTable (host := Example.host) [] Sample.users_by_id [Sample.id_info]
    {| hasModelChanges := false; executed := [] |}
  = (Ok tt, {| hasModelChanges := false; executed := [] |}).
Proof.
  refine (proj2 (up_to_date_table_is_left_alone (host := Example.host) []
                   Sample.users_by_id [Sample.id_info]
                   {| hasModelChanges := false; executed := [] |} _ _ _)).
  - discriminate.
  - intros col [<- | []]. exists Sample.id_info. split; [now left | reflexivity].
  - reflexivity.
Defined.

End BuilderMore.

(** ** More on the storage boundary *)

Module StorageMore.
Import Builder SqliteOrm.
Local Open Scope string_scope.

Section WithHost.
Context {host : Host}.
Variable reg : registry.
Variable JSON_parse : string -> option json.
Variable jsonCompatMode : option bool.

Lemma serialize_throws_invalid_data (data : value) (ty : ColumnType) (e : exn) :
  serialize reg data ty = Throw e -> exists msg, e = DBInvalidData msg.
Proof.
  unfold serialize. destruct (is_nullish data) eqn:Hnull; [discriminate|].
  destruct ty.
  - destruct (negb (js_type_eqb (typeof data) TyString));
      intro H; [injection H as <-; eexists; reflexivity | discriminate H].
  - destruct (negb (is_number data));
      intro H; [injection H as <-; eexists; reflexivity | discriminate H].
  - destruct data; intro H; try discriminate H;
      injection H as <-; eexists; reflexivity.
  - destruct (negb (js_type_eqb (typeof data) TyObject)).
    + intro H. injection H as <-. eexists; reflexivity.
    + destruct (JsonFacts.jsonify_returns reg data [] Hnull) as [j ->].
      discriminate.
  - destruct (negb (is_number data) || negb (isInteger data))%bool;
      intro H; [injection H as <-; eexists; reflexivity | discriminate H].
  - destruct (negb (is_Uint8Array data));
      intro H; [injection H as <-; eexists; reflexivity | discriminate H].
Qed.

Lemma deserialize_throws_invalid_data (data : value) (ty : ColumnType) (e : exn) :
  deserialize reg JSON_parse jsonCompatMode data ty = Throw e ->
  exists msg, e = DBInvalidData msg.
Proof.
  unfold deserialize. destruct (is_nullish data); [discriminate|].
  destruct ty.
  - destruct (negb (js_type_eqb (typeof data) TyString));
      intro H; [injection H as <-; eexists; reflexivity | discriminate H].
  - destruct (negb (is_number data));
      intro H; [injection H as <-; eexists; reflexivity | discriminate H].
  - destruct (negb (is_number data) && negb (isInteger data))%bool;
      intro H; [injection H as <-; eexists; reflexivity | discriminate H].
  - destruct data; intro H; try (injection H as <-; eexists; reflexivity).
    destruct (JSON_parse s) as [parsed|];
      [|injection H as <-; eexists; reflexivity].
    destruct (Json.dejsonify reg _ parsed);
      [discriminate H | injection H as <-; eexists; reflexivity].
  - destruct (negb (is_number data) && negb (isInteger data))%bool;
      intro H; [injection H as <-; eexists; reflexivity | discriminate H].
  - destruct (negb (is_Uint8Array data));
      intro H; [injection H as <-; eexists; reflexivity | discriminate H].
Qed.

(** X9.  Whatever [serialize] or [deserialize] throws is a
    [DBInvalidData]: the codec never throws under [serialize], and
    what the parser and the codec throw under [deserialize] is
    replaced. *)
Theorem storage_boundary_throws_invalid_data (data : value) (ty : ColumnType)
    (e : exn) :
  serialize reg data ty = Throw e
  \/ deserialize reg JSON_parse jsonCompatMode data ty = Throw e ->
  exists msg, e = DBInvalidData msg.
Proof.
  intros [H|H].
  - exact (serialize_throws_invalid_data _ _ _ H).
  - exact (deserialize_throws_invalid_data _ _ _ H).
Qed.

(** X10.  On a column that is not a json column, what [serialize]
    stored is read back by [deserialize] as the value that was stored,
    [undefined] apart, which comes back as [null]. *)
Theorem stored_value_reads_back (data stored : value) (ty : ColumnType) :
  ty <> json_t ->
  serialize reg data ty = Ok stored ->
  deserialize reg JSON_parse jsonCompatMode stored ty
  = Ok (if is_nullish data then VNull else data).
Proof.
  intros Hty. unfold serialize.
  destruct (is_nullish data) eqn:Hnull.
  - intro H. injection H as <-. reflexivity.
  - destruct ty; try congruence.
    + destruct (negb (js_type_eqb (typeof data) TyString)) eqn:E;
        intro H; [discriminate H | injection H as <-].
      unfold deserialize. now rewrite Hnull, E.
    + destruct (negb (is_number data)) eqn:E;
        intro H; [discriminate H | injection H as <-].
      unfold deserialize. now rewrite Hnull, E.
    + destruct data; intro H; try discriminate H. injection H as <-.
      destruct b; reflexivity.
    + destruct (negb (is_number data)) eqn:E; simpl orb;
        [intro H; discriminate H|].
      destruct (negb (isInteger data)); intro H;
        [discriminate H | injection H as <-].
      unfold deserialize. now rewrite Hnull, E.
    + destruct (negb (is_Uint8Array data)) eqn:E;
        intro H; [discriminate H | injection H as <-].
      unfold deserialize. now rewrite Hnull, E.
Qed.

(** X11.  An integer column and a boolean column take any number back
    from the database: the test that guards them refuses a value only
    when it is not a number and, besides, not an integer.  A number that
    is not an integer is handed out by an integer column as it is, and a
    boolean column reads every number other than 1 as [false]. *)
Theorem integer_and_boolean_columns_take_any_number (data : value) :
  is_nullish data = false ->
  (forall n, data = VNum n ->
     deserialize reg JSON_parse jsonCompatMode data integer_t = Ok data
     /\ deserialize reg JSON_parse jsonCompatMode data boolean_t
        = Ok (VBool (number_eqb n (Int 1))))
  /\ (typeof data <> TyNumber ->
      deserialize reg JSON_parse jsonCompatMode data integer_t
      = Throw (DBInvalidData ("Column contains " ++ ToString data
                              ++ " instead of an integer"))
      /\ deserialize reg JSON_parse jsonCompatMode data boolean_t
         = Throw (DBInvalidData ("Column contains " ++ ToString data
                                 ++ " instead of a boolean"))).
Proof.
  intro Hnull. split.
  - intros n ->. split; reflexivity.
  - intro Hty. unfold deserialize. rewrite Hnull.
    destruct data; try discriminate Hnull; try (split; reflexivity).
    now contradiction Hty.
Qed.

(** X12.  A value that [isProvidedTypeValid] accepts for a column is
    one that [serialize] stores on it, with one exception: on a boolean
    column the guard accepts the numbers 0 and 1, which [serialize]
    refuses. *)
Theorem valid_value_is_storable (v : value) (col : TableColumn) :
  (isProvidedTypeValid v col = true ->
   (type col = boolean_t -> typeof v <> TyNumber) ->
   returns (serialize reg v (type col)))
  /\ (type col = boolean_t -> v = VNum (Int 0) \/ v = VNum (Int 1) ->
      isProvidedTypeValid v col = true
      /\ serialize reg v (type col)
         = Throw (DBInvalidData "Cannot store a non boolean type on a boolean column")).
Proof.
  split.
  - intros Hvalid Hbool. unfold serialize.
    destruct (is_nullish v) eqn:Hnull; [eexists; reflexivity|].
    unfold isProvidedTypeValid in Hvalid. rewrite Hnull, andb_false_r in Hvalid.
    destruct (JsonFacts.jsonify_returns reg v [] Hnull) as [j Hj].
    destruct (type col) eqn:Ety;
      destruct v as [| |b|n|s|z| | |items|props|entries|bytes|bytes|chain props];
      try discriminate Hnull; cbn in Hvalid; try discriminate Hvalid;
      try (now contradiction (Hbool eq_refl));
      try (destruct n; cbn in Hvalid; try discriminate Hvalid);
      try (eexists; reflexivity);
      cbn [typeof js_type_eqb negb]; rewrite Hj; eexists; reflexivity.
  - intros Hty [-> | ->]; unfold isProvidedTypeValid; rewrite Hty;
      rewrite andb_false_r; split; reflexivity.
Qed.

(** The codec's round trip at the top level: an array or a plain
    object of storable values. *)
Lemma jsonify_dejsonify (compatMode : bool) (data : value) :
  Json.storable reg data = true ->
  is_Array data = true \/ (exists props, data = VObject props) ->
  exists j, Json.jsonify reg data [] = Ok j
            /\ Json.dejsonify reg compatMode j = Ok (Json.rebuilt reg data).
Proof.
  intros Hst [Harr|[props ->]].
  - destruct data; try discriminate Harr.
    destruct (JsonFacts.writeValue_readValue reg compatMode _ Hst) as [j [Ew Er]].
    exists j. split; [exact Ew|].
    simpl in Ew. destruct (Json.jsonify_array _ items); [|discriminate Ew].
    injection Ew as <-. exact Er.
  - assert (Hall : Forall (fun kv => Json.storable reg (snd kv) = true ->
                      exists j, Json.writeValue reg (snd kv) = Ok j
                                /\ Json.readValue reg compatMode j
                                   = Ok (Json.rebuilt reg (snd kv))) props).
    { apply Forall_forall. intros kv _. apply JsonFacts.writeValue_readValue. }
    simpl in Hst. apply andb_true_iff in Hst as [Hnd Hst].
    apply JsonFacts.distinct_strings_NoDup in Hnd.
    destruct (JsonFacts.object_round_trip reg compatMode [] _ Hall Hst Hnd)
      as [js [_ [Hw Hr]]].
    rewrite JsonFacts.kept_nil in Hr. exists (JObj js). split.
    + simpl. rewrite Hw by (intros k _ []). reflexivity.
    + unfold Json.dejsonify, Json.dejsonify_with.
      rewrite Hr by (intros k _ []). cbn [Json.rebuilt].
      rewrite JsonFacts.settable_map. reflexivity.
Qed.

(** X13.  A json column, when [JSON.parse] gives back the tree that
    [JSON.stringify] was given: what [serialize] stored for an object
    is a string that [deserialize] reads without an exception; and an
    array or a plain object of null, booleans, numbers, strings,
    buffers, arrays, plain objects and maps comes back as it was. *)
Theorem json_column_reads_back (data : value) :
  is_nullish data = false ->
  typeof data = TyObject ->
  (forall j, Json.jsonify reg data [] = Ok j ->
             JSON_parse (JSON_stringify j) = Some j) ->
  exists text,
    serialize reg data json_t = Ok (VStr text)
    /\ returns (deserialize reg JSON_parse jsonCompatMode (VStr text) json_t)
    /\ (Json.storable reg data = true -> Json.plain data = true ->
        is_Array data = true \/ (exists props, data = VObject props) ->
        deserialize reg JSON_parse jsonCompatMode (VStr text) json_t = Ok data).
Proof.
  intros Hnull Hty Hparse.
  destruct (JsonFacts.jsonify_returns reg data [] Hnull) as [j Hj].
  exists (JSON_stringify j). split; [|split].
  - unfold serialize. rewrite Hnull, Hty, Hj. reflexivity.
  - unfold deserialize. cbn [is_nullish]. rewrite (Hparse j Hj).
    destruct (JsonMore.jsonify_readable reg
                (match jsonCompatMode with Some b => b | None => false end)
                data [] j Hj) as [v ->].
    exists v. reflexivity.
  - intros Hst Hplain Hshape. unfold deserialize. cbn [is_nullish].
    rewrite (Hparse j Hj).
    destruct (jsonify_dejsonify
                (match jsonCompatMode with Some b => b | None => false end)
                data Hst Hshape) as [j' [Hj' Hread]].
    rewrite Hj in Hj'. injection Hj' as <-. rewrite Hread.
    now rewrite (JsonFacts.rebuilt_plain reg data Hplain).
Qed.

End WithHost.

Lemma storage_boundary_throws_invalid_data_witness :
  exists msg,
    DBInvalidData "Cannot store a non string type on a string column"
    = DBInvalidData msg.
Proof.
  apply (storage_boundary_throws_invalid_data (host := Example.host) []
           (fun _ => None) None (VNum (Int 1)) string_t).
  left. reflexivity.
Defined.

Lemma stored_value_reads_back_witness :
  deserialize (host := Example.host) [] (fun _ => None) None
    (VNum (Int 1)) boolean_t
  = Ok (VBool true).
Proof.
  apply (stored_value_reads_back (host := Example.host) [] (fun _ => None) None
           (VBool true) (VNum (Int 1)) boolean_t).
  - discriminate.
  - reflexivity.
Defined.

Lemma integer_and_boolean_columns_take_any_number_witness :
  deserialize (host := Example.host) [] (fun _ => None) None
    (VNum (Dyadic 1 1)) integer_t
  = Ok (VNum (Dyadic 1 1)).
Proof.
  apply (proj1 (integer_and_boolean_columns_take_any_number
                  (host := Example.host) [] (fun _ => None) None
                  (VNum (Dyadic 1 1)) eq_refl) (Dyadic 1 1) eq_refl).
Defined.

Lemma valid_value_is_storable_witness :
  returns (serialize (host := Example.host) [] (VNum (Int 7))
             (type Sample.id_column)).
Proof.
  apply (valid_value_is_storable (host := Example.host) [] (VNum (Int 7))
           Sample.id_column).
  - reflexivity.
  - discriminate.
Defined.

Lemma json_column_reads_back_witness :
  exists text,
    serialize (host := Example.host) [] (VObject [("a", VNum (Int 1))]) json_t
    = Ok (VStr text)
    /\ returns (deserialize (host := Example.host) []
                  (fun _ => Some (JObj [("a", JNum (Int 1))])) None
                  (VStr text) json_t)
    /\ (Json.storable [] (VObject [("a", VNum (Int 1))]) = true ->
        Json.plain (VObject [("a", VNum (Int 1))]) = true ->
        is_Array (VObject [("a", VNum (Int 1))]) = true
        \/ (exists props, VObject [("a", VNum (Int 1))] = VObject props) ->
        deserialize (host := Example.host) []
          (fun _ => Some (JObj [("a", JNum (Int 1))])) None (VStr text) json_t
        = Ok (VObject [("a", VNum (Int 1))])).
Proof.
  apply (json_column_reads_back (host := Example.host) []
           (fun _ => Some (JObj [("a", JNum (Int 1))])) None
           (VObject [("a", VNum (Int 1))])).
  - reflexivity.
  - reflexivity.
  - intros j Hj. injection Hj as <-. reflexivity.
Defined.

End StorageMore.

(** ** More on the insert and update statements *)

Module QueryMore.
Import Builder.
Local Open Scope string_scope.

Lemma insertLoop_resolved (m : Model) (data : list (string * value))
    (cols : list string) (params : list value) :
  (forall kv, In kv data -> findColumn m (fst kv) <> None) ->
  returns (insertLoop m data cols params).
Proof.
  revert cols params. induction data as [|[k v] rest IH]; intros cols params H.
  - eexists; reflexivity.
  - simpl. pose proof (H (k, v) (or_introl eq_refl)) as Hk. simpl in Hk.
    destruct (findColumn m k) as [c|]; [|contradiction].
    destruct (isPrimaryKey c && autoIncrement c)%bool;
      apply IH; intros kv Hin; apply H; now right.
Qed.

Lemma updateLoop_resolved (m : Model) (data : list (string * value))
    (st : updateState) :
  (forall kv, In kv data -> findColumn m (fst kv) <> None) ->
  returns (updateLoop m data st).
Proof.
  revert st. induction data as [|[k v] rest IH]; intros st H.
  - eexists; reflexivity.
  - simpl. pose proof (H (k, v) (or_introl eq_refl)) as Hk. simpl in Hk.
    destruct (findColumn m k) as [c|]; [|contradiction].
    destruct (isPrimaryKey c); apply IH; intros kv Hin; apply H; now right.
Qed.

Lemma insertLoop_unresolved (m : Model) (data : list (string * value))
    (cols : list string) (params : list value) (k : string) (v : value) :
  In (k, v) data -> findColumn m k = None ->
  insertLoop m data cols params
  = Throw (TypeError "Cannot read properties of undefined (reading 'isPrimaryKey')").
Proof.
  revert cols params. induction data as [|[k' v'] rest IH];
    intros cols params Hin Hk; [destruct Hin|].
  simpl. destruct (findColumn m k') as [c|] eqn:E; [|reflexivity].
  destruct Hin as [Heq|Hin]; [injection Heq as -> ->; congruence|].
  destruct (isPrimaryKey c && autoIncrement c)%bool; now apply IH.
Qed.

Lemma updateLoop_unresolved (m : Model) (data : list (string * value))
    (st : updateState) (k : string) (v : value) :
  In (k, v) data -> findColumn m k = None ->
  updateLoop m data st
  = Throw (TypeError "Cannot read properties of undefined (reading 'isPrimaryKey')").
Proof.
  revert st. induction data as [|[k' v'] rest IH]; intros st Hin Hk;
    [destruct Hin|].
  simpl. destruct (findColumn m k') as [c|] eqn:E; [|reflexivity].
  destruct Hin as [Heq|Hin]; [injection Heq as -> ->; congruence|].
  destruct (isPrimaryKey c); now apply IH.
Qed.

(** X14.  The insert and the update statement are built exactly when
    every name of the record is the name or the mapped name of a column
    of the model; a name that is neither makes both builders throw a
    type error, since the column they look up is not checked. *)
Theorem unknown_column_is_a_type_error (m : Model) (data : list (string * value)) :
  ((forall kv, In kv data -> findColumn m (fst kv) <> None) ->
   returns (buildInsertQuery m data) /\ returns (buildUpdateQuery m data))
  /\ (forall k v, In (k, v) data -> findColumn m k = None ->
        buildInsertQuery m data
        = Throw (TypeError "Cannot read properties of undefined (reading 'isPrimaryKey')")
        /\ buildUpdateQuery m data
           = Throw (TypeError "Cannot read properties of undefined (reading 'isPrimaryKey')")).
Proof.
  split.
  - intro H. split.
    + unfold buildInsertQuery.
      destruct (insertLoop_resolved m data [] [] H) as [[cols params] ->].
      eexists; reflexivity.
    + unfold buildUpdateQuery.
      destruct (updateLoop_resolved m data
                  {| u_params := []; u_cols := []; primaryCol := None;
                     primaryVal := VUndefined |} H) as [st ->].
      eexists; reflexivity.
  - intros k v Hin Hk. split.
    + unfold buildInsertQuery.
      now rewrite (insertLoop_unresolved m data [] [] k v Hin Hk).
    + unfold buildUpdateQuery.
      now rewrite (updateLoop_unresolved m data _ k v Hin Hk).
Qed.

Lemma insertLoop_listed (m : Model) (data : list (string * value))
    (cols cols' : list string) (params params' : list value) :
  insertLoop m data cols params = Ok (cols', params') ->
  let listed :=
    filter (fun kv => match findColumn m (fst kv) with
                      | Some c => negb (isPrimaryKey c && autoIncrement c)
                      | None => false
                      end) data in
  cols' = (cols ++ map fst listed)%list
  /\ params' = (params ++ map snd listed)%list.
Proof.
  revert cols params. induction data as [|[k v] rest IH]; intros cols params H.
  - injection H as <- <-. simpl. now rewrite !app_nil_r.
  - simpl in H. simpl. destruct (findColumn m k) as [c|]; [|discriminate H].
    destruct (isPrimaryKey c && autoIncrement c)%bool; simpl.
    + now apply IH.
    + destruct (IH _ _ H) as [-> ->]. now rewrite <- !app_assoc.
Qed.

(** X15.  The insert statement lists, in the order of the record, the
    names of the entries whose column is not an auto-increment primary
    key, with as many placeholders, and binds the values of these
    entries in the same order. *)
Theorem insert_lists_what_it_binds (m : Model) (data : list (string * value))
    (built : BuiltQuery) :
  buildInsertQuery m data = Ok built ->
  let listed :=
    filter (fun kv => match findColumn m (fst kv) with
                      | Some c => negb (isPrimaryKey c && autoIncrement c)
                      | None => false
                      end) data in
  query built
  = "INSERT INTO " ++ squote ++ tableName m ++ squote ++ " ("
    ++ join ", " (map fst listed) ++ ") VALUES ("
    ++ join ", " (repeat "?" (length listed)) ++ ")"
  /\ params built = map snd listed.
Proof.
  unfold buildInsertQuery. intro H.
  destruct (insertLoop m data [] []) as [[cols ps]|] eqn:E; [|discriminate H].
  destruct (insertLoop_listed m data [] cols [] ps E) as [-> ->].
  injection H as <-. simpl.
  rewrite QueryFacts.placeholders_repeat, length_map. split; reflexivity.
Qed.

Lemma last_cons {A} (a d : A) (l : list A) : last (a :: l) d = last l a.
Proof.
  revert a d. induction l as [|b l IH]; intros a d; [reflexivity|].
  change (last (a :: b :: l) d) with (last (b :: l) d).
  now rewrite (IH b d), (IH b a).
Qed.

Lemma updateLoop_sets (m : Model) (data : list (string * value))
    (st st' : updateState) :
  updateLoop m data st = Ok st' ->
  let others :=
    filter (fun kv => match findColumn m (fst kv) with
                      | Some c => negb (isPrimaryKey c)
                      | None => false
                      end) data in
  let keys :=
    flat_map (fun kv => match findColumn m (fst kv) with
                        | Some c => if isPrimaryKey c
                                    then [(Some (physical c), snd kv)] else []
                        | None => []
                        end) data in
  u_cols st' = (u_cols st ++ map fst others)%list
  /\ u_params st' = (u_params st ++ map snd others)%list
  /\ (primaryCol st', primaryVal st') = last keys (primaryCol st, primaryVal st).
Proof.
  revert st. induction data as [|[k v] rest IH]; intros st H.
  - injection H as <-. simpl. now rewrite !app_nil_r.
  - simpl in H. cbn [filter flat_map fst snd].
    destruct (findColumn m k) as [c|]; [|discriminate H].
    destruct (isPrimaryKey c); cbn [negb app].
    + destruct (IH _ H) as [Hc [Hp Hk]]. cbn [u_cols u_params primaryCol primaryVal] in *.
      split; [exact Hc|]. split; [exact Hp|].
      rewrite last_cons. exact Hk.
    + destruct (IH _ H) as [Hc [Hp Hk]]. cbn [u_cols u_params primaryCol primaryVal] in *.
      rewrite Hc, Hp, <- !app_assoc. cbn [map fst snd app].
      split; [reflexivity|]. split; [reflexivity | exact Hk].
Qed.

(** X16.  The update statement sets, in the order of the record, the
    entries whose column is not a primary key and binds their values in
    that order; its condition names the physical name of the column of
    the last entry that is a primary key, and binds the value of that
    entry last.  When the record has no such entry the condition is on
    [undefined], with [undefined] bound. *)
Theorem update_sets_what_is_not_a_key (m : Model) (data : list (string * value))
    (built : BuiltQuery) :
  buildUpdateQuery m data = Ok built ->
  let others :=
    filter (fun kv => match findColumn m (fst kv) with
                      | Some c => negb (isPrimaryKey c)
                      | None => false
                      end) data in
  let keys :=
    flat_map (fun kv => match findColumn m (fst kv) with
                        | Some c => if isPrimaryKey c
                                    then [(Some (physical c), snd kv)] else []
                        | None => []
                        end) data in
  query built
  = "UPDATE " ++ squote ++ tableName m ++ squote ++ " SET "
    ++ join ", " (map (fun c => c ++ " = ?") (map fst others))
    ++ " WHERE "
    ++ (match fst (last keys (None, VUndefined)) with
        | Some c => c
        | None => "undefined"
        end) ++ " = ?"
  /\ params built = (map snd others ++ [snd (last keys (None, VUndefined))])%list.
Proof.
  unfold buildUpdateQuery. intro H.
  destruct (updateLoop m data _) as [st|] eqn:E; [|discriminate H].
  destruct (updateLoop_sets m data _ st E) as [Hc [Hp Hk]].
  cbn [u_cols u_params primaryCol primaryVal app] in Hc, Hp, Hk.
  injection H as <-. cbn [query params]. rewrite Hc, Hp, <- Hk.
  split; reflexivity.
Qed.

Lemma unknown_column_is_a_type_error_witness :
  buildInsertQuery Sample.users [("nickname", VStr "ada")]
  = Throw (TypeError "Cannot read properties of undefined (reading 'isPrimaryKey')").
Proof.
  apply (proj2 (unknown_column_is_a_type_error Sample.users
                  [("nickname", VStr "ada")]) "nickname" (VStr "ada")).
  - now left.
  - reflexivity.
Defined.

Lemma insert_lists_what_it_binds_witness :
  buildInsertQuery Sample.users [("id", VNum (Int 7)); ("meta_json", VStr "{}")]
  = Ok {| query := "INSERT INTO 'users' (meta_json) VALUES (?)";
          params := [VStr "{}"] |}
  /\ params {| query := "INSERT INTO 'users' (meta_json) VALUES (?)";
               params := [VStr "{}"] |}
     = map snd [("meta_json", VStr "{}")].
Proof.
  split; [reflexivity|].
  apply (insert_lists_what_it_binds Sample.users
           [("id", VNum (Int 7)); ("meta_json", VStr "{}")]
           {| query := "INSERT INTO 'users' (meta_json) VALUES (?)";
              params := [VStr "{}"] |}).
  reflexivity.
Defined.

Lemma update_sets_what_is_not_a_key_witness :
  buildUpdateQuery Sample.users [("meta_json", VStr "{}")]
  = Ok {| query := "UPDATE 'users' SET meta_json = ? WHERE undefined = ?";
          params := [VStr "{}"; VUndefined] |}
  /\ params {| query := "UPDATE 'users' SET meta_json = ? WHERE undefined = ?";
               params := [VStr "{}"; VUndefined] |}
     = (map snd [("meta_json", VStr "{}")] ++ [VUndefined])%list.
Proof.
  split; [reflexivity|].
  apply (update_sets_what_is_not_a_key Sample.users [("meta_json", VStr "{}")]
           {| query := "UPDATE 'users' SET meta_json = ? WHERE undefined = ?";
              params := [VStr "{}"; VUndefined] |}).
  reflexivity.
Defined.

End QueryMore.

(** ** The differences between two objects *)

Module UtilMore.
Import Util.
Local Open Scope string_scope.

Lemma hasOwn_In (obj : list (string * value)) (k : string) :
  hasOwn obj k = true <-> In k (map fst obj).
Proof.
  unfold hasOwn. induction obj as [|[k' v] rest IH]; simpl.
  - split; [discriminate | intros []].
  - destruct (String.eqb k' k) eqn:E.
    + apply String.eqb_eq in E. split; [now left | reflexivity].
    + rewrite IH. split; [now right|].
      intros [H|H]; [|exact H]. subst k'. now rewrite String.eqb_refl in E.
Qed.

Lemma get_proto_set_property {A} (props : list (string * A)) (k : string) (v : A) :
  get proto (set_property props k v) = get proto props.
Proof.
  destruct (String.eqb k proto) eqn:E.
  - apply String.eqb_eq in E. subst k. reflexivity.
  - apply JsonFacts.get_set_property_other. intros ->.
    now rewrite String.eqb_refl in E.
Qed.

Section WithHost.
Context {host : Host}.
Variable stringify : value -> option string.
Variable inherited : string -> value.

Lemma removedOrChanged_get (entries oldObj newObj : list (string * value))
    (diff : list (string * change)) (k : string) :
  NoDup (map fst entries) -> k <> proto ->
  get k (removedOrChanged stringify inherited entries oldObj newObj diff)
  = match get k entries with
    | Some v =>
        if negb (opt_str_eqb (stringify (at_key inherited oldObj k))
                             (stringify (at_key inherited newObj k)))
        then Some {| old := v; new := at_key inherited newObj k |}
        else if hasOwn newObj k then get k diff
        else Some {| old := v; new := VUndefined |}
    | None => get k diff
    end.
Proof.
  revert diff. induction entries as [|[k0 v0] rest IH]; intros diff Hnd Hne;
    [reflexivity|].
  inversion Hnd as [|? ? Hk0 Hrest]; subst.
  cbn [removedOrChanged]. cbv zeta. rewrite (IH _ Hrest Hne). clear IH.
  cbn [get].
  destruct (String.eqb k0 k) eqn:E.
  - apply String.eqb_eq in E. subst k0.
    rewrite (JsonFacts.get_not_in rest k Hk0).
    destruct (opt_str_eqb (stringify (at_key inherited oldObj k))
                          (stringify (at_key inherited newObj k))); cbn [negb].
    + destruct (hasOwn newObj k); cbn [negb];
        [reflexivity | now apply JsonFacts.get_set_property_same].
    + now apply JsonFacts.get_set_property_same.
  - assert (Hother : k0 <> k) by (intros ->; now rewrite String.eqb_refl in E).
    assert (Hsecond : forall d,
              get k (if negb (opt_str_eqb (stringify (at_key inherited oldObj k0))
                                          (stringify (at_key inherited newObj k0)))
                     then set_property d k0
                            {| old := v0; new := at_key inherited newObj k0 |}
                     else d)
              = get k d).
    { intro d. destruct (negb (opt_str_eqb _ _)); [|reflexivity].
      now apply JsonFacts.get_set_property_other. }
    rewrite Hsecond.
    assert (Hfirst : get k (if negb (hasOwn newObj k0)
                            then set_property diff k0
                                   {| old := v0; new := VUndefined |}
                            else diff)
                     = get k diff).
    { destruct (negb (hasOwn newObj k0)); [|reflexivity].
      now apply JsonFacts.get_set_property_other. }
    rewrite Hfirst. reflexivity.
Qed.

Lemma removedOrChanged_proto (entries oldObj newObj : list (string * value))
    (diff : list (string * change)) :
  get proto (removedOrChanged stringify inherited entries oldObj newObj diff)
  = get proto diff.
Proof.
  revert diff. induction entries as [|[k0 v0] rest IH]; intro diff;
    [reflexivity|].
  cbn [removedOrChanged]. cbv zeta. rewrite IH.
  destruct (negb (opt_str_eqb _ _)); destruct (negb (hasOwn newObj k0));
    rewrite ?get_proto_set_property; reflexivity.
Qed.

Lemma added_get (keys : list string) (newObj : list (string * value))
    (diff : list (string * change)) (k : string) :
  k <> proto ->
  get k (added inherited keys newObj diff)
  = if existsb (String.eqb k) keys
    then Some {| old := VUndefined; new := at_key inherited newObj k |}
    else get k diff.
Proof.
  intro Hne. revert diff. induction keys as [|k0 rest IH]; intro diff;
    [reflexivity|].
  cbn [added existsb]. rewrite IH.
  destruct (existsb (String.eqb k) rest); [now rewrite orb_true_r|].
  rewrite orb_false_r. destruct (String.eqb k k0) eqn:E.
  - apply String.eqb_eq in E. subst k0.
    now apply JsonFacts.get_set_property_same.
  - apply JsonFacts.get_set_property_other. intros ->.
    now rewrite String.eqb_refl in E.
Qed.

Lemma added_proto (keys : list string) (newObj : list (string * value))
    (diff : list (string * change)) :
  get proto (added inherited keys newObj diff) = get proto diff.
Proof.
  revert diff. induction keys as [|k0 rest IH]; intro diff; [reflexivity|].
  cbn [added]. rewrite IH. apply get_proto_set_property.
Qed.

Lemma new_keys (oldObj newObj : list (string * value)) (k : string) :
  existsb (String.eqb k)
    (filter (fun k => negb (existsb (String.eqb k) (map fst oldObj)))
            (map fst newObj))
  = (hasOwn newObj k && negb (hasOwn oldObj k))%bool.
Proof.
  apply eq_true_iff_eq.
  rewrite JsonFacts.existsb_eqb_In, filter_In, andb_true_iff, hasOwn_In.
  assert (H : existsb (String.eqb k) (map fst oldObj) = hasOwn oldObj k).
  { apply eq_true_iff_eq. now rewrite JsonFacts.existsb_eqb_In, hasOwn_In. }
  rewrite H. reflexivity.
Qed.

(** X17.  For an old object that has each property once, the record of
    differences has no entry under [__proto__], whose assignment
    writes no property; under another key it has an entry exactly when
    the key is a property of the old object that the new one lacks or
    that reads with another JSON text in the new one, or a property of
    the new object only.  A property of the old object is read in the
    new one through the prototype: when the new object lacks it, what
    is compared, and entered as [new] when the texts differ, is what
    [Object.prototype] holds under the key; when the texts agree the
    entry has [undefined] as [new].  A property of the new object only
    is entered with [undefined] as [old]. *)
Theorem getObjDifferences_entries (oldObj newObj : list (string * value))
    (k : string) :
  NoDup (map fst oldObj) ->
  get k (getObjDifferences stringify inherited oldObj newObj)
  = if String.eqb k proto then None
    else if hasOwn oldObj k then
      if negb (opt_str_eqb (stringify (at_key inherited oldObj k))
                           (stringify (at_key inherited newObj k)))
      then Some {| old := at_key inherited oldObj k;
                   new := at_key inherited newObj k |}
      else if hasOwn newObj k then None
      else Some {| old := at_key inherited oldObj k; new := VUndefined |}
    else if hasOwn newObj k
    then Some {| old := VUndefined; new := at_key inherited newObj k |}
    else None.
Proof.
  intro Hnd. unfold getObjDifferences. cbv zeta.
  destruct (String.eqb k proto) eqn:Eproto.
  - apply String.eqb_eq in Eproto. subst k.
    now rewrite added_proto, removedOrChanged_proto.
  - assert (Hne : k <> proto)
      by (intros ->; now rewrite String.eqb_refl in Eproto).
    rewrite (added_get _ _ _ _ Hne), new_keys,
      (removedOrChanged_get _ _ _ _ _ Hnd Hne).
    assert (Hold : get k oldObj
                   = if hasOwn oldObj k then Some (at_key inherited oldObj k)
                     else None).
    { unfold hasOwn, at_key. destruct (get k oldObj); reflexivity. }
    rewrite Hold. destruct (hasOwn oldObj k); cbn [negb].
    + rewrite andb_false_r. reflexivity.
    + rewrite andb_true_r. reflexivity.
Qed.

Lemma removedOrChanged_same (entries oldObj newObj : list (string * value))
    (diff : list (string * change)) :
  (forall k, In k (map fst entries) ->
             hasOwn newObj k = true
             /\ stringify (at_key inherited oldObj k)
                = stringify (at_key inherited newObj k)) ->
  removedOrChanged stringify inherited entries oldObj newObj diff = diff.
Proof.
  revert diff. induction entries as [|[k v] rest IH]; intros diff H;
    [reflexivity|].
  cbn [removedOrChanged]. cbv zeta.
  destruct (H k (or_introl eq_refl)) as [Hown Hsame].
  rewrite Hown, Hsame.
  assert (E : opt_str_eqb (stringify (at_key inherited newObj k))
                          (stringify (at_key inherited newObj k)) = true)
    by (now apply opt_str_eqb_eq).
  rewrite E. cbn [negb].
  apply IH. intros k' Hk'. apply H. now right.
Qed.

(** X18.  Two objects with the same property names, each property
    with the same JSON text in both, have no difference: the record is
    empty and the printed difference is the empty string.  So it is for
    an object and itself. *)
Theorem same_properties_no_difference (oldObj newObj : list (string * value)) :
  (forall k, hasOwn oldObj k = hasOwn newObj k) ->
  (forall k, hasOwn oldObj k = true ->
             stringify (at_key inherited oldObj k)
             = stringify (at_key inherited newObj k)) ->
  getObjDifferences stringify inherited oldObj newObj = []
  /\ prettyPrintDiff stringify inherited oldObj newObj = EmptyString
  /\ getObjDifferences stringify inherited oldObj oldObj = [].
Proof.
  intros Hkeys Hvalues.
  assert (Hnone : forall o n, (forall k, hasOwn o k = hasOwn n k) ->
            filter (fun k => negb (existsb (String.eqb k) (map fst o)))
                   (map fst n) = []).
  { intros o n Hk.
    assert (H : forall l, (forall k, In k l -> hasOwn n k = true) ->
              filter (fun k => negb (existsb (String.eqb k) (map fst o))) l = []).
    { induction l as [|k l IH]; intro Hl; [reflexivity|].
      cbn [filter].
      assert (E : existsb (String.eqb k) (map fst o) = true).
      { apply JsonFacts.existsb_eqb_In, hasOwn_In. rewrite Hk.
        apply Hl. now left. }
      rewrite E. cbn [negb]. apply IH. intros k' Hk'. apply Hl. now right. }
    apply H. intros k Hin. now apply hasOwn_In. }
  assert (Hdiff : forall o n, (forall k, hasOwn o k = hasOwn n k) ->
            (forall k, hasOwn o k = true ->
                       stringify (at_key inherited o k)
                       = stringify (at_key inherited n k)) ->
            getObjDifferences stringify inherited o n = []).
  { intros o n Hk Hv. unfold getObjDifferences. cbv zeta.
    rewrite (Hnone o n Hk), removedOrChanged_same; [reflexivity|].
    intros k Hin. apply hasOwn_In in Hin. split.
    - now rewrite <- Hk.
    - now apply Hv. }
  split; [|split].
  - now apply Hdiff.
  - unfold prettyPrintDiff. rewrite (Hdiff _ _ Hkeys Hvalues). reflexivity.
  - apply Hdiff; reflexivity.
Qed.

End WithHost.

Lemma getObjDifferences_entries_witness :
  get "constructor"
    (getObjDifferences Sample.json_text Sample.object_prototype
       [("constructor", VNum (Int 1)); ("name", VStr "ada")]
       [("name", VStr "ada")])
  = Some {| old := VNum (Int 1); new := VFunction |}.
Proof.
  apply (getObjDifferences_entries Sample.json_text Sample.object_prototype
           [("constructor", VNum (Int 1)); ("name", VStr "ada")]
           [("name", VStr "ada")] "constructor").
  repeat constructor; simpl; intuition discriminate.
Defined.

Lemma same_properties_no_difference_witness :
  prettyPrintDiff (host := Example.host) Sample.json_text Sample.object_prototype
    [("type", VStr "integer"); ("defaultValue", VUndefined)]
    [("defaultValue", VUndefined); ("type", VStr "integer")]
  = EmptyString.
Proof.
  apply (same_properties_no_difference (host := Example.host)
           Sample.json_text Sample.object_prototype
           [("type", VStr "integer"); ("defaultValue", VUndefined)]
           [("defaultValue", VUndefined); ("type", VStr "integer")]).
  - intro k. unfold hasOwn. cbn [get].
    destruct (String.eqb "type" k), (String.eqb "defaultValue" k); reflexivity.
  - intros k _. unfold at_key. cbn [get].
    destruct (String.eqb "type" k) eqn:E1, (String.eqb "defaultValue" k) eqn:E2;
      try reflexivity.
    apply String.eqb_eq in E1, E2. congruence.
Defined.

End UtilMore.

(** ** The table operations *)

Module TablesMore.
Import Builder SqliteOrm Tables.
Local Open Scope string_scope.


Section WithHost.
Context {host : Host}.
Variable reg : registry.
Variable JSON_parse : string -> option json.
Variable jsonCompatMode : option bool.
Variable db_get : string -> list value -> result (option (list (string * value))).
Variable db_all : string -> list value -> result (list (list (string * value))).
Variable db_run : string -> list value -> result value.
Variable models : list (string * Model).






(** X21.  Looking a row up by its key, when the key is valid for the
    primary-key column and is stored as [key]: the engine is asked for
    one row of the table whose primary key, under its physical name, is
    [key].  Without such a row [findOne] fails with [DBNotFound] and
    [findOneOptional] returns a fresh object of the class; a row is
    parsed by both; what the engine throws, both throw.  A key that is
    not valid is refused whatever the engine holds. *)
Theorem findOne_by_key (table : TableClass) (id : PrimitiveTypes)
    (model : Model) (col : TableColumn) :
  get (table_name table) models = Some model ->
  find isPrimaryKey (columns model) = Some col ->
  (isProvidedTypeValid (primitive id) col = false ->
   findOne reg JSON_parse jsonCompatMode db_get models table (ById id)
   = Failed (Thrown (DBInvalidData (tableName model ++ "." ++ name col
                                    ++ " has a different type")))
   /\ findOneOptional reg JSON_parse jsonCompatMode db_get models table (ById id)
      = findOne reg JSON_parse jsonCompatMode db_get models table (ById id))
  /\ (forall key,
        isProvidedTypeValid (primitive id) col = true ->
        serialize reg (primitive id) (type col) = Ok key ->
        let sql := "SELECT * FROM " ++ database model ++ "." ++ squote
                   ++ tableName model ++ squote ++ " WHERE " ++ physical col
                   ++ " = ? LIMIT " ++ ToString (VNum (Int 1)) in
        (db_get sql [key] = Ok None ->
         findOne reg JSON_parse jsonCompatMode db_get models table (ById id)
         = Failed (DBNotFound ("row with " ++ name col ++ " = "
                               ++ ToString (primitive id)
                               ++ " was not found in table " ++ table_name table))
         /\ findOneOptional reg JSON_parse jsonCompatMode db_get models table
              (ById id)
            = Done (blank table))
        /\ (forall found, db_get sql [key] = Ok (Some found) ->
              findOne reg JSON_parse jsonCompatMode db_get models table (ById id)
              = attempted (parseRow reg JSON_parse jsonCompatMode model table found)
              /\ findOneOptional reg JSON_parse jsonCompatMode db_get models table
                   (ById id)
                 = attempted (parseRow reg JSON_parse jsonCompatMode model table
                                found))
        /\ (forall e, db_get sql [key] = Throw e ->
              findOne reg JSON_parse jsonCompatMode db_get models table (ById id)
              = Failed (Thrown e)
              /\ findOneOptional reg JSON_parse jsonCompatMode db_get models table
                   (ById id)
                 = Failed (Thrown e))).
Proof.
  intros Hmodel Hcol. split.
  - intro Hinvalid. unfold findOneOptional, findOne.
    rewrite Hmodel, Hcol, Hinvalid. split; reflexivity.
  - intros key Hvalid Hkey sql.
    assert (Hsql : query (buildSelectQuery
                            {| q_where := Some {| clause := physical col ++ " = ?";
                                                  values := Some [key] |};
                               q_order := None; q_limit := Some (Int 1);
                               q_offset := None |} model) = sql).
    { unfold sql, buildSelectQuery, buildBaseFilterQuery, qualified.
      cbn [query q_where q_order q_limit q_offset whereFragment orderFragment
           limitFragment offsetFragment clause truthy Z.eqb negb app join
           String.concat].
      repeat rewrite append_assoc. reflexivity. }
    assert (Hone : findOne reg JSON_parse jsonCompatMode db_get models table (ById id)
                   = and_then (attempted (db_get sql [key]))
                       (fun found =>
                          match found with
                          | None =>
                              Failed (DBNotFound ("row with " ++ name col ++ " = "
                                                  ++ ToString (primitive id)
                                                  ++ " was not found in table "
                                                  ++ table_name table))
                          | Some found =>
                              attempted (parseRow reg JSON_parse jsonCompatMode
                                           model table found)
                          end)).
    { unfold findOne. rewrite Hmodel, Hcol, Hvalid, Hkey. cbn [negb attempted and_then].
      cbv zeta. rewrite Hsql. reflexivity. }
    unfold findOneOptional. rewrite Hone. split; [|split].
    + intros ->. split; reflexivity.
    + intros found ->. cbn [attempted and_then].
      destruct (parseRow reg JSON_parse jsonCompatMode model table found);
        split; reflexivity.
    + intros e ->. split; reflexivity.
Qed.

Lemma parseAll_rows (model : Model) (table : TableClass)
    (rows : list (list (string * value))) :
  (forall objs,
     parseAll reg JSON_parse jsonCompatMode model table rows = Ok objs ->
     Forall2 (fun row obj =>
                parseRow reg JSON_parse jsonCompatMode model table row = Ok obj)
             rows objs)
  /\ ((forall row, In row rows ->
         returns (parseRow reg JSON_parse jsonCompatMode model table row)) ->
      returns (parseAll reg JSON_parse jsonCompatMode model table rows))
  /\ (forall row, In row rows ->
        throws (parseRow reg JSON_parse jsonCompatMode model table row) ->
        throws (parseAll reg JSON_parse jsonCompatMode model table rows)).
Proof.
  induction rows as [|r rest [IHobjs [IHret IHthrow]]].
  - split; [|split].
    + intros objs H. injection H as <-. constructor.
    + intros _. eexists; reflexivity.
    + intros row [].
  - cbn [parseAll]. split; [|split].
    + intros objs H.
      destruct (parseRow reg JSON_parse jsonCompatMode model table r) as [o|] eqn:E;
        [|discriminate H].
      cbn [bind] in H.
      destruct (parseAll reg JSON_parse jsonCompatMode model table rest) as [os|];
        [|discriminate H].
      injection H as <-. constructor; [exact E | now apply IHobjs].
    + intro H. destruct (H r (or_introl eq_refl)) as [o ->]. cbn [bind].
      destruct IHret as [os ->]; [intros row Hrow; apply H; now right|].
      eexists; reflexivity.
    + intros row Hin Hrow.
      destruct (parseRow reg JSON_parse jsonCompatMode model table r) as [o|e] eqn:E.
      * cbn [bind]. destruct Hin as [->|Hin].
        -- destruct Hrow as [e He]. congruence.
        -- destruct (IHthrow row Hin Hrow) as [e ->]. exists e. reflexivity.
      * exists e. reflexivity.
Qed.

(** X27.  [findMany] on a registered class hands out one object for
    each row the engine answered, in the order of the rows, each made
    from its row as [findOne] makes it; it succeeds exactly when every
    row can be read, one value that [deserialize] refuses failing the
    whole call. *)
Theorem findMany_parses_every_row (table : TableClass) (q : SelectQuery)
    (model : Model) (rows : list (list (string * value))) :
  get (table_name table) models = Some model ->
  db_all (query (buildSelectQuery q model)) (params (buildSelectQuery q model))
  = Ok rows ->
  (forall objs,
     findMany reg JSON_parse jsonCompatMode db_all models table q = Done objs ->
     Forall2 (fun row obj =>
                parseRow reg JSON_parse jsonCompatMode model table row = Ok obj)
             rows objs)
  /\ ((forall row, In row rows ->
         returns (parseRow reg JSON_parse jsonCompatMode model table row)) ->
      exists objs,
        findMany reg JSON_parse jsonCompatMode db_all models table q = Done objs)
  /\ (forall row, In row rows ->
        throws (parseRow reg JSON_parse jsonCompatMode model table row) ->
        exists e,
          findMany reg JSON_parse jsonCompatMode db_all models table q
          = Failed (Thrown e)).
Proof.
  intros Hmodel Hrows. unfold findMany. rewrite Hmodel. cbv zeta.
  rewrite Hrows. cbn [attempted and_then].
  destruct (parseAll_rows model table rows) as [Hobjs [Hret Hthrow]].
  split; [|split].
  - intros objs H.
    destruct (parseAll reg JSON_parse jsonCompatMode model table rows) as [os|];
      [|discriminate H].
    injection H as <-. now apply Hobjs.
  - intro H. destruct (Hret H) as [os ->]. exists os. reflexivity.
  - intros row Hin Hrow. destruct (Hthrow row Hin Hrow) as [e ->].
    exists e. reflexivity.
Qed.

(** X28.  [findOne] with a query reads one row whatever limit the
    query carries: the limit is replaced by 1. *)
Theorem findOne_replaces_the_limit (table : TableClass) (q : SelectQuery)
    (limit : option number) :
  findOne reg JSON_parse jsonCompatMode db_get models table
    (ByQuery {| q_where := q_where q; q_order := q_order q; q_limit := limit;
                q_offset := q_offset q |})
  = findOne reg JSON_parse jsonCompatMode db_get models table (ByQuery q)
  /\ limitFragment (q_limit (with_limit_1 q)) = ["LIMIT " ++ ToString (VNum (Int 1))].
Proof. split; reflexivity. Qed.




(** X23.  A [save] that succeeds has run exactly one statement and set
    [hasChangesSinceBackup]; the object it returns is of the same class
    and is not new, so that saving it again updates it.  An object that
    was not new is returned as it was; one that was new has, under the
    name of the auto-increment primary key of its model, the row id the
    engine reported. *)
Theorem saved_object_is_not_new (obj obj' : TableObject) (st st' : store)
    (model : Model) :
  get (constructor_name obj) models = Some model ->
  save reg db_run models obj st = (Done obj', st') ->
  (exists sql ps rowid,
     db_run sql ps = Ok rowid
     /\ ran st' = (ran st ++ [(sql, ps)])%list
     /\ (truthy (property (fields obj) "_new") = true ->
         forall pk, find (fun c => isPrimaryKey c && autoIncrement c)
                         (columns model) = Some pk ->
                    name pk <> "_new" ->
                    get (name pk) (fields obj') = Some rowid))
  /\ hasChangesSinceBackup st' = true
  /\ attachedDatabases st' = attachedDatabases st
  /\ constructor_name obj' = constructor_name obj
  /\ truthy (property (fields obj') "_new") = false
  /\ (truthy (property (fields obj) "_new") = false -> obj' = obj).
Proof.
  intro Hmodel. unfold save. rewrite Hmodel.
  destruct (builtData reg model (fields obj)) as [data|e]; [|discriminate].
  destruct (truthy (property (fields obj) "_new")) eqn:Hnew.
  - destruct (buildInsertQuery model data) as [built|]; [|discriminate].
    destruct (db_run (query built) (params built)) as [rowid|] eqn:Erun;
      [|discriminate].
    intro H. injection H as <- <-. split; [|repeat split].
    + exists (query built), (params built), rowid.
      split; [exact Erun|]. split; [reflexivity|].
      intros _ pk Hpk Hname. rewrite Hpk. cbn [fields].
      rewrite JsonFacts.get_obj_set_other by congruence.
      apply SqliteOrmFacts.get_obj_set_same.
    + cbn [fields]. unfold property.
      now rewrite SqliteOrmFacts.get_obj_set_same.
    + discriminate.
  - destruct (buildUpdateQuery model data) as [built|]; [|discriminate].
    destruct (db_run (query built) (params built)) as [rowid|] eqn:Erun;
      [|discriminate].
    intro H. injection H as <- <-. split; [|repeat split].
    + exists (query built), (params built), rowid.
      split; [exact Erun|]. split; [reflexivity|]. discriminate.
    + exact Hnew.
Qed.

Variable basename : string -> string.

(** X24.  A database is attached once under a name: after [attach]
    has succeeded the name is the last of the attached names, which stay
    pairwise different, one statement has run, and attaching anything
    under that name again fails with a [DBError] and changes nothing. *)
Theorem attach_once (databasePath : string) (name : option string)
    (st st' : store) :
  attach db_run basename databasePath name st = (Done tt, st') ->
  let attached := match name with
                  | Some n => n
                  | None => basename databasePath
                  end in
  attachedDatabases st' = (attachedDatabases st ++ [attached])%list
  /\ ran st' = (ran st ++ [("ATTACH DATABASE ? AS ?",
                           [VStr databasePath; VStr attached])])%list
  /\ hasChangesSinceBackup st' = hasChangesSinceBackup st
  /\ (NoDup (attachedDatabases st) -> NoDup (attachedDatabases st'))
  /\ (forall other,
        attach db_run basename other (Some attached) st'
        = (Failed (DBError (other ++ " is already attached")), st')).
Proof.
  intros H attached. unfold attach in H. cbv zeta in H. fold attached in H.
  destruct (existsb (String.eqb attached) (attachedDatabases st)) eqn:E;
    [discriminate H|].
  destruct (db_run "ATTACH DATABASE ? AS ?" [VStr databasePath; VStr attached]);
    [|discriminate H].
  injection H as <-. cbn [attachedDatabases ran hasChangesSinceBackup run].
  repeat split.
  - intro Hnd. apply NoDup_app; [exact Hnd | repeat constructor; intros [] |].
    intros x Hx [<-|[]].
    apply JsonFacts.existsb_eqb_In in Hx. congruence.
  - intro other. unfold attach. cbv zeta. cbn [attachedDatabases].
    assert (Hin : existsb (String.eqb attached)
                    (attachedDatabases st ++ [attached]) = true).
    { apply JsonFacts.existsb_eqb_In, in_or_app. right. now left. }
    rewrite Hin. reflexivity.
Qed.

End WithHost.



Lemma findOne_by_key_witness :
  findOneOptional (host := Example.host) [] (fun _ => None) None Sample.no_row
    Sample.registered Sample.User (ById (PNumber (Int 7)))
  = Done (blank Sample.User).
Proof.
  apply (proj2 (findOne_by_key (host := Example.host) [] (fun _ => None) None
                  Sample.no_row Sample.registered Sample.User (PNumber (Int 7))
                  Sample.users Sample.id_column eq_refl eq_refl)
           (VNum (Int 7)) eq_refl eq_refl).
  reflexivity.
Defined.

Lemma findMany_parses_every_row_witness :
  exists objs,
    findMany (host := Example.host) [] (fun _ => None) None Sample.two_rows
      Sample.registered Sample.User
      {| q_where := None; q_order := None; q_limit := None; q_offset := None |}
    = Done objs.
Proof.
  apply (proj1 (proj2 (findMany_parses_every_row (host := Example.host) []
                         (fun _ => None) None Sample.two_rows Sample.registered
                         Sample.User
                         {| q_where := None; q_order := None; q_limit := None;
                            q_offset := None |}
                         Sample.users
                         [[("id", VNum (Int 7)); ("meta_json", VNull)];
                          [("id", VNum (Int 9)); ("meta_json", VNull)]]
                         eq_refl eq_refl))).
  intros row [<- | [<- | []]]; eexists; reflexivity.
Defined.


Lemma saved_object_is_not_new_witness :
  save (host := Example.host) [] Sample.row_8 Sample.registered
    Sample.new_user Sample.fresh_store
  = (Done {| constructor_name := "User";
             fields := [("_new", VBool false); ("id", VNum (Int 8));
                        ("meta", VObject [])] |},
     {| ran := [("INSERT INTO 'users' (meta_json) VALUES (?)", [VStr "{}"])];
        hasChangesSinceBackup := true; attachedDatabases := [] |})
  /\ get "id" [("_new", VBool false); ("id", VNum (Int 8)); ("meta", VObject [])]
     = Some (VNum (Int 8)).
Proof.
  split; [reflexivity|].
  destruct (saved_object_is_not_new (host := Example.host) [] Sample.row_8
              Sample.registered Sample.new_user
              {| constructor_name := "User";
                 fields := [("_new", VBool false); ("id", VNum (Int 8));
                            ("meta", VObject [])] |}
              Sample.fresh_store
              {| ran := [("INSERT INTO 'users' (meta_json) VALUES (?)",
                          [VStr "{}"])];
                 hasChangesSinceBackup := true; attachedDatabases := [] |}
              Sample.users eq_refl eq_refl)
    as [[sql [ps [rowid [Hrun [_ Hid]]]]] _].
  injection Hrun as <-.
  apply (Hid eq_refl Sample.id_column eq_refl). discriminate.
Defined.

Lemma attach_once_witness :
  attach Sample.row_8 (fun path => path) "backup.db" (Some "archive")
    {| ran := [("ATTACH DATABASE ? AS ?", [VStr "archive.db"; VStr "archive"])];
       hasChangesSinceBackup := false; attachedDatabases := ["archive"] |}
  = (Failed (DBError "backup.db is already attached"),
     {| ran := [("ATTACH DATABASE ? AS ?", [VStr "archive.db"; VStr "archive"])];
        hasChangesSinceBackup := false; attachedDatabases := ["archive"] |}).
Proof.
  apply (attach_once Sample.row_8 (fun path => path) "archive.db" (Some "archive")
           Sample.fresh_store
           {| ran := [("ATTACH DATABASE ? AS ?",
                       [VStr "archive.db"; VStr "archive"])];
              hasChangesSinceBackup := false;
              attachedDatabases := ["archive"] |}).
  reflexivity.
Defined.

End TablesMore.

(** ** More on the model snapshot *)

Module ReaderMore.
Import ModelReader ModelWriter.
Local Open Scope string_scope.

(** X25.  A snapshot file that holds JSON other than an object: an
    array is handed out as the models; [null], a boolean, a number or a
    string makes [read] throw the type error of the [in] operator,
    neither the empty object of a missing file nor the unknown-version
    error.  And an object of version 1 without [models] gives
    [undefined]. *)
Theorem read_of_other_json {host : Host} (fs : string -> snapshot_file)
    (dbPath : string) (data : json) :
  fs (dbPath ++ ".model.json") = Parsed data ->
  (forall items, data = JArr items -> read fs dbPath = Ok (Some data))
  /\ ((forall items, data <> JArr items) -> (forall props, data <> JObj props) ->
      read fs dbPath
      = Throw (TypeError ("Cannot use 'in' operator to search for 'version' in "
                          ++ ToString (primitive_of data))))
  /\ (forall props, data = JObj props ->
        get "version" props = Some (JNum (Int 1)) -> get "models" props = None ->
        read fs dbPath = Ok None).
Proof.
  intro Hfile. unfold read. rewrite Hfile. split; [|split].
  - intros items ->. reflexivity.
  - intros Harr Hobj. destruct data; try reflexivity.
    + now contradiction (Harr items).
    + now contradiction (Hobj props).
  - intros props -> Hversion Hmodels. cbn [has_version bind].
    rewrite Hversion. cbn [has_version bind]. rewrite Hversion.
    cbn [version_is_1 andb]. rewrite Hversion. cbn [models_of].
    now rewrite Hmodels.
Qed.

Section WithHost.
Context {host : Host}.
Variable stringify_indented : json -> string.
Variable JSON_parse : string -> option json.

(** X26.  What [write] wrote, [read] reads back: when [JSON.parse]
    gives back the tree that [JSON.stringify] was given, reading the
    snapshot of a database after writing it gives the models that were
    written, whatever was on the disk before; and the files of other
    paths are left as they were. *)
Theorem written_models_are_read_back (models : json) (dbPath : string)
    (disk : files) :
  JSON_parse (stringify_indented
                (JObj [("version", JNum (Int 1)); ("models", models)]))
  = Some (JObj [("version", JNum (Int 1)); ("models", models)]) ->
  read (opened JSON_parse (write stringify_indented models dbPath disk)) dbPath
  = Ok (Some models)
  /\ (forall path, path <> dbPath ++ ".model.json" ->
        write stringify_indented models dbPath disk path = disk path).
Proof.
  intro Hparse. split.
  - unfold read, opened, write, writeFileSync.
    rewrite String.eqb_refl, Hparse. reflexivity.
  - intros path Hpath. unfold write, writeFileSync.
    destruct (String.eqb path (dbPath ++ ".model.json")) eqn:E; [|reflexivity].
    apply String.eqb_eq in E. contradiction.
Qed.

End WithHost.

Lemma read_of_other_json_witness :
  read (host := Example.host) (fun _ => Parsed JNull) "app.db"
  = Throw (TypeError "Cannot use 'in' operator to search for 'version' in null").
Proof.
  apply (proj1 (proj2 (read_of_other_json (host := Example.host)
                         (fun _ => Parsed JNull) "app.db" JNull eq_refl))).
  - discriminate.
  - discriminate.
Defined.

Lemma written_models_are_read_back_witness :
  read (host := Example.host) (opened (fun _ => Some (JObj [("version", JNum (Int 1));
                                     ("models", JObj [("User", JObj [])])]))
          (write Example.stringify (JObj [("User", JObj [])]) "app.db"
             (fun _ => None)))
    "app.db"
  = Ok (Some (JObj [("User", JObj [])])).
Proof.
  apply (written_models_are_read_back (host := Example.host) Example.stringify
           (fun _ => Some (JObj [("version", JNum (Int 1));
                                 ("models", JObj [("User", JObj [])])]))
           (JObj [("User", JObj [])]) "app.db" (fun _ => None)).
  reflexivity.
Defined.

End ReaderMore.
